(** * ScaLaMa: lab provisioning and manifest distribution

    A shallow embedding of the Go sources of the lab provisioning service
    (namespace derivation, namespace and RBAC bootstrap, manifest
    distribution, lab deletion) together with the properties that its
    design document states about them.

    Go strings are byte strings and are modelled by [string]; Go [int] values
    that are only compared and printed, and runes, are modelled by [Z]. *)

From Stdlib Require Import ZArith Ascii String DecimalString DecimalZ.
From stdpp Require Import gmap strings list.

(** ** Runes: Go's [unicode/utf8] package and the [range] loop over a string *)

Module GoRunes.

Definition between (lo hi : nat) (c : ascii) : bool :=
  (lo <=? nat_of_ascii c)%nat && (nat_of_ascii c <=? hi)%nat.

(** The width in bytes of the first rune of a string, as a [range] loop and
    [utf8.DecodeRuneInString] read it: one byte for an ASCII byte and for a
    byte that starts no valid encoding; two, three or four bytes for a valid
    encoding, whose second byte must lie in the range that the first byte
    allows and whose later bytes must be continuation bytes (128..191). *)
Definition rune_width (s : string) : nat :=
  match s with
  | EmptyString => 0
  | String c0 rest =>
      let b0 := nat_of_ascii c0 in
      if (b0 <? 128)%nat then 1
      else if (b0 <? 194)%nat then 1
      else if (b0 <? 224)%nat then
        match rest with
        | String c1 _ => if between 128 191 c1 then 2 else 1
        | _ => 1
        end
      else if (b0 <? 240)%nat then
        let lo := if (b0 =? 224)%nat then 160 else 128 in
        let hi := if (b0 =? 237)%nat then 159 else 191 in
        match rest with
        | String c1 (String c2 _) =>
            if between lo hi c1 && between 128 191 c2 then 3 else 1
        | _ => 1
        end
      else if (b0 <? 245)%nat then
        let lo := if (b0 =? 240)%nat then 144 else 128 in
        let hi := if (b0 =? 244)%nat then 143 else 191 in
        match rest with
        | String c1 (String c2 (String c3 _)) =>
            if between lo hi c1 && between 128 191 c2 && between 128 191 c3
            then 4 else 1
        | _ => 1
        end
      else 1
  end.

(** The value of a byte. *)
Definition byte (c : ascii) : Z := Z.of_nat (nat_of_ascii c).

(** The byte of a value below 256. *)
Definition of_byte (n : Z) : ascii := ascii_of_nat (Z.to_nat n).

(** [utf8.RuneError], U+FFFD. *)
Definition RuneError : Z := 65533.

(** The first rune of a string, as a [range] loop and
    [utf8.DecodeRuneInString] read it with the width [rune_width]: the value
    of a valid encoding ([s0&0x1F<<6 | s1&0x3F] and so on), and [RuneError]
    for a byte that starts none. *)
Definition rune_value (s : string) : Z :=
  match rune_width s, s with
  | 1%nat, String c0 _ => if (byte c0 <? 128)%Z then byte c0 else RuneError
  | 2%nat, String c0 (String c1 _) =>
      (byte c0 mod 32) * 64 + byte c1 mod 64
  | 3%nat, String c0 (String c1 (String c2 _)) =>
      (byte c0 mod 16) * 4096 + (byte c1 mod 64) * 64 + byte c2 mod 64
  | 4%nat, String c0 (String c1 (String c2 (String c3 _))) =>
      (byte c0 mod 8) * 262144 + (byte c1 mod 64) * 4096
      + (byte c2 mod 64) * 64 + byte c3 mod 64
  | _, _ => RuneError
  end%Z.

(** [utf8.EncodeRune] for a rune that is not negative, as
    [strings.Builder.WriteRune] writes it: one to four bytes, and the three
    bytes of [RuneError] for a surrogate and for a value above U+10FFFF. *)
Definition encode_rune (r : Z) : string :=
  (if r <? 128 then String (of_byte r) ""
   else if r <=? 2047
   then String (of_byte (192 + r / 64)) (String (of_byte (128 + r mod 64)) "")
   else if (1114111 <? r) || ((55296 <=? r) && (r <=? 57343))
   then String (of_byte 239) (String (of_byte 191) (String (of_byte 189) ""))
   else if r <=? 65535
   then String (of_byte (224 + r / 4096))
          (String (of_byte (128 + (r / 64) mod 64))
             (String (of_byte (128 + r mod 64)) ""))
   else String (of_byte (240 + r / 262144))
          (String (of_byte (128 + (r / 4096) mod 64))
             (String (of_byte (128 + (r / 64) mod 64))
                (String (of_byte (128 + r mod 64)) ""))))%Z.

(** The byte offsets that [for i := range s] visits: the start of each
    rune.  [i] is the offset of the first byte of [s] and [skip] the number
    of bytes of the current rune still to be passed. *)
Fixpoint range_offsets (i skip : nat) (s : string) : list nat :=
  match s with
  | EmptyString => []
  | String _ s' =>
      match skip with
      | S k => range_offsets (S i) k s'
      | O => i :: range_offsets (S i) (rune_width s - 1) s'
      end
  end.

(** The slice [s[i:]]. *)
Fixpoint slice_from (i : nat) (s : string) : string :=
  match i, s with
  | O, _ => s
  | S i', String _ s' => slice_from i' s'
  | S _, EmptyString => EmptyString
  end.

End GoRunes.

Import GoRunes.

(** ** The functions of Go's [strings] and [fmt] packages used by the sources *)

Module GoStrings.

(** [strings.HasPrefix(s, prefix)] *)
Definition HasPrefix (s prefix : string) : bool := String.prefix prefix s.

(** [strings.HasSuffix(s, suffix)]:
    [len(s) >= len(suffix) && s[len(s)-len(suffix):] == suffix] *)
Definition HasSuffix (s suffix : string) : bool :=
  (String.length suffix <=? String.length s)%nat
  && String.eqb
       (String.substring (String.length s - String.length suffix)
                         (String.length suffix) s)
       suffix.

(** [strings.Contains(s, substr)] *)
Fixpoint Contains (s substr : string) : bool :=
  String.prefix substr s
  || match s with
     | EmptyString => false
     | String _ s' => Contains s' substr
     end.

(** [unicode.ToLower]: the letters [A]..[Z] move to [a]..[z] and no other
    ASCII rune moves; a rune above ASCII goes through the case tables of the
    [unicode] package, [unicode.To(unicode.LowerCase, r)].  The tables belong
    to the toolchain that builds the service (they follow its Unicode
    version), so they are a parameter here: [lowerCase]. *)
Definition unicode_ToLower (lowerCase : Z → Z) (r : Z) : Z :=
  (if r <=? 127
   then if (65 <=? r) && (r <=? 90) then r + 32 else r
   else lowerCase r)%Z.

(** [strings.Map(mapping, s)].  The first loop keeps the bytes of the runes
    that the mapping leaves alone, up to the first rune that it changes or
    that is an invalid byte; from there on every rune is written anew, as
    [WriteRune] encodes the rune that the mapping gives, and dropped when the
    mapping gives a negative value.  An invalid byte reads as [RuneError] with
    the width 1.  [skip] counts the bytes of the current rune still to be
    passed. *)
Fixpoint map_rest (mapping : Z → Z) (skip : nat) (s : string) : string :=
  match s with
  | EmptyString => EmptyString
  | String _ s' =>
      match skip with
      | S k => map_rest mapping k s'
      | O =>
          let r := mapping (rune_value s) in
          (if (0 <=? r)%Z then encode_rune r else EmptyString)
            +:+ map_rest mapping (rune_width s - 1) s'
      end
  end.

Fixpoint map_from (mapping : Z → Z) (skip : nat) (s : string) : string :=
  match s with
  | EmptyString => EmptyString
  | String b s' =>
      match skip with
      | S k => String b (map_from mapping k s')
      | O =>
          let c := rune_value s in
          let r := mapping c in
          if (r =? c)%Z
             && (negb (c =? RuneError)%Z || negb (rune_width s =? 1)%nat)
          then String b (map_from mapping (rune_width s - 1) s')
          else (if (0 <=? r)%Z then encode_rune r else EmptyString)
                 +:+ map_rest mapping (rune_width s - 1) s'
      end
  end.

Definition Map (mapping : Z → Z) (s : string) : string :=
  map_from mapping 0 s.

(** The ASCII branch of [strings.ToLower]: [c += 'a' - 'A'] on the bytes
    [A]..[Z]. *)
Definition lower_byte (c : ascii) : ascii :=
  let n := nat_of_ascii c in
  if (65 <=? n)%nat && (n <=? 90)%nat then ascii_of_nat (n + 32) else c.

Fixpoint lower_bytes (s : string) : string :=
  match s with
  | EmptyString => EmptyString
  | String c s' => String (lower_byte c) (lower_bytes s')
  end.

(** The first loop of [strings.ToLower]: are all bytes ASCII, and is one of
    them an upper-case letter. *)
Fixpoint isASCII (s : string) : bool :=
  match s with
  | EmptyString => true
  | String c s' => (nat_of_ascii c <? 128)%nat && isASCII s'
  end.

Fixpoint hasUpper (s : string) : bool :=
  match s with
  | EmptyString => false
  | String c s' =>
      ((65 <=? nat_of_ascii c)%nat && (nat_of_ascii c <=? 90)%nat)
      || hasUpper s'
  end.

(** [strings.ToLower(s)]: a string of ASCII bytes is returned as it is when
    it has no upper-case letter and with its bytes lowered otherwise; any
    other string goes rune by rune through [Map(unicode.ToLower, s)], which
    reads each invalid byte as [RuneError] and writes the encoding of its
    image. *)
Definition ToLower (lowerCase : Z → Z) (s : string) : string :=
  if isASCII s
  then if hasUpper s then lower_bytes s else s
  else Map (unicode_ToLower lowerCase) s.

(** [strings.Split(s, sep)] for a non-empty separator: the pieces of [s]
    between the non-overlapping occurrences of [sep], found left to right.
    [skip] counts the bytes of a matched separator still to be passed. *)
Fixpoint split_from (sep : string) (skip : nat) (s : string) : list string :=
  match s with
  | EmptyString => [EmptyString]
  | String c s' =>
      match skip with
      | S k => split_from sep k s'
      | O =>
          if String.prefix sep s
          then EmptyString :: split_from sep (String.length sep - 1) s'
          else match split_from sep O s' with
               | piece :: rest => String c piece :: rest
               | [] => [String c EmptyString]
               end
      end
  end.

(** With an empty separator [Split] explodes the string into its bytes. *)
Fixpoint explode (s : string) : list string :=
  match s with
  | EmptyString => []
  | String c s' => String c EmptyString :: explode s'
  end.

Definition Split (s sep : string) : list string :=
  match sep with
  | EmptyString => explode s
  | _ => split_from sep 0 s
  end.

(** [strings.Join(elems, sep)] *)
Fixpoint Join (elems : list string) (sep : string) : string :=
  match elems with
  | [] => EmptyString
  | [e] => e
  | e :: rest => e +:+ sep +:+ Join rest sep
  end.

(** [strings.Replace(s, old, new, n)]: the first [n] non-overlapping
    occurrences of [old] are replaced by [new]; every occurrence when
    [n < 0]. *)
Fixpoint replace_from (old new : string) (n : Z) (skip : nat) (s : string)
  : string :=
  match s with
  | EmptyString => EmptyString
  | String c s' =>
      match skip with
      | S k => replace_from old new n k s'
      | O =>
          if (n =? 0)%Z then s
          else if String.prefix old s
               then new +:+ replace_from old new (n - 1)
                              (String.length old - 1) s'
               else String c (replace_from old new n 0 s')
      end
  end.

(** An empty [old] matches before every rune and at the end.  [skip] counts
    the bytes of the current rune still to be passed. *)
Fixpoint insert_between (new : string) (n : Z) (skip : nat) (s : string)
  : string :=
  match s with
  | EmptyString => if (n =? 0)%Z then EmptyString else new
  | String c s' =>
      match skip with
      | S k => String c (insert_between new n k s')
      | O =>
          if (n =? 0)%Z then s
          else new +:+ String c (insert_between new (n - 1)
                                   (rune_width s - 1) s')
      end
  end.

Definition Replace (s old new : string) (n : Z) : string :=
  if String.eqb old new || (n =? 0)%Z then s
  else match old with
       | EmptyString => insert_between new n 0 s
       | _ => replace_from old new n 0 s
       end.

(** [strings.ReplaceAll(s, old, new) = strings.Replace(s, old, new, -1)] *)
Definition ReplaceAll (s old new : string) : string := Replace s old new (-1).

(** The [%d] verb of [fmt.Sprintf] on an [int]. *)
Definition itoa (z : Z) : string := NilZero.string_of_int (Z.to_int z).

End GoStrings.

Import GoStrings.

(** ** student.go *)

Record Student := mkStudent {
  student_id : string;
  student_name : string;
  student_group : Z
}.

(** ** Namespace names (getNamespaceNames) *)

(** The loop of the individual branch: one appended name per student. *)
Definition individual_step (lowerCase : Z → Z) (labName : string)
    (namespaces : list string) (student : Student) : list string :=
  let name :=
    ToLower lowerCase (Join (Split (student_name student) " ") "-") in
  namespaces ++ ["ns-" +:+ labName +:+ "-" +:+ name].

(** The loop of the group branch, with the [visited] map of the source.
    Reading a missing key of a Go [map[int]bool] gives [false]. *)
Definition group_step (labName : string)
    (acc : list string * gmap Z bool) (student : Student)
    : list string * gmap Z bool :=
  let '(namespaces, visited) := acc in
  if negb (student_group student =? -1)%Z
     && negb (default false (visited !! student_group student))
  then (namespaces
          ++ ["ns-" +:+ labName +:+ "-group-" +:+ itoa (student_group student)],
        <[student_group student := true]> visited)
  else (namespaces, visited).

(** getNamespaceNames.  [lowerCase] stands for the case tables that
    [strings.ToLower] reads (see [unicode_ToLower]). *)
Definition getNamespaceNames (lowerCase : Z → Z) (students : list Student)
    (labName : string) (isIndividual : bool) : list string :=
  if isIndividual
  then foldl (individual_step lowerCase labName) [] students
  else fst (foldl (group_step labName) ([], ∅) students).

(** The tenant key as createLabEnvironment recovers it from a namespace
    name: [strings.Replace(namespace, "ns-"+labName+"-", "", -1)]. *)
Definition usernameOf (labName namespace : string) : string :=
  Replace namespace ("ns-" +:+ labName +:+ "-") "" (-1).


(** ** Errors and results *)

(** A Go [error] value: [io.EOF], or any other error with its [Error()]
    text. *)
Inductive error :=
| EOF
| Err (msg : string).

Definition Error (e : error) : string :=
  match e with
  | EOF => "EOF"
  | Err msg => msg
  end.

#[global] Instance error_eq_dec : EqDecision error.
Proof. solve_decision. Defined.

(** The [(T, error)] result of a client call. *)
Inductive Result (A : Type) :=
| Ok (a : A)
| Fail (e : error).

Arguments Ok {A} a.
Arguments Fail {A} e.

Definition result_err {A : Type} (r : Result A) : option error :=
  match r with
  | Ok _ => None
  | Fail e => Some e
  end.

(** A function that either returns or panics. *)
Inductive outcome (A : Type) :=
| Returned (a : A)
| Panicked.

Arguments Returned {A} a.
Arguments Panicked {A}.

(** ** The objects of the cluster API that the sources build and read *)

Module PolicyRule.
Record t := mk {
  APIGroups : list string;
  Verbs : list string;
  Resources : list string
}.
End PolicyRule.

Module ClusterRole.
Record t := mk {
  APIVersion : string;
  Kind : string;
  Name : string;
  Rules : list PolicyRule.t
}.
End ClusterRole.

Module Role.
Record t := mk {
  APIVersion : string;
  Kind : string;
  Name : string;
  Namespace : string;
  Rules : list PolicyRule.t
}.
End Role.

Module Subject.
Record t := mk {
  Kind : string;
  Name : string;
  Namespace : string
}.
End Subject.

Module RoleRef.
Record t := mk {
  Kind : string;
  Name : string;
  APIGroup : string
}.
End RoleRef.

Module RoleBinding.
Record t := mk {
  APIVersion : string;
  Kind : string;
  Name : string;
  Namespace : string;
  Subjects : list Subject.t;
  Ref : RoleRef.t
}.
End RoleBinding.

Module ClusterRoleBinding.
Record t := mk {
  APIVersion : string;
  Kind : string;
  Name : string;
  Namespace : string;
  Subjects : list Subject.t;
  Ref : RoleRef.t
}.
End ClusterRoleBinding.

(** [Secrets] holds the names of the referenced secrets. *)
Module ServiceAccount.
Record t := mk {
  APIVersion : string;
  Kind : string;
  Name : string;
  Namespace : string;
  Secrets : list string
}.
End ServiceAccount.

Module Secret.
Record t := mk {
  Data : gmap string string
}.
End Secret.

(** ** Manifest documents *)

(** The values of a decoded document ([interface{}] holding JSON data). *)
#[local] Unset Elimination Schemes.
Inductive value :=
| VNull
| VBool (b : bool)
| VNumber (z : Z)
| VString (s : string)
| VList (l : list value)
| VMap (m : gmap string value).
#[local] Set Elimination Schemes.

Record GroupVersionKind := mkGVK {
  gvk_Group : string;
  gvk_Version : string;
  gvk_Kind : string
}.

Record GroupVersionResource := mkGVR {
  gvr_Group : string;
  gvr_Version : string;
  gvr_Resource : string
}.

(** What the decoder makes of the next document of the stream: an object
    with its type, or a decoding error. *)
Inductive decoded :=
| Document (object : gmap string value) (gvk : GroupVersionKind)
| Malformed (msg : string).

(** [unstructured.Unstructured.SetNamespace]: an empty name removes
    [metadata.namespace]; otherwise the field is set, in a new [metadata] map
    when there is none, and not at all when [metadata] is not a map. *)
Definition SetNamespace (namespace : string) (object : gmap string value)
    : gmap string value :=
  match object !! "metadata" with
  | Some (VMap metadata) =>
      if decide (namespace = "")
      then <["metadata" := VMap (delete "namespace" metadata)]> object
      else <["metadata" := VMap (<["namespace" := VString namespace]> metadata)]>
             object
  | Some _ => object
  | None =>
      if decide (namespace = "") then object
      else <["metadata" := VMap {["namespace" := VString namespace]}]> object
  end.

(** [unstructured.Unstructured.GetNamespace] *)
Definition GetNamespace (object : gmap string value) : string :=
  match object !! "metadata" with
  | Some (VMap metadata) =>
      match metadata !! "namespace" with
      | Some (VString s) => s
      | _ => ""
      end
  | _ => ""
  end.

(** [unstructured.Unstructured.GetName] *)
Definition GetName (object : gmap string value) : string :=
  match object !! "metadata" with
  | Some (VMap metadata) =>
      match metadata !! "name" with
      | Some (VString s) => s
      | _ => ""
      end
  | _ => ""
  end.

(** ** The cluster as seen through the client *)

(** The remote calls that the sources issue. *)
Inductive Call :=
| NamespacesList
| NamespacesCreate (name : string)
| NamespacesDelete (name : string)
| ClusterRolesGet (name : string)
| ClusterRolesCreate (clusterRole : ClusterRole.t)
| ClusterRoleBindingsList
| ClusterRoleBindingsCreate (clusterRoleBinding : ClusterRoleBinding.t)
| ClusterRoleBindingsDelete (name : string)
| RolesCreate (namespace : string) (role : Role.t)
| RoleBindingsCreate (namespace : string) (roleBinding : RoleBinding.t)
| ServiceAccountsCreate (namespace : string) (serviceAccount : ServiceAccount.t)
| ServiceAccountsGet (namespace name : string)
| SecretsGet (namespace name : string)
| RESTMapping (gvk : GroupVersionKind)
| DynamicCreate (resource : GroupVersionResource) (namespace : string)
    (object : gmap string value).

(** One issued call and whether it failed. *)
Record Event := mkEvent {
  ev_call : Call;
  ev_err : option error
}.

(** The calls issued so far, oldest first. *)
Abbreviation Log := (list Event).

(** The cluster answers each call; its answer may depend on every call
    issued before (and so on time: a later call may see another answer). *)
Record Cluster := mkCluster {
  namespaces_list : Log → Result (list string);
  namespaces_create : Log → string → option error;
  namespaces_delete : Log → string → option error;
  clusterroles_get : Log → string → Result ClusterRole.t;
  clusterroles_create : Log → ClusterRole.t → option error;
  clusterrolebindings_list : Log → Result (list string);
  clusterrolebindings_create : Log → ClusterRoleBinding.t → option error;
  clusterrolebindings_delete : Log → string → option error;
  roles_create : Log → string → Role.t → option error;
  rolebindings_create : Log → string → RoleBinding.t → option error;
  serviceaccounts_create :
    Log → string → ServiceAccount.t → Result ServiceAccount.t;
  serviceaccounts_get : Log → string → string → Result ServiceAccount.t;
  secrets_get : Log → string → string → Result Secret.t;
  rest_mapping : Log → GroupVersionKind → Result GroupVersionResource;
  dynamic_create :
    Log → GroupVersionResource → string → gmap string value → option error
}.

(** The client: every call is answered by the cluster and recorded. *)
Module clientset.
Section Calls.
Variable cluster : Cluster.

Definition Namespaces_List (log : Log) : Log * Result (list string) :=
  let r := namespaces_list cluster log in
  (log ++ [mkEvent NamespacesList (result_err r)], r).

Definition Namespaces_Create (name : string) (log : Log)
    : Log * option error :=
  let err := namespaces_create cluster log name in
  (log ++ [mkEvent (NamespacesCreate name) err], err).

Definition Namespaces_Delete (name : string) (log : Log)
    : Log * option error :=
  let err := namespaces_delete cluster log name in
  (log ++ [mkEvent (NamespacesDelete name) err], err).

Definition ClusterRoles_Get (name : string) (log : Log)
    : Log * Result ClusterRole.t :=
  let r := clusterroles_get cluster log name in
  (log ++ [mkEvent (ClusterRolesGet name) (result_err r)], r).

Definition ClusterRoles_Create (clusterRole : ClusterRole.t) (log : Log)
    : Log * option error :=
  let err := clusterroles_create cluster log clusterRole in
  (log ++ [mkEvent (ClusterRolesCreate clusterRole) err], err).

Definition ClusterRoleBindings_List (log : Log) : Log * Result (list string) :=
  let r := clusterrolebindings_list cluster log in
  (log ++ [mkEvent ClusterRoleBindingsList (result_err r)], r).

Definition ClusterRoleBindings_Create
    (clusterRoleBinding : ClusterRoleBinding.t) (log : Log)
    : Log * option error :=
  let err := clusterrolebindings_create cluster log clusterRoleBinding in
  (log ++ [mkEvent (ClusterRoleBindingsCreate clusterRoleBinding) err], err).

Definition ClusterRoleBindings_Delete (name : string) (log : Log)
    : Log * option error :=
  let err := clusterrolebindings_delete cluster log name in
  (log ++ [mkEvent (ClusterRoleBindingsDelete name) err], err).

Definition Roles_Create (namespace : string) (role : Role.t) (log : Log)
    : Log * option error :=
  let err := roles_create cluster log namespace role in
  (log ++ [mkEvent (RolesCreate namespace role) err], err).

Definition RoleBindings_Create (namespace : string)
    (roleBinding : RoleBinding.t) (log : Log) : Log * option error :=
  let err := rolebindings_create cluster log namespace roleBinding in
  (log ++ [mkEvent (RoleBindingsCreate namespace roleBinding) err], err).

Definition ServiceAccounts_Create (namespace : string)
    (serviceAccount : ServiceAccount.t) (log : Log)
    : Log * Result ServiceAccount.t :=
  let r := serviceaccounts_create cluster log namespace serviceAccount in
  (log ++ [mkEvent (ServiceAccountsCreate namespace serviceAccount)
             (result_err r)], r).

Definition ServiceAccounts_Get (namespace name : string) (log : Log)
    : Log * Result ServiceAccount.t :=
  let r := serviceaccounts_get cluster log namespace name in
  (log ++ [mkEvent (ServiceAccountsGet namespace name) (result_err r)], r).

Definition Secrets_Get (namespace name : string) (log : Log)
    : Log * Result Secret.t :=
  let r := secrets_get cluster log namespace name in
  (log ++ [mkEvent (SecretsGet namespace name) (result_err r)], r).

Definition Discovery_RESTMapping (gvk : GroupVersionKind) (log : Log)
    : Log * Result GroupVersionResource :=
  let r := rest_mapping cluster log gvk in
  (log ++ [mkEvent (RESTMapping gvk) (result_err r)], r).

Definition Dynamic_Create (resource : GroupVersionResource)
    (namespace : string) (object : gmap string value) (log : Log)
    : Log * option error :=
  let err := dynamic_create cluster log resource namespace object in
  (log ++ [mkEvent (DynamicCreate resource namespace object) err], err).

End Calls.
End clientset.

(** ** The HTTP side of a handler *)

(** What [http.Error(w, message, status)] writes. *)
Record HttpError := http_Error {
  http_message : string;
  http_status : nat
}.

Definition StatusInternalServerError : nat := 500.

(** ** The sources *)

Section Sources.
(** The case tables of the toolchain (see [unicode_ToLower]). *)
Variable lowerCase : Z → Z.
Variable cluster : Cluster.

(** *** kube-helper.go *)

Definition createNamespace (name : string) (log : Log) : Log * option error :=
  let nsSpec := name in
  let '(log, err) := clientset.Namespaces_Create cluster nsSpec log in
  match err with
  | Some err => (log, Some err)
  | None => (log, None)
  end.

(** The scan of namespaceExists over the listed items. *)
Fixpoint hasName (items : list string) (name : string) : bool :=
  match items with
  | [] => false
  | namespace :: items' =>
      if String.eqb namespace name then true else hasName items' name
  end.

Definition namespaceExists (name : string) (log : Log)
    : Log * (bool * option error) :=
  let '(log, namespaces) := clientset.Namespaces_List cluster log in
  match namespaces with
  | Fail err => (log, (false, Some err))
  | Ok items => (log, (hasName items name, None))
  end.

(** handleManifestHelper on the next document of the stream ([None] at the
    end of the stream): the decoding steps, then the resource mapping of the
    document's type from the cluster's discovery data.  The object and the map
    it returns are one and the same map. *)
Definition handleManifestHelper (next : option decoded) (log : Log)
    : Log * Result (gmap string value * gmap string value
                    * GroupVersionResource) :=
  match next with
  | None => (log, Fail EOF)
  | Some (Malformed msg) => (log, Fail (Err msg))
  | Some (Document unstructuredMap gvk) =>
      let unstructuredObj := unstructuredMap in
      let '(log, mapping) := clientset.Discovery_RESTMapping cluster gvk log in
      match mapping with
      | Fail err => (log, Fail err)
      | Ok mapping => (log, Ok (unstructuredObj, unstructuredMap, mapping))
      end
  end.

(** The flag of a document, as both loops of handleManifest compute it:
    [metadata := unstructuredMap["metadata"].(map[string]interface{})] panics
    unless the value is a map (a missing key gives a nil interface);
    [metadata["single_instance"].(bool)] panics on a value that is neither nil
    nor a boolean.  A map that the assertion yields from a decoded document is
    never nil, so the test [metadata != nil] holds whenever it is reached. *)
Definition singleInstance (unstructuredMap : gmap string value)
    : outcome bool :=
  match unstructuredMap !! "metadata" with
  | Some (VMap metadata) =>
      match metadata !! "single_instance" with
      | None | Some VNull => Returned true
      | Some (VBool b) => Returned b
      | Some _ => Panicked
      end
  | _ => Panicked
  end.

(** How a loop of handleManifest is left. *)
Inductive loop_exit :=
| Break (err : error)
| Return (err : error)
| Panic.

(** The first loop: create every single-instance document in the lab
    namespace.  The decoder is the list of the documents still to be read;
    each turn reads its head.  (At the end of the stream the helper returns
    [io.EOF], so the branch for an object read from an empty stream is never
    taken.) *)
Fixpoint createSingleInstances (labName : string) (decoder : list decoded)
    (log : Log) : Log * loop_exit :=
  let '(log, r) := handleManifestHelper (head decoder) log in
  match r with
  | Fail err => (log, Break err)
  | Ok (unstructuredObj, unstructuredMap, mapping) =>
      match decoder with
      | [] => (log, Break EOF)
      | _ :: decoder' =>
          match singleInstance unstructuredMap with
          | Panicked => (log, Panic)
          | Returned false => createSingleInstances labName decoder' log
          | Returned true =>
              let unstructuredObj :=
                SetNamespace ("ns-" +:+ labName) unstructuredObj in
              let '(log, err) :=
                clientset.Dynamic_Create cluster mapping
                  (GetNamespace unstructuredObj) unstructuredObj log in
              match err with
              | Some err => (log, Return err)
              | None => createSingleInstances labName decoder' log
              end
          end
      end
  end.

(** The inner loop of the second loop: one copy per namespace, made by
    setting the namespace of the same object again and again. *)
Fixpoint createInNamespaces (mapping : GroupVersionResource)
    (unstructuredObj : gmap string value) (namespaces : list string)
    (log : Log) : Log * option error :=
  match namespaces with
  | [] => (log, None)
  | namespace :: namespaces' =>
      let unstructuredObj := SetNamespace namespace unstructuredObj in
      let '(log, err) :=
        clientset.Dynamic_Create cluster mapping
          (GetNamespace unstructuredObj) unstructuredObj log in
      match err with
      | Some err => (log, Some err)
      | None => createInNamespaces mapping unstructuredObj namespaces' log
      end
  end.

(** The second loop: create every other document in each namespace. *)
Fixpoint createPerNamespace (namespaces : list string)
    (decoder : list decoded) (log : Log) : Log * loop_exit :=
  let '(log, r) := handleManifestHelper (head decoder) log in
  match r with
  | Fail err => (log, Break err)
  | Ok (unstructuredObj, unstructuredMap, mapping) =>
      match decoder with
      | [] => (log, Break EOF)
      | _ :: decoder' =>
          match singleInstance unstructuredMap with
          | Panicked => (log, Panic)
          | Returned true => createPerNamespace namespaces decoder' log
          | Returned false =>
              let '(log, err) :=
                createInNamespaces mapping unstructuredObj namespaces log in
              match err with
              | Some err => (log, Return err)
              | None => createPerNamespace namespaces decoder' log
              end
          end
      end
  end.

(** handleManifest.  [file] is the document stream of the reader.  When the
    lab is new the first loop reads the stream to its end through the tee, so
    the second decoder reads the same documents from the buffer; otherwise the
    second decoder reads the stream itself.  [err] is the variable declared at
    the top of the function: the first loop assigns it, the second loop
    declares an [err] of its own, and the test after the second loop reads the
    function's. *)
Definition handleManifest (file : list decoded) (labName : string)
    (namespaces : list string) (labExists : bool) (log : Log)
    : Log * outcome (option error) :=
  let err : option error := None in
  let first :=
    if negb labExists
    then
      match createSingleInstances labName file log with
      | (log, Return err) => inl (log, Returned (Some err))
      | (log, Panic) => inl (log, Panicked)
      | (log, Break err) =>
          if decide (err ≠ EOF) then inl (log, Returned (Some err))
          else inr (log, Some err)
      end
    else inr (log, err) in
  match first with
  | inl returned => returned
  | inr (log, err) =>
      let decoder := file in
      match createPerNamespace namespaces decoder log with
      | (log, Return err) => (log, Returned (Some err))
      | (log, Panic) => (log, Panicked)
      | (log, Break _) =>
          if decide (err ≠ Some EOF) then (log, Returned err)
          else (log, Returned None)
      end
  end.

(** *** The RBAC helpers *)

Definition readNamespaceClusterRoleExists (log : Log)
    : Log * (bool * option error) :=
  let '(log, r) :=
    clientset.ClusterRoles_Get cluster "read-namespaces-cr" log in
  match r with
  | Fail err =>
      if HasSuffix (Error err) "not found" then (log, (false, None))
      else (log, (false, Some err))
  | Ok _ => (log, (true, None))
  end.

Definition createReadNamespacesClusterRole (log : Log)
    : Log * option error :=
  let clusterRole :=
    {| ClusterRole.APIVersion := "rbac.authorization.k8s.io/v1";
       ClusterRole.Kind := "ClusterRole";
       ClusterRole.Name := "read-namespaces-cr";
       ClusterRole.Rules :=
         [ {| PolicyRule.APIGroups := [""];
              PolicyRule.Verbs := ["get"; "list"];
              PolicyRule.Resources := ["namespaces"] |} ] |} in
  let '(log, err) := clientset.ClusterRoles_Create cluster clusterRole log in
  match err with
  | Some err => (log, Some err)
  | None => (log, None)
  end.

Definition createReadNamespacesClusterRoleBinding (labName username
    namespace : string) (log : Log) : Log * option error :=
  let clusterRoleBinding :=
    {| ClusterRoleBinding.APIVersion := "rbac.authorization.k8s.io/v1";
       ClusterRoleBinding.Kind := "ClusterRoleBinding";
       ClusterRoleBinding.Name :=
         "read-namespaces-crb-" +:+ labName +:+ "-" +:+ username;
       ClusterRoleBinding.Namespace := namespace;
       ClusterRoleBinding.Subjects :=
         [ {| Subject.Kind := "ServiceAccount";
              Subject.Name := username;
              Subject.Namespace := namespace |} ];
       ClusterRoleBinding.Ref :=
         {| RoleRef.Kind := "ClusterRole";
            RoleRef.Name := "read-namespaces-cr";
            RoleRef.APIGroup := "rbac.authorization.k8s.io" |} |} in
  let '(log, err) :=
    clientset.ClusterRoleBindings_Create cluster clusterRoleBinding log in
  match err with
  | Some err => (log, Some err)
  | None => (log, None)
  end.

Definition createRole (name namespace : string) (verbs : list string)
    (log : Log) : Log * option error :=
  let role :=
    {| Role.APIVersion := "rbac.authorization.k8s.io/v1";
       Role.Kind := "Role";
       Role.Name := name;
       Role.Namespace := namespace;
       Role.Rules :=
         [ {| PolicyRule.APIGroups := ["*"];
              PolicyRule.Verbs := verbs;
              PolicyRule.Resources := ["*"] |} ] |} in
  let '(log, err) := clientset.Roles_Create cluster namespace role log in
  match err with
  | Some err => (log, Some err)
  | None => (log, None)
  end.

Definition createRoleBinding (name namespace username userNamespace
    roleName : string) (log : Log) : Log * option error :=
  let roleBinding :=
    {| RoleBinding.APIVersion := "rbac.authorization.k8s.io/v1";
       RoleBinding.Kind := "RoleBinding";
       RoleBinding.Name := name;
       RoleBinding.Namespace := namespace;
       RoleBinding.Subjects :=
         [ {| Subject.Kind := "ServiceAccount";
              Subject.Name := username;
              Subject.Namespace := userNamespace |} ];
       RoleBinding.Ref :=
         {| RoleRef.Kind := "Role";
            RoleRef.Name := roleName;
            RoleRef.APIGroup := "rbac.authorization.k8s.io" |} |} in
  let '(log, err) :=
    clientset.RoleBindings_Create cluster namespace roleBinding log in
  match err with
  | Some err => (log, Some err)
  | None => (log, None)
  end.

(** The polling loop of createServiceAccount: fetch the account again until
    it lists a secret.  The source loop has no bound; [fuel] bounds the number
    of fetches of the model, and [None] means that the loop is still running
    when the fuel is spent. *)
Fixpoint awaitSecrets (fuel : nat) (namespace : string)
    (serviceAccount : ServiceAccount.t) (log : Log)
    : option (Log * Result ServiceAccount.t) :=
  match fuel with
  | O => None
  | S fuel' =>
      let '(log, r) :=
        clientset.ServiceAccounts_Get cluster namespace
          (ServiceAccount.Name serviceAccount) log in
      match r with
      | Fail err => Some (log, Fail err)
      | Ok serviceAccount =>
          if (0 <? length (ServiceAccount.Secrets serviceAccount))%nat
          then Some (log, Ok serviceAccount)
          else awaitSecrets fuel' namespace serviceAccount log
      end
  end.

(** createServiceAccount.  After the loop the account lists a secret, so
    [Secrets[0]] exists; a missing [token] entry reads as the empty string. *)
Definition createServiceAccount (fuel : nat) (username namespace : string)
    (log : Log) : option (Log * (string * option error)) :=
  let serviceAccount :=
    {| ServiceAccount.APIVersion := "v1";
       ServiceAccount.Kind := "ServiceAccount";
       ServiceAccount.Name := username;
       ServiceAccount.Namespace := namespace;
       ServiceAccount.Secrets := [] |} in
  let '(log, r) :=
    clientset.ServiceAccounts_Create cluster namespace serviceAccount log in
  match r with
  | Fail err => Some (log, ("", Some err))
  | Ok serviceAccount =>
      match awaitSecrets fuel namespace serviceAccount log with
      | None => None
      | Some (log, Fail err) => Some (log, ("", Some err))
      | Some (log, Ok serviceAccount) =>
          let secretName :=
            hd "" (ServiceAccount.Secrets serviceAccount) in
          let '(log, secret) :=
            clientset.Secrets_Get cluster namespace secretName log in
          match secret with
          | Fail err => Some (log, ("", Some err))
          | Ok secret =>
              Some (log, (default "" (Secret.Data secret !! "token"), None))
          end
      end
  end.

(** *** The handlers and the bootstrap *)

(** The namespace loop of createLabEnvironment. *)
Fixpoint createNamespaces (namespaces newNamespaces : list string)
    (log : Log) : Log * (HttpError + list string) :=
  match namespaces with
  | [] => (log, inr newNamespaces)
  | namespace :: namespaces' =>
      let '(log, (namespaceExists, err)) := namespaceExists namespace log in
      match err with
      | Some _ =>
          (log, inl (http_Error "Something went wrong while fetching namespaces"
                       StatusInternalServerError))
      | None =>
          if namespaceExists
          then createNamespaces namespaces' newNamespaces log
          else
            let '(log, err) := createNamespace namespace log in
            match err with
            | Some _ =>
                (log, inl (http_Error
                             ("Something went wrong while creating namespace "
                                +:+ namespace)
                             StatusInternalServerError))
            | None =>
                createNamespaces namespaces' (newNamespaces ++ [namespace]) log
            end
      end
  end.

(** The user loop of createLabEnvironment: account, roles and bindings of
    each new namespace, and the token of the account. *)
Fixpoint createUsers (fuel : nat) (labName : string)
    (newNamespaces : list string) (userConfigs : gmap string string)
    (log : Log) : option (Log * (HttpError + gmap string string)) :=
  match newNamespaces with
  | [] => Some (log, inr userConfigs)
  | namespace :: newNamespaces' =>
      let username := Replace namespace ("ns-" +:+ labName +:+ "-") "" (-1) in
      match createServiceAccount fuel username namespace log with
      | None => None
      | Some (log, (_, Some _)) =>
          Some (log, inl (http_Error
                 ("Something went wrong while creating service account "
                    +:+ username +:+ " in namespace " +:+ namespace)
                 StatusInternalServerError))
      | Some (log, (token, None)) =>
          let '(log, err) := createRole "student" namespace ["*"] log in
          match err with
          | Some _ =>
              Some (log, inl (http_Error
                 ("Something went wrong while creating Role student for namespace "
                    +:+ namespace)
                 StatusInternalServerError))
          | None =>
          let '(log, err) :=
            createRoleBinding "student-binding" namespace username namespace
              "student" log in
          match err with
          | Some _ =>
              Some (log, inl (http_Error
                 ("Something went wrong while creating RoleBinding student-binding for namespace "
                    +:+ namespace +:+ " and user " +:+ username)
                 StatusInternalServerError))
          | None =>
          let '(log, err) :=
            createRoleBinding ("student-binding-" +:+ username)
              ("ns-" +:+ labName) username namespace "student" log in
          match err with
          | Some _ =>
              Some (log, inl (http_Error
                 ("Something went wrong while creating RoleBinding student-binding-"
                    +:+ username +:+ " for namespace ns-" +:+ labName)
                 StatusInternalServerError))
          | None =>
          let '(log, err) :=
            createReadNamespacesClusterRoleBinding labName username namespace
              log in
          match err with
          | Some _ =>
              Some (log, inl (http_Error
                 ("Something went wrong while creating ClusterRoleBinding for user "
                    +:+ username)
                 StatusInternalServerError))
          | None =>
              createUsers fuel labName newNamespaces'
                (<[username := token]> userConfigs) log
          end end end end
      end
  end.

(** createLabEnvironment.  The roster comes from the request context and
    [form_labName], [form_isIndividual] from the form; [manifestFile] is what
    the switch on the deployment mode leaves: an error response, or the reader
    of the manifest. *)
Definition createLabEnvironment (fuel : nat) (students : list Student)
    (form_labName form_isIndividual : string)
    (manifestFile : HttpError + list decoded) (log : Log)
    : option (Log * outcome (HttpError + gmap string string)) :=
  let labName := ReplaceAll form_labName "-" "" in
  let isIndividual := negb (String.eqb form_isIndividual "false") in
  let namespaces :=
    getNamespaceNames lowerCase students labName isIndividual in
  let '(log, (labExists, err)) := namespaceExists ("ns-" +:+ labName) log in
  match err with
  | Some _ =>
      Some (log, Returned (inl (http_Error
              "Something went wrong while fetching namespaces"
              StatusInternalServerError)))
  | None =>
  let bootstrap :=
    if negb labExists
    then
      let '(log, err) := createNamespace ("ns-" +:+ labName) log in
      match err with
      | Some _ =>
          (log, Some (http_Error
                  ("Something went wrong while creating namespace ns-"
                     +:+ labName)
                  StatusInternalServerError))
      | None =>
          let '(log, err) :=
            createRole "student" ("ns-" +:+ labName) ["list"; "get"; "watch"]
              log in
          match err with
          | Some _ =>
              (log, Some (http_Error
                      ("Something went wrong while creating role for namespace ns-"
                         +:+ labName)
                      StatusInternalServerError))
          | None => (log, None)
          end
      end
    else (log, None) in
  match bootstrap with
  | (log, Some e) => Some (log, Returned (inl e))
  | (log, None) =>
  match createNamespaces namespaces [] log with
  | (log, inl e) => Some (log, Returned (inl e))
  | (log, inr newNamespaces) =>
  match createUsers fuel labName newNamespaces ∅ log with
  | None => None
  | Some (log, inl e) => Some (log, Returned (inl e))
  | Some (log, inr userConfigs) =>
  match manifestFile with
  | inl e => Some (log, Returned (inl e))
  | inr manifestFile =>
  match handleManifest manifestFile labName newNamespaces labExists log with
  | (log, Panicked) => Some (log, Panicked)
  | (log, Returned (Some _)) =>
      Some (log, Returned (inl (http_Error
              "Something went wrong while deploying manifest"
              StatusInternalServerError)))
  | (log, Returned None) => Some (log, Returned (inr userConfigs))
  end end end end end end.

(** The two loops of deleteLab. *)
Fixpoint deleteNamespaces (labName : string) (items : list string)
    (log : Log) : Log * option HttpError :=
  match items with
  | [] => (log, None)
  | namespace :: items' =>
      if String.eqb namespace ("ns-" +:+ labName)
         || HasPrefix namespace ("ns-" +:+ labName +:+ "-")
      then
        let '(log, err) := clientset.Namespaces_Delete cluster namespace log in
        match err with
        | Some _ =>
            (log, Some (http_Error
                    ("Something went wrong while deleting namespace "
                       +:+ namespace)
                    StatusInternalServerError))
        | None => deleteNamespaces labName items' log
        end
      else deleteNamespaces labName items' log
  end.

Fixpoint deleteClusterRoleBindings (labName : string) (items : list string)
    (log : Log) : Log * option HttpError :=
  match items with
  | [] => (log, None)
  | clusterRoleBinding :: items' =>
      if HasPrefix clusterRoleBinding
           ("read-namespaces-crb-" +:+ labName +:+ "-")
      then
        let '(log, err) :=
          clientset.ClusterRoleBindings_Delete cluster clusterRoleBinding log in
        match err with
        | Some _ =>
            (log, Some (http_Error
                    ("Something went wrong while deleting namespace "
                       +:+ clusterRoleBinding)
                    StatusInternalServerError))
        | None => deleteClusterRoleBindings labName items' log
        end
      else deleteClusterRoleBindings labName items' log
  end.

(** deleteLab; [params_labName] is the [labName] variable of the route. *)
Definition deleteLab (params_labName : string) (log : Log)
    : Log * option HttpError :=
  let labName := ReplaceAll params_labName "-" "" in
  let '(log, namespaces) := clientset.Namespaces_List cluster log in
  match namespaces with
  | Fail _ =>
      (log, Some (http_Error "Something went wrong while listing the namespaces"
                    StatusInternalServerError))
  | Ok items =>
      match deleteNamespaces labName items log with
      | (log, Some e) => (log, Some e)
      | (log, None) =>
          let '(log, clusterRoleBindings) :=
            clientset.ClusterRoleBindings_List cluster log in
          match clusterRoleBindings with
          | Fail _ =>
              (log, Some (http_Error
                      "Something went wrong while listing the ClusterRoleBindings"
                      StatusInternalServerError))
          | Ok items => deleteClusterRoleBindings labName items log
          end
      end
  end.

Definition createNamespaceClusterRoleIfNotExists (log : Log)
    : Log * option error :=
  let '(log, (readNamespaceClusterRoleExists, err)) :=
    readNamespaceClusterRoleExists log in
  match err with
  | Some err => (log, Some err)
  | None =>
      if negb readNamespaceClusterRoleExists
      then
        let '(log, err) := createReadNamespacesClusterRole log in
        match err with
        | Some err => (log, Some err)
        | None => (log, None)
        end
      else (log, None)
  end.

End Sources.

(** ** More of Go's library: [strconv.Atoi] *)

Module GoStrconv.

(** The decimal numbers [strconv.Atoi] reads: an optional sign and one or
    more digits. *)
Definition parse_decimal (s : string) : option Z :=
  match s with
  | String "+" digits =>
      option_map (λ d, Z.of_int (Decimal.Pos d)) (NilZero.uint_of_string digits)
  | _ => option_map Z.of_int (NilZero.int_of_string s)
  end.

(** [strconv.Atoi] for a 64-bit [int]: a syntax error for anything but a
    decimal number, a range error outside the range of [int]. *)
Definition Atoi (s : string) : Result Z :=
  match parse_decimal s with
  | None => Fail (Err "invalid syntax")
  | Some z =>
      if ((- 2 ^ 63 <=? z) && (z <? 2 ^ 63))%Z then Ok z
      else Fail (Err "value out of range")
  end.

End GoStrconv.

Import GoStrconv.

(** ** student.go, continued *)

(** trimLeftChar: the string from its second rune on, the empty slice when
    there is none. *)
Definition trimLeftChar (s : string) : string :=
  match List.find (λ i, (0 <? i)%nat) (range_offsets 0 0 s) with
  | Some i => slice_from i s
  | None => EmptyString
  end.

(** NewStudent.  An index past the end of the row, of an empty string or of
    the pieces of the group label panics. *)
Definition NewStudent (csvRow : list string) : outcome Student :=
  match csvRow !! 0%nat with
  | None => Panicked
  | Some id =>
  match csvRow !! 1%nat with
  | None => Panicked
  | Some name =>
  match id with
  | EmptyString => Panicked
  | String c _ =>
  let id := if Ascii.eqb c "#" then trimLeftChar id else id in
  match name with
  | EmptyString => Panicked
  | String c _ =>
  let name := if Ascii.eqb c "#" then trimLeftChar name else name in
  match csvRow !! 2%nat with
  | None => Panicked
  | Some label =>
  match Split label " " !! 1%nat with
  | None => Panicked
  | Some groupStr =>
      match Atoi groupStr with
      | Fail _ => Returned (mkStudent id name (-1))
      | Ok group => Returned (mkStudent id name group)
      end
  end end end end end end.

(** The loop of getStudentsFromCsv.  The reader is the list of what its
    [Read] calls return before it reports [io.EOF]: a record and, when the
    call fails, the text of its error, which is not [io.EOF] (the record is
    then what the reader returns beside the error, none for a line it cannot
    parse).  The source tests the error against [io.EOF] only. *)
Fixpoint readStudents (reader : list (list string * option string))
    (students : list Student) : outcome (list Student) :=
  match reader with
  | [] => Returned students
  | (row, _) :: reader' =>
      match NewStudent row with
      | Panicked => Panicked
      | Returned s => readStudents reader' (students ++ [s])
      end
  end.

(** getStudentsFromCsv: the first record is the header. *)
Definition getStudentsFromCsv (reader : list (list string * option string))
    : outcome (list Student) :=
  match reader with
  | [] => Returned []
  | _ :: reader' => readStudents reader' []
  end.

(** ** The form files of a request (getFormFile) *)

Definition StatusBadRequest : nat := 400.
Definition StatusUnsupportedMediaType : nat := 415.

Section FormFile.
Context {File : Type}.

(** The first loop of getFormFile: [header] is
    [fileHeader.Header["Content-Type"]], whose first value is read at every
    turn. *)
Fixpoint contentTypeMatches (header contentTypes : list string)
    : outcome bool :=
  match contentTypes with
  | [] => Returned false
  | contentType :: contentTypes' =>
      match header !! 0%nat with
      | None => Panicked
      | Some value =>
          if String.eqb value contentType then Returned true
          else contentTypeMatches header contentTypes'
      end
  end.

(** getFormFile.  [formFile] is what [r.FormFile(filename)] returns: the file
    with the values of its Content-Type header, or an error.  The error value
    is the message and the status of the handler's [Error]. *)
Definition getFormFile (formFile : Result (File * list string))
    (filename : string) (contentTypes : list string)
    : outcome (File + HttpError) :=
  match formFile with
  | Fail _ =>
      Returned (inr (http_Error
                       ("Something went wrong while reading file " +:+ filename)
                       StatusBadRequest))
  | Ok (file, header) =>
      match contentTypeMatches header contentTypes with
      | Panicked => Panicked
      | Returned true => Returned (inl file)
      | Returned false =>
          match contentTypes with
          | [] => Panicked
          | first :: others =>
              let contentTypesStr :=
                foldl (λ contentTypesStr contentType,
                         (contentTypesStr +:+ ", ") +:+ contentType)
                  first others in
              Returned (inr (http_Error
                               (((filename +:+ " must be one of ")
                                   +:+ contentTypesStr) +:+ " types")
                               StatusUnsupportedMediaType))
          end
      end
  end.

End FormFile.

(** studentsMiddleware: [formFile] is what [r.FormFile("students")] returns,
    the file being the records of its CSV reader; [next] is the handler that
    runs with the students in the request context.  An error response ends
    the request without running [next]. *)
Definition studentsMiddleware {A : Type} (next : list Student → A)
    (formFile : Result (list (list string * option string) * list string))
    : outcome (HttpError + A) :=
  match getFormFile formFile "students" ["text/csv"] with
  | Panicked => Panicked
  | Returned (inr err) => Returned (inl err)
  | Returned (inl studentsFile) =>
      match getStudentsFromCsv studentsFile with
      | Panicked => Panicked
      | Returned students => Returned (inr (next students))
      end
  end.

(** ** Reference definitions used to state the properties *)

(** The bytes of [s] with every [from] byte changed to [to]. *)
Fixpoint replace_byte (from to : ascii) (s : string) : string :=
  match s with
  | EmptyString => EmptyString
  | String c s' =>
      String (if decide (c = from) then to else c) (replace_byte from to s')
  end.

(** The slug of a display name: spaces become hyphens, letters lower case
    (as [strings.ToLower] lowers them with the case tables [lowerCase]). *)
Definition slug (lowerCase : Z → Z) (displayName : string) : string :=
  ToLower lowerCase (replace_byte " " "-" displayName).

(** A Unicode scalar value: a code point up to U+10FFFF that is no
    surrogate.  These are the runes that UTF-8 text encodes. *)
Definition scalar (r : Z) : Prop :=
  (0 <= r <= 1114111)%Z ∧ ¬ (55296 <= r <= 57343)%Z.

(** The UTF-8 text of a list of runes. *)
Fixpoint utf8_text (runes : list Z) : string :=
  match runes with
  | [] => EmptyString
  | r :: runes' => encode_rune r +:+ utf8_text runes'
  end.

(** The runes of a string, as a [range] loop reads them.  [skip] counts the
    bytes of the current rune still to be passed. *)
Fixpoint runes_from (skip : nat) (s : string) : list Z :=
  match s with
  | EmptyString => []
  | String _ s' =>
      match skip with
      | S k => runes_from k s'
      | O => rune_value s :: runes_from (rune_width s - 1) s'
      end
  end.

(** The small letter of a capital letter of the alphabet; any other byte
    is kept. *)
Definition small_letter (c : ascii) : ascii :=
  match c with
  | "A" => "a" | "B" => "b" | "C" => "c" | "D" => "d" | "E" => "e"
  | "F" => "f" | "G" => "g" | "H" => "h" | "I" => "i" | "J" => "j"
  | "K" => "k" | "L" => "l" | "M" => "m" | "N" => "n" | "O" => "o"
  | "P" => "p" | "Q" => "q" | "R" => "r" | "S" => "s" | "T" => "t"
  | "U" => "u" | "V" => "v" | "W" => "w" | "X" => "x" | "Y" => "y"
  | "Z" => "z"
  | _ => c
  end%char.

(** The slug of a display name written in ASCII, byte by byte: a space
    becomes a hyphen, a capital letter its small letter, and every other byte
    is kept. *)
Fixpoint ascii_slug (displayName : string) : string :=
  match displayName with
  | EmptyString => EmptyString
  | String c rest =>
      String (if decide (c = " "%char) then "-"%char else small_letter c)
        (ascii_slug rest)
  end.

(** The distinct values of a list, each at the place of its first
    occurrence. *)
Fixpoint first_seen (l : list Z) : list Z :=
  match l with
  | [] => []
  | x :: l' => x :: filter (λ y, y ≠ x) (first_seen l')
  end.

(** The position of the first occurrence of [x] in [l]. *)
Fixpoint index_of (x : Z) (l : list Z) : nat :=
  match l with
  | [] => 0
  | y :: l' => if decide (x = y) then 0 else S (index_of x l')
  end.

(** The group numbers of a roster that stand for a group: the distinct
    ones, in first-seen order, without the sentinel [-1]. *)
Definition distinct_groups (students : list Student) : list Z :=
  filter (λ g, g ≠ (-1)%Z) (first_seen (student_group <$> students)).

Definition group_namespace (labName : string) (g : Z) : string :=
  "ns-" +:+ labName +:+ "-group-" +:+ itoa g.

(** A group is marked in the [visited] map of getNamespaceNames. *)
Definition seen (visited : gmap Z bool) (g : Z) : Prop :=
  default false (visited !! g) = true.

#[global] Instance seen_dec (visited : gmap Z bool) (g : Z) :
  Decision (seen visited g).
Proof. unfold seen. apply _. Defined.

Definition group_key (g : Z) : string := "group-" +:+ itoa g.

(** The tenant keys of a roster: the slugs of the display names in
    individual mode, the keys of the distinct groups in group mode. *)
Definition tenant_keys (lowerCase : Z → Z) (students : list Student)
    (isIndividual : bool) : list string :=
  if isIndividual
  then (λ st, slug lowerCase (student_name st)) <$> students
  else group_key <$> distinct_groups students.

(** The namespace of a tenant key. *)
Definition tenant_namespace (labName key : string) : string :=
  "ns-" +:+ labName +:+ "-" +:+ key.

(** *** Reading a log *)

Definition succeeded (c : Call) : Event := mkEvent c None.

Definition failed (c : Call) (e : error) : Event := mkEvent c (Some e).

(** The calls of [log'] issued after [log]. *)
Definition issued (log log' : Log) : list Call :=
  ev_call <$> drop (length log) log'.

(** The names that deleteLab looks for. *)
Definition lab_namespace (labName name : string) : bool :=
  String.eqb name ("ns-" +:+ labName)
  || HasPrefix name ("ns-" +:+ labName +:+ "-").

Definition lab_binding (labName name : string) : bool :=
  HasPrefix name ("read-namespaces-crb-" +:+ labName +:+ "-").

Definition is_delete (c : Call) : bool :=
  match c with
  | NamespacesDelete _ | ClusterRoleBindingsDelete _ => true
  | _ => false
  end.

(** Calls that change the cluster. *)
Definition is_mutation (c : Call) : bool :=
  match c with
  | NamespacesList | ClusterRolesGet _ | ClusterRoleBindingsList
  | ServiceAccountsGet _ _ | SecretsGet _ _ | RESTMapping _ => false
  | _ => true
  end.

(** What deleteLab sets out to do for the lab [labName], from the lists the
    cluster returns: list the namespaces, delete each one that is the lab's
    namespace [ns-<labName>] or starts with [ns-<labName>-], list the
    cluster-scoped bindings, delete each one that starts with
    [read-namespaces-crb-<labName>-]; all in the order of the lists.  (A list
    that cannot be fetched counts as empty here.) *)
Definition deleteLab_plan (cluster : Cluster) (labName : string) (log : Log)
    : list Call :=
  let namespaces :=
    match namespaces_list cluster log with
    | Ok items => filter (λ n, lab_namespace labName n) items
    | Fail _ => []
    end in
  let log1 :=
    log ++ succeeded NamespacesList
        :: (succeeded ∘ NamespacesDelete <$> namespaces) in
  let bindings :=
    match clusterrolebindings_list cluster log1 with
    | Ok items => filter (λ n, lab_binding labName n) items
    | Fail _ => []
    end in
  NamespacesList :: (NamespacesDelete <$> namespaces)
    ++ ClusterRoleBindingsList :: (ClusterRoleBindingsDelete <$> bindings).

(** *** What a policy rule grants *)

(** The matching of the cluster's RBAC authorizer: an entry [*] stands for
    everything, any other entry for itself; the empty group name is the core
    API group. *)
Definition matches_entry (entries : list string) (requested : string)
    : bool :=
  existsb (λ entry, String.eqb entry "*" || String.eqb entry requested)
    entries.

Definition RuleAllows (rule : PolicyRule.t) (group resource verb : string)
    : bool :=
  matches_entry (PolicyRule.Verbs rule) verb
  && matches_entry (PolicyRule.APIGroups rule) group
  && matches_entry (PolicyRule.Resources rule) resource.

Definition RulesAllow (rules : list PolicyRule.t)
    (group resource verb : string) : bool :=
  existsb (λ rule, RuleAllows rule group resource verb) rules.

(** *** A cluster that keeps what it is given *)

(** The namespaces of a cluster that started with [init] and answered the
    calls of [log]. *)
Definition namespaces_after (init : list string) (log : Log) : list string :=
  foldl (λ namespaces ev,
           match ev with
           | mkEvent (NamespacesCreate name) None => namespaces ++ [name]
           | mkEvent (NamespacesDelete name) None =>
               filter (λ n, n ≠ name) namespaces
           | _ => namespaces
           end) init log.

(** The listing of the cluster shows its namespaces. *)
Definition lists_namespaces (cluster : Cluster) (init : list string) : Prop :=
  ∀ log, namespaces_list cluster log = Ok (namespaces_after init log).

Definition bindings_after (init : list string) (log : Log) : list string :=
  foldl (λ bindings ev,
           match ev with
           | mkEvent (ClusterRoleBindingsCreate b) None =>
               bindings ++ [ClusterRoleBinding.Name b]
           | mkEvent (ClusterRoleBindingsDelete name) None =>
               filter (λ n, n ≠ name) bindings
           | _ => bindings
           end) init log.

Definition role_created (log : Log) : bool :=
  existsb (λ ev, match ev with
                 | mkEvent (ClusterRolesCreate _) None => true
                 | _ => false
                 end) log.

Definition fetches (namespace name : string) (log : Log) : nat :=
  length (filter (λ ev, match ev_call ev with
                        | ServiceAccountsGet ns n =>
                            String.eqb ns namespace && String.eqb n name
                        | _ => false
                        end = true) log).

(** A small cluster for the examples.  It starts with the given namespaces
    and bindings, with or without the cluster role; an account shows its
    secret from the fetch numbered [demo_delay] on (never, when there is no
    number); the call numbered [k] fails when [demo_fault k] is an error. *)
Record Demo := mkDemo {
  demo_namespaces : list string;
  demo_bindings : list string;
  demo_role : bool;
  demo_delay : option nat;
  demo_fault : nat → option error
}.

Definition or_fault {A : Type} (d : Demo) (log : Log) (r : Result A)
    : Result A :=
  match demo_fault d (length log) with
  | Some e => Fail e
  | None => r
  end.

Definition demo_cluster (d : Demo) : Cluster :=
  {| namespaces_list log :=
       or_fault d log (Ok (namespaces_after (demo_namespaces d) log));
     namespaces_create log name :=
       result_err (or_fault d log
         (if bool_decide (name ∈ namespaces_after (demo_namespaces d) log)
          then Fail (Err ("namespaces " +:+ name +:+ " already exists"))
          else Ok tt));
     namespaces_delete log name :=
       result_err (or_fault d log
         (if bool_decide (name ∈ namespaces_after (demo_namespaces d) log)
          then Ok tt
          else Fail (Err ("namespaces " +:+ name +:+ " not found"))));
     clusterroles_get log name :=
       or_fault d log
         (if demo_role d || role_created log
          then Ok (ClusterRole.mk "rbac.authorization.k8s.io/v1" "ClusterRole"
                     name [])
          else Fail (Err ("clusterroles.rbac.authorization.k8s.io "
                            +:+ name +:+ " not found")));
     clusterroles_create log _ := result_err (or_fault d log (Ok tt));
     clusterrolebindings_list log :=
       or_fault d log (Ok (bindings_after (demo_bindings d) log));
     clusterrolebindings_create log _ := result_err (or_fault d log (Ok tt));
     clusterrolebindings_delete log _ := result_err (or_fault d log (Ok tt));
     roles_create log _ _ := result_err (or_fault d log (Ok tt));
     rolebindings_create log _ _ := result_err (or_fault d log (Ok tt));
     serviceaccounts_create log _ serviceAccount :=
       or_fault d log (Ok serviceAccount);
     serviceaccounts_get log namespace name :=
       or_fault d log
         (Ok (ServiceAccount.mk "v1" "ServiceAccount" name namespace
                match demo_delay d with
                | Some n =>
                    if (n <=? fetches namespace name log)%nat
                    then [name +:+ "-token"] else []
                | None => []
                end));
     secrets_get log _ name :=
       or_fault d log
         (Ok (Secret.mk {[ "token" := "token-of-" +:+ name ]}));
     rest_mapping log gvk :=
       or_fault d log
         (Ok (mkGVR (gvk_Group gvk) (gvk_Version gvk)
                (lower_bytes (gvk_Kind gvk) +:+ "s")));
     dynamic_create log _ _ _ := result_err (or_fault d log (Ok tt)) |}.

Definition no_fault : nat → option error := λ _, None.

(** The cluster role of createReadNamespacesClusterRole. *)
Definition read_namespaces_cr : ClusterRole.t :=
  {| ClusterRole.APIVersion := "rbac.authorization.k8s.io/v1";
     ClusterRole.Kind := "ClusterRole";
     ClusterRole.Name := "read-namespaces-cr";
     ClusterRole.Rules :=
       [ {| PolicyRule.APIGroups := [""];
            PolicyRule.Verbs := ["get"; "list"];
            PolicyRule.Resources := ["namespaces"] |} ] |}.

(** A cluster keeps the cluster role once its creation succeeded. *)
Definition keeps_role (cluster : Cluster) : Prop :=
  ∀ log,
    role_created log = true →
    ∃ role, clusterroles_get cluster log "read-namespaces-cr" = Ok role.

(** *** Polling *)

(** The account and the log after [k] fetches of createServiceAccount's loop
    that all succeeded and showed no secret; [None] when one of these fetches
    failed or showed a secret. *)
Fixpoint after_fetches (cluster : Cluster) (namespace : string) (k : nat)
    (serviceAccount : ServiceAccount.t) (log : Log)
    : option (ServiceAccount.t * Log) :=
  match k with
  | O => Some (serviceAccount, log)
  | S k' =>
      let name := ServiceAccount.Name serviceAccount in
      match serviceaccounts_get cluster log namespace name with
      | Ok fetched =>
          match ServiceAccount.Secrets fetched with
          | [] =>
              after_fetches cluster namespace k' fetched
                (log ++ [succeeded (ServiceAccountsGet namespace name)])
          | _ :: _ => None
          end
      | Fail _ => None
      end
  end.

Definition is_fetch (c : Call) : bool :=
  match c with
  | ServiceAccountsGet _ _ => true
  | _ => false
  end.

(** The account that createServiceAccount sends. *)
Definition new_account (username namespace : string) : ServiceAccount.t :=
  {| ServiceAccount.APIVersion := "v1";
     ServiceAccount.Kind := "ServiceAccount";
     ServiceAccount.Name := username;
     ServiceAccount.Namespace := namespace;
     ServiceAccount.Secrets := [] |}.

(** *** What the manifest calls for *)

(** A document that both loops of handleManifest can read: it decoded, its
    [metadata] is a map and its flag, when present, is a boolean. *)
Definition readable (doc : decoded) : Prop :=
  match doc with
  | Document object _ => singleInstance object ≠ Panicked
  | Malformed _ => False
  end.

(** The object of a document as it is created in [namespace]. *)
Definition placed (resource_of : GroupVersionKind → GroupVersionResource)
    (namespace : string) (object : gmap string value)
    (gvk : GroupVersionKind) : Call :=
  DynamicCreate (resource_of gvk) namespace (SetNamespace namespace object).

(** The calls of the first loop for one document: its type is resolved, and
    it is created once, in the lab namespace, when its flag is true. *)
Definition single_calls
    (resource_of : GroupVersionKind → GroupVersionResource)
    (labName : string) (doc : decoded) : list Call :=
  match doc with
  | Document object gvk =>
      RESTMapping gvk
        :: match singleInstance object with
           | Returned true => [placed resource_of ("ns-" +:+ labName) object gvk]
           | _ => []
           end
  | Malformed _ => []
  end.

(** The calls of the second loop for one document: its type is resolved, and
    it is created once in each of the namespaces when its flag is false. *)
Definition tenant_calls
    (resource_of : GroupVersionKind → GroupVersionResource)
    (namespaces : list string) (doc : decoded) : list Call :=
  match doc with
  | Document object gvk =>
      RESTMapping gvk
        :: match singleInstance object with
           | Returned false =>
               (λ namespace, placed resource_of namespace object gvk)
                 <$> namespaces
           | _ => []
           end
  | Malformed _ => []
  end.

Definition is_creation (c : Call) : bool :=
  match c with
  | DynamicCreate _ _ _ => true
  | _ => false
  end.

(** The creations among the calls of a list. *)
Definition creations (calls : list Call) : list Call :=
  filter (λ c, is_creation c = true) calls.

(** The creations that a manifest calls for: one in the lab namespace for
    each document whose flag is true, and one in each of the namespaces for
    each document whose flag is false. *)
Definition singles (resource_of : GroupVersionKind → GroupVersionResource)
    (labName : string) (file : list decoded) : list Call :=
  file ≫= λ doc,
    match doc with
    | Document object gvk =>
        match singleInstance object with
        | Returned true => [placed resource_of ("ns-" +:+ labName) object gvk]
        | _ => []
        end
    | Malformed _ => []
    end.

Definition copies (resource_of : GroupVersionKind → GroupVersionResource)
    (namespaces : list string) (file : list decoded) : list Call :=
  file ≫= λ doc,
    match doc with
    | Document object gvk =>
        match singleInstance object with
        | Returned false =>
            (λ namespace, placed resource_of namespace object gvk)
              <$> namespaces
        | _ => []
        end
    | Malformed _ => []
    end.

(** *** A manifest for the examples *)

Definition demo_resource_of (gvk : GroupVersionKind) : GroupVersionResource :=
  mkGVR (gvk_Group gvk) (gvk_Version gvk) (lower_bytes (gvk_Kind gvk) +:+ "s").

(** A config map flagged as a single instance. *)
Definition shared_doc : gmap string value :=
  {[ "apiVersion" := VString "v1";
     "kind" := VString "ConfigMap";
     "metadata" := VMap {[ "name" := VString "shared";
                           "single_instance" := VBool true ]} ]}.

(** A pod flagged as one per namespace. *)
Definition own_doc : gmap string value :=
  {[ "apiVersion" := VString "v1";
     "kind" := VString "Pod";
     "metadata" := VMap {[ "name" := VString "workbench";
                           "single_instance" := VBool false ]} ]}.

(** A config map without a [metadata] section. *)
Definition bare_doc : gmap string value :=
  {[ "apiVersion" := VString "v1";
     "kind" := VString "ConfigMap" ]}.

Definition demo_manifest : list decoded :=
  [Document shared_doc (mkGVK "" "v1" "ConfigMap");
   Document own_doc (mkGVK "" "v1" "Pod")].

(** Case tables for the examples: the capital letters of Latin-1 (U+00C0 to
    U+00DE, the sign U+00D7 apart) move by 32, as the Unicode tables have
    them; no other rune moves. *)
Definition demo_case (r : Z) : Z :=
  if ((192 <=? r) && (r <=? 222) && negb (r =? 215))%Z then (r + 32)%Z else r.

(** A cluster that holds the lab [demo] and answers every call. *)
Definition demo_lab : Cluster :=
  demo_cluster (mkDemo ["ns-demo"] [] true (Some 0) no_fault).


(** ** Reference definitions for the remaining sources *)

(** A string without its leading [#], when it has one. *)
Definition unhash (s : string) : string :=
  match s with
  | String "#" rest => rest
  | _ => s
  end.

(** The group of a roster row whose label has [word] as its second word. *)
Definition group_of_word (word : string) : Z :=
  match Atoi word with
  | Ok group => group
  | Fail _ => -1
  end.

(** The range of a 64-bit [int]. *)
Definition is_int (z : Z) : Prop := (- 2 ^ 63 <= z < 2 ^ 63)%Z.

(** The record of a roster entry with the label [Group <g>]. *)
Definition group_record (entry : string * string * Z)
    : list string * option string :=
  ([entry.1.1; entry.1.2; "Group " +:+ itoa entry.2], None).

(** *** Runs of calls *)

(** No event of the list failed. *)
Definition clean (events : Log) : Prop :=
  Forall (λ ev, ev_err ev = None) events.

(** The last event failed and no event before it. *)
Definition stopped (events : Log) : Prop :=
  ∃ before c e, events = before ++ [failed c e] ∧ clean before.

(** [log'] is [log] followed by calls that satisfy [P]; when [ok] they all
    succeeded, otherwise the last one failed and is the only one that
    failed. *)
Definition run (P : Call → Prop) (log log' : Log) (ok : bool) : Prop :=
  ∃ events,
    log' = log ++ events
    ∧ Forall (λ ev, P (ev_call ev)) events
    ∧ if ok then clean events else stopped events.

(** *** The objects of a lab *)

Definition student_role (namespace : string) (verbs : list string) : Role.t :=
  {| Role.APIVersion := "rbac.authorization.k8s.io/v1";
     Role.Kind := "Role";
     Role.Name := "student";
     Role.Namespace := namespace;
     Role.Rules :=
       [ {| PolicyRule.APIGroups := ["*"];
            PolicyRule.Verbs := verbs;
            PolicyRule.Resources := ["*"] |} ] |}.

(** The binding [name] in [namespace] of the role [student] of that namespace
    to the account [username] of [userNamespace]. *)
Definition student_binding (name namespace username userNamespace : string)
    : RoleBinding.t :=
  {| RoleBinding.APIVersion := "rbac.authorization.k8s.io/v1";
     RoleBinding.Kind := "RoleBinding";
     RoleBinding.Name := name;
     RoleBinding.Namespace := namespace;
     RoleBinding.Subjects :=
       [ {| Subject.Kind := "ServiceAccount";
            Subject.Name := username;
            Subject.Namespace := userNamespace |} ];
     RoleBinding.Ref :=
       {| RoleRef.Kind := "Role";
          RoleRef.Name := "student";
          RoleRef.APIGroup := "rbac.authorization.k8s.io" |} |}.

Definition read_namespaces_crb (labName username namespace : string)
    : ClusterRoleBinding.t :=
  {| ClusterRoleBinding.APIVersion := "rbac.authorization.k8s.io/v1";
     ClusterRoleBinding.Kind := "ClusterRoleBinding";
     ClusterRoleBinding.Name :=
       "read-namespaces-crb-" +:+ labName +:+ "-" +:+ username;
     ClusterRoleBinding.Namespace := namespace;
     ClusterRoleBinding.Subjects :=
       [ {| Subject.Kind := "ServiceAccount";
            Subject.Name := username;
            Subject.Namespace := namespace |} ];
     ClusterRoleBinding.Ref :=
       {| RoleRef.Kind := "ClusterRole";
          RoleRef.Name := "read-namespaces-cr";
          RoleRef.APIGroup := "rbac.authorization.k8s.io" |} |}.

(** The calls for the lab as a whole: listing the namespaces, looking up a
    resource, and in the lab namespace [ns-<labName>] the namespace itself,
    the read-only role [student] and the objects of the manifest. *)
Definition shared_call (labName : string) (c : Call) : Prop :=
  match c with
  | NamespacesList | RESTMapping _ => True
  | NamespacesCreate name => name = "ns-" +:+ labName
  | RolesCreate namespace role =>
      namespace = "ns-" +:+ labName
      ∧ role = student_role namespace ["list"; "get"; "watch"]
  | DynamicCreate _ namespace _ => namespace = "ns-" +:+ labName
  | _ => False
  end.

(** The calls for the tenant of [namespace]: the namespace, the account named
    by the recovered key with its fetches and the fetch of its secret, the
    role [student] with every verb, the binding of that role, the binding of
    the lab namespace's role, the cluster-scoped binding to
    [read-namespaces-cr], and the objects of the manifest. *)
Definition tenant_call (labName namespace : string) (c : Call) : Prop :=
  let username := usernameOf labName namespace in
  match c with
  | NamespacesCreate name => name = namespace
  | ServiceAccountsCreate ns account =>
      ns = namespace ∧ account = new_account username namespace
  | ServiceAccountsGet ns _ | SecretsGet ns _ | DynamicCreate _ ns _ =>
      ns = namespace
  | RolesCreate ns role => ns = namespace ∧ role = student_role namespace ["*"]
  | RoleBindingsCreate ns binding =>
      (ns = namespace
       ∧ binding
         = student_binding "student-binding" namespace username namespace)
      ∨ (ns = "ns-" +:+ labName
         ∧ binding
           = student_binding ("student-binding-" +:+ username)
               ("ns-" +:+ labName) username namespace)
  | ClusterRoleBindingsCreate binding =>
      binding = read_namespaces_crb labName username namespace
  | _ => False
  end.

(** The calls of a lab with the tenant namespaces [namespaces]. *)
Definition lab_call (labName : string) (namespaces : list string) (c : Call)
    : Prop :=
  shared_call labName c
  ∨ ∃ namespace, namespace ∈ namespaces ∧ tenant_call labName namespace c.

(** A call that deleteLab undoes or that changes nothing: it reads, or it
    creates a namespace that deleteLab looks for, an object in such a
    namespace, or a cluster-scoped binding that deleteLab looks for. *)
Definition within_lab (labName : string) (c : Call) : bool :=
  match c with
  | NamespacesList | RESTMapping _ => true
  | NamespacesCreate name => lab_namespace labName name
  | RolesCreate ns _ | RoleBindingsCreate ns _ | ServiceAccountsCreate ns _
  | ServiceAccountsGet ns _ | SecretsGet ns _ | DynamicCreate _ ns _ =>
      lab_namespace labName ns
  | ClusterRoleBindingsCreate binding =>
      lab_binding labName (ClusterRoleBinding.Name binding)
  | NamespacesDelete _ | ClusterRolesGet _ | ClusterRolesCreate _
  | ClusterRoleBindingsList | ClusterRoleBindingsDelete _ => false
  end.

Definition no_error {A : Type} (err : option A) : bool :=
  match err with
  | None => true
  | Some _ => false
  end.

Definition is_right {A B : Type} (r : A + B) : bool :=
  match r with
  | inr _ => true
  | inl _ => false
  end.

(** The last event is a resource lookup that the cluster answered with
    [err], and no event before it failed. *)
Definition lookup_failed (cluster : Cluster) (events : Log) (err : error)
    : Prop :=
  ∃ before gvk log,
    events = before ++ [failed (RESTMapping gvk) err]
    ∧ clean before
    ∧ rest_mapping cluster log gvk = Fail err.

(** The resource lookup of the cluster never fails with [io.EOF]. *)
Definition lookup_never_EOF (cluster : Cluster) : Prop :=
  ∀ log gvk, rest_mapping cluster log gvk ≠ Fail EOF.

(** How a loop of handleManifest leaves the log: a creation that fails ends
    it at once; so does a lookup that fails, with the error of the lookup;
    otherwise every call succeeded. *)
Definition loop_events (cluster : Cluster) (events : Log) (exit : loop_exit)
    : Prop :=
  match exit with
  | Return _ => stopped events
  | Panic => clean events
  | Break err => clean events ∨ lookup_failed cluster events err
  end.

(** How createLabEnvironment leaves the log, by its response: an error
    response follows calls that all succeeded, or a first failed call (the
    last call) with the status 500; the credentials follow calls that all
    succeeded, or a resource lookup that failed as the last call; a panic
    follows calls that all succeeded. *)
Definition lab_ending (cluster : Cluster) (events : Log)
    (response : outcome (HttpError + gmap string string)) : Prop :=
  match response with
  | Returned (inl e) =>
      clean events
      ∨ (stopped events ∧ http_status e = StatusInternalServerError)
  | Returned (inr _) => clean events ∨ ∃ err, lookup_failed cluster events err
  | Panicked => clean events
  end.

(** The calls of handleManifest: a resource lookup, or the creation of an
    object that carries the namespace it is created in, which is the lab
    namespace (for a new lab only) or one of [namespaces]. *)
Definition manifest_call (labName : string) (namespaces : list string)
    (labExists : bool) (c : Call) : Prop :=
  match c with
  | RESTMapping _ => True
  | DynamicCreate _ namespace object =>
      GetNamespace object = namespace
      ∧ ((labExists = false ∧ namespace = "ns-" +:+ labName)
         ∨ namespace ∈ namespaces)
  | _ => False
  end.

(** A cluster that does what it is asked: its listing shows its namespaces,
    it accepts the creation of a missing namespace and of every role, binding,
    account and object, it shows the secret of an account at the first fetch
    and hands out every secret, and it knows the resource of every type. *)
Definition obliging (cluster : Cluster) (init : list string)
    (resource_of : GroupVersionKind → GroupVersionResource) : Prop :=
  lists_namespaces cluster init
  ∧ (∀ log name,
       name ∉ namespaces_after init log →
       namespaces_create cluster log name = None)
  ∧ (∀ log namespace role, roles_create cluster log namespace role = None)
  ∧ (∀ log namespace binding,
       rolebindings_create cluster log namespace binding = None)
  ∧ (∀ log binding, clusterrolebindings_create cluster log binding = None)
  ∧ (∀ log namespace account,
       ∃ created,
         serviceaccounts_create cluster log namespace account = Ok created)
  ∧ (∀ log namespace name,
       ∃ fetched,
         serviceaccounts_get cluster log namespace name = Ok fetched
         ∧ ServiceAccount.Secrets fetched ≠ [])
  ∧ (∀ log namespace name,
       ∃ secret, secrets_get cluster log namespace name = Ok secret)
  ∧ (∀ log gvk, rest_mapping cluster log gvk = Ok (resource_of gvk))
  ∧ (∀ log resource namespace object,
       dynamic_create cluster log resource namespace object = None).

(** ** Byte strings: append, prefix and containment *)

Section StringFacts.

Lemma sapp_nil_l (s : string) : "" +:+ s = s.
Proof. reflexivity. Qed.

Lemma sapp_cons (a : ascii) (s t : string) :
  String a s +:+ t = String a (s +:+ t).
Proof. reflexivity. Qed.

Lemma sapp_nil_r (s : string) : s +:+ "" = s.
Proof. induction s as [|a s IH]; [done|]. by rewrite sapp_cons, IH. Qed.

Lemma sapp_assoc (s t u : string) : (s +:+ t) +:+ u = s +:+ t +:+ u.
Proof. induction s as [|a s IH]; [done|]. by rewrite !sapp_cons, IH. Qed.

Lemma slength_app (s t : string) :
  String.length (s +:+ t) = String.length s + String.length t.
Proof. induction s as [|a s IH]; [done|]. rewrite sapp_cons. simpl. lia. Qed.

Lemma prefix_nil (s : string) : String.prefix "" s = true.
Proof. by destruct s. Qed.

Lemma prefix_cons (a b : ascii) (p s : string) :
  String.prefix (String a p) (String b s)
  = if decide (a = b) then String.prefix p s else false.
Proof. simpl. destruct (ascii_dec a b); by case_decide. Qed.

Lemma prefix_app (p r : string) : String.prefix p (p +:+ r) = true.
Proof.
  induction p as [|a p IH]; [apply prefix_nil|].
  rewrite sapp_cons, prefix_cons. by case_decide.
Qed.

Lemma prefix_true (p s : string) :
  String.prefix p s = true ↔ ∃ r, s = p +:+ r.
Proof.
  split.
  - revert s. induction p as [|a p IH]; intros s H.
    + by exists s.
    + destruct s as [|b s]; [done|].
      rewrite prefix_cons in H. case_decide as E; [|done]. subst b.
      destruct (IH _ H) as [r ->]. by exists r.
  - intros [r ->]. apply prefix_app.
Qed.

Lemma Contains_nil (sub : string) : Contains "" sub = String.prefix sub "".
Proof. simpl. apply orb_false_r. Qed.

Lemma Contains_cons (c : ascii) (s sub : string) :
  Contains (String c s) sub
  = String.prefix sub (String c s) || Contains s sub.
Proof. reflexivity. Qed.

Lemma Contains_true (s sub : string) :
  Contains s sub = true ↔ ∃ a b, s = a +:+ sub +:+ b.
Proof.
  split.
  - induction s as [|c s IH].
    + rewrite Contains_nil. intros H.
      apply prefix_true in H as [r E]. by exists "", r.
    + rewrite Contains_cons. intros H.
      apply orb_true_iff in H as [H|H].
      * apply prefix_true in H as [r ->]. by exists "", r.
      * destruct (IH H) as (a & b & ->). by exists (String c a), b.
  - intros (a & b & ->). induction a as [|c a IH].
    + rewrite sapp_nil_l. destruct (sub +:+ b) as [|c r] eqn:E.
      * rewrite Contains_nil, <- E. apply prefix_app.
      * rewrite Contains_cons, <- E, prefix_app. done.
    + rewrite sapp_cons, Contains_cons, IH. apply orb_true_r.
Qed.

(** *** Split and Join *)

Lemma split_from_cons (sep : string) (k : nat) (s : string) :
  ∃ piece rest, split_from sep k s = piece :: rest.
Proof.
  revert k. induction s as [|c s IH]; intros k; cbn [split_from]; [by eauto|].
  destruct k as [|k]; [|apply IH].
  destruct (String.prefix sep (String c s)); [by eauto|].
  destruct (split_from sep 0 s); by eauto.
Qed.

Lemma Join_cons_cons (e e' : string) (rest : list string) (sep : string) :
  Join (e :: e' :: rest) sep = e +:+ sep +:+ Join (e' :: rest) sep.
Proof. reflexivity. Qed.

Lemma Join_String (c : ascii) (piece : string) (rest : list string)
    (sep : string) :
  Join (String c piece :: rest) sep = String c (Join (piece :: rest) sep).
Proof. destruct rest; [done|]. by rewrite !Join_cons_cons, sapp_cons. Qed.

(** Splitting on a one-byte separator and joining with a one-byte
    separator changes each separator byte and nothing else. *)
Lemma Join_Split_byte (from to : ascii) (s : string) :
  Join (Split s (String from "")) (String to "") = replace_byte from to s.
Proof.
  unfold Split. induction s as [|c s IH]; [done|].
  cbn [split_from replace_byte]. rewrite prefix_cons, prefix_nil.
  destruct (split_from_cons (String from "") 0 s) as (piece & rest & E).
  rewrite E in IH. case_decide as Hc.
  - subst c. rewrite decide_True by done. cbn [String.length Nat.sub].
    rewrite E, Join_cons_cons, sapp_nil_l, sapp_cons, sapp_nil_l. by rewrite IH.
  - rewrite decide_False by congruence. rewrite E, Join_String. by rewrite IH.
Qed.

(** *** Replace *)

Section ReplaceAll.
Variables old new : string.

Lemma replace_from_skip (n : Z) (p s : string) :
  replace_from old new n (String.length p) (p +:+ s)
  = replace_from old new n 0 s.
Proof.
  induction p as [|a p IH]; [done|].
  rewrite sapp_cons. cbn [String.length replace_from]. apply IH.
Qed.

Lemma replace_from_absent (n : Z) (s : string) :
  Contains s old = false → replace_from old new n 0 s = s.
Proof.
  induction s as [|c s IH]; [done|].
  rewrite Contains_cons. intros [Hp Hs]%orb_false_iff.
  cbn [replace_from]. rewrite Hp, (IH Hs). by destruct (n =? 0)%Z.
Qed.

(** Without a bound on the count, the count plays no role. *)
Lemma replace_from_neg (n m : Z) (k : nat) (s : string) :
  (n < 0)%Z → (m < 0)%Z →
  replace_from old new n k s = replace_from old new m k s.
Proof.
  revert n m k. induction s as [|c s IH]; intros n m k Hn Hm; [done|].
  cbn [replace_from]. destruct k as [|k]; [|by apply IH].
  destruct (Z.eqb_spec n 0) as [|_]; [lia|].
  destruct (Z.eqb_spec m 0) as [|_]; [lia|].
  destruct (String.prefix old (String c s)).
  - f_equal. apply IH; lia.
  - f_equal. by apply IH.
Qed.

End ReplaceAll.

Section Erase.
(** Replacing by the empty string, without a bound on the count. *)
Variable old : string.
Hypothesis old_nonempty : old ≠ "".

Lemma erase_length_le (n : Z) (k : nat) (s : string) :
  String.length (replace_from old "" n k s) ≤ String.length s.
Proof.
  revert n k. induction s as [|c s IH]; intros n k; [done|].
  cbn [replace_from]. destruct k as [|k].
  - destruct (n =? 0)%Z; [done|].
    destruct (String.prefix old (String c s)).
    + rewrite sapp_nil_l. specialize (IH (n - 1)%Z (String.length old - 1)).
      simpl. lia.
    + specialize (IH n 0). simpl. lia.
  - specialize (IH n k). simpl. lia.
Qed.

Lemma erase_length_lt (n : Z) (s : string) :
  (n < 0)%Z → Contains s old = true →
  String.length (replace_from old "" n 0 s) < String.length s.
Proof.
  intros Hn. induction s as [|c s IH].
  - rewrite Contains_nil. intros [r E]%prefix_true.
    destruct old; [done|discriminate].
  - rewrite Contains_cons. cbn [replace_from].
    destruct (Z.eqb_spec n 0) as [|_]; [lia|].
    destruct (String.prefix old (String c s)) eqn:Hp; cbn [orb]; intros H.
    + rewrite sapp_nil_l.
      pose proof (erase_length_le (n - 1) (String.length old - 1) s).
      simpl. lia.
    + specialize (IH H). simpl. lia.
Qed.

Lemma erase_fixed (n : Z) (s : string) :
  (n < 0)%Z →
  replace_from old "" n 0 s = s ↔ Contains s old = false.
Proof.
  intros Hn. split.
  - intros E. destruct (Contains s old) eqn:Hc; [|done].
    pose proof (erase_length_lt n s Hn Hc) as Hlt. rewrite E in Hlt. lia.
  - apply replace_from_absent.
Qed.

Lemma erase_prefixed (n : Z) (s : string) :
  (n < 0)%Z →
  replace_from old "" n 0 (old +:+ s) = replace_from old "" (n - 1) 0 s.
Proof.
  intros Hn. destruct old as [|a o] eqn:Eo; [done|].
  rewrite sapp_cons. cbn [replace_from].
  destruct (Z.eqb_spec n 0) as [|_]; [lia|].
  rewrite <- sapp_cons, prefix_app, sapp_nil_l.
  replace (String.length (String a o) - 1) with (String.length o)
    by (simpl; lia).
  apply replace_from_skip.
Qed.

End Erase.

End StringFacts.

(** ** UTF-8: a rune that is written is the rune that is read *)

Section Utf8.

Lemma nat_of_byte (n : Z) :
  (0 <= n < 256)%Z → nat_of_ascii (of_byte n) = Z.to_nat n.
Proof. intros Hn. unfold of_byte. apply nat_ascii_embedding. lia. Qed.

Lemma byte_of_byte (n : Z) : (0 <= n < 256)%Z → byte (of_byte n) = n.
Proof. intros Hn. unfold byte. rewrite nat_of_byte by done. lia. Qed.

Lemma encode_rune_length (r : Z) :
  1 ≤ String.length (encode_rune r) ≤ 4.
Proof. unfold encode_rune. repeat case_match; cbn; lia. Qed.

#[local] Ltac decide_bytes :=
  repeat match goal with
    | |- context [(?a =? ?b)%nat] =>
        destruct (Nat.eqb_spec a b);
        try (exfalso; Z.div_mod_to_equations; lia)
    | |- context [(?a <? ?b)%nat] =>
        destruct (Nat.ltb_spec a b);
        try (exfalso; Z.div_mod_to_equations; lia)
    | |- context [(?a <=? ?b)%nat] =>
        destruct (Nat.leb_spec a b);
        try (exfalso; Z.div_mod_to_equations; lia)
    end.

(** The width that the decoder reads is the number of bytes written. *)
Lemma rune_width_encode (r : Z) (rest : string) :
  scalar r →
  rune_width (encode_rune r +:+ rest) = String.length (encode_rune r).
Proof.
  intros [Hr Hs]. unfold encode_rune.
  destruct (Z.ltb_spec r 128).
  { rewrite sapp_cons. unfold rune_width. rewrite nat_of_byte by lia.
    by decide_bytes. }
  destruct (Z.leb_spec r 2047).
  { rewrite !sapp_cons, sapp_nil_l. unfold rune_width, between.
    rewrite !nat_of_byte by (Z.div_mod_to_equations; lia).
    by decide_bytes. }
  destruct (Z.ltb_spec 1114111 r); [lia|].
  destruct (Z.leb_spec 55296 r), (Z.leb_spec r 57343); cbn [orb andb];
    try lia.
  all: destruct (Z.leb_spec r 65535).
  all: rewrite !sapp_cons, sapp_nil_l; unfold rune_width, between;
    rewrite !nat_of_byte by (Z.div_mod_to_equations; lia);
    by decide_bytes.
Qed.

(** The rune that the decoder reads is the rune written. *)
Lemma rune_value_encode (r : Z) (rest : string) :
  scalar r → rune_value (encode_rune r +:+ rest) = r.
Proof.
  intros Hscalar. pose proof (rune_width_encode r rest Hscalar) as Hw.
  destruct Hscalar as [Hr Hs]. unfold encode_rune in *.
  destruct (Z.ltb_spec r 128).
  { rewrite sapp_cons in *. unfold rune_value. rewrite Hw. cbn [String.length].
    rewrite byte_of_byte by lia. by destruct (Z.ltb_spec r 128); [|lia]. }
  destruct (Z.leb_spec r 2047).
  { rewrite !sapp_cons, sapp_nil_l in *. unfold rune_value. rewrite Hw.
    cbn [String.length].
    rewrite !byte_of_byte by (Z.div_mod_to_equations; lia).
    Z.div_mod_to_equations. lia. }
  destruct (Z.ltb_spec 1114111 r); [lia|].
  destruct (Z.leb_spec 55296 r), (Z.leb_spec r 57343); cbn [orb andb] in *;
    try lia.
  all: destruct (Z.leb_spec r 65535).
  all: rewrite !sapp_cons, sapp_nil_l in *; unfold rune_value; rewrite Hw;
    cbn [String.length];
    rewrite !byte_of_byte by (Z.div_mod_to_equations; lia);
    Z.div_mod_to_equations; lia.
Qed.

Lemma encode_rune_cons (r : Z) :
  ∃ b p, encode_rune r = String b p.
Proof. unfold encode_rune. repeat case_match; by eexists _, _. Qed.

(** The loops of [strings.Map] pass the bytes of the current rune. *)
Lemma map_rest_skip (f : Z → Z) (p rest : string) :
  map_rest f (String.length p) (p +:+ rest) = map_rest f 0 rest.
Proof. induction p as [|b p IH]; [done|]. by rewrite sapp_cons. Qed.

Lemma map_from_skip (f : Z → Z) (p rest : string) :
  map_from f (String.length p) (p +:+ rest) = p +:+ map_from f 0 rest.
Proof.
  induction p as [|b p IH]; [done|].
  rewrite !sapp_cons. cbn [String.length map_from]. by rewrite IH.
Qed.

Section MapText.
Variable f : Z → Z.

(** On UTF-8 text [strings.Map] writes the image of every rune. *)
Lemma map_rest_text (runes : list Z) :
  Forall scalar runes →
  Forall (λ r, (0 <= f r)%Z) runes →
  map_rest f 0 (utf8_text runes) = utf8_text (f <$> runes).
Proof.
  induction 1 as [|r runes Hr _ IH]; intros Hf; [done|].
  apply Forall_cons in Hf as [Hfr Hf].
  cbn [utf8_text fmap list_fmap].
  destruct (encode_rune_cons r) as (b & p & E).
  pose proof (rune_width_encode r (utf8_text runes) Hr) as Hw.
  pose proof (rune_value_encode r (utf8_text runes) Hr) as Hv.
  rewrite E in Hw, Hv |- *. rewrite sapp_cons in Hw, Hv |- *.
  cbn [map_rest]. cbn zeta. rewrite Hv, Hw.
  replace (String.length (String b p) - 1) with (String.length p)
    by (cbn; lia).
  rewrite map_rest_skip, (IH Hf).
  by destruct (Z.leb_spec 0 (f r)); [|lia].
Qed.

Lemma map_from_text (runes : list Z) :
  Forall scalar runes →
  Forall (λ r, (0 <= f r)%Z) runes →
  map_from f 0 (utf8_text runes) = utf8_text (f <$> runes).
Proof.
  induction 1 as [|r runes Hr Hrunes IH]; intros Hf; [done|].
  pose proof Hf as [Hfr Hf']%Forall_cons.
  cbn [utf8_text fmap list_fmap].
  destruct (encode_rune_cons r) as (b & p & E).
  pose proof (rune_width_encode r (utf8_text runes) Hr) as Hw.
  pose proof (rune_value_encode r (utf8_text runes) Hr) as Hv.
  rewrite E in Hw, Hv |- *. rewrite sapp_cons in Hw, Hv |- *.
  cbn [map_from]. cbn zeta. rewrite Hv, Hw.
  replace (String.length (String b p) - 1) with (String.length p)
    by (cbn; lia).
  destruct ((f r =? r)%Z && _) eqn:Hkeep.
  - apply andb_true_iff in Hkeep as [Hsame%Z.eqb_eq _].
    rewrite map_from_skip, (IH Hf'), Hsame, E. by rewrite sapp_cons.
  - rewrite map_rest_skip, (map_rest_text runes Hrunes Hf').
    by destruct (Z.leb_spec 0 (f r)); [|lia].
Qed.

End MapText.

End Utf8.

(** ** getNamespaceNames *)

Section NamespaceNames.

Lemma individual_step_slug (lowerCase : Z → Z)
    (labName : string) (namespaces : list string)
    (st : Student) :
  individual_step lowerCase labName namespaces st
  = namespaces ++ ["ns-" +:+ labName +:+ "-" +:+ slug lowerCase (student_name st)].
Proof.
  unfold individual_step, slug.
  by rewrite (Join_Split_byte " " "-" (student_name st)).
Qed.

Lemma individual_loop (lowerCase : Z → Z)
    (labName : string) (students : list Student)
    (namespaces : list string) :
  foldl (individual_step lowerCase labName) namespaces students
  = namespaces
      ++ ((λ st, "ns-" +:+ labName +:+ "-" +:+ slug lowerCase (student_name st))
            <$> students).
Proof.
  revert namespaces.
  induction students as [|st students IH]; intros namespaces.
  - by rewrite app_nil_r.
  - cbn [foldl]. rewrite IH, individual_step_slug, fmap_cons.
    by rewrite <- app_assoc.
Qed.

Lemma elem_of_first_seen (x : Z) (l : list Z) : x ∈ first_seen l ↔ x ∈ l.
Proof.
  induction l as [|y l IH]; [done|].
  cbn [first_seen]. rewrite !elem_of_cons, list_elem_of_filter, IH.
  destruct (decide (x = y)); tauto.
Qed.

Lemma NoDup_first_seen (l : list Z) : NoDup (first_seen l).
Proof.
  induction l as [|y l IH]; [constructor|].
  cbn [first_seen]. constructor.
  - rewrite list_elem_of_filter. tauto.
  - by apply NoDup_filter.
Qed.

(** A filter keeps the order of the elements it keeps. *)
Lemma filter_lookup_lt (P : Z → Prop) `{!∀ x, Decision (P x)}
    (l : list Z) (i j : nat) (a b : Z) :
  filter P l !! i = Some a → filter P l !! j = Some b → i < j →
  ∃ i' j', l !! i' = Some a ∧ l !! j' = Some b ∧ i' < j'.
Proof.
  revert i j. induction l as [|x l IH]; intros i j Hi Hj Hlt; [done|].
  rewrite filter_cons in Hi, Hj. destruct (decide (P x)).
  - destruct j as [|j]; [lia|]. destruct i as [|i].
    + simpl in Hi, Hj. simplify_eq.
      apply list_elem_of_lookup_2 in Hj.
      apply list_elem_of_filter in Hj as [_ Hb].
      apply list_elem_of_lookup_1 in Hb as [j' Hj'].
      exists 0, (S j'). split_and!; [done|done|lia].
    + simpl in Hi, Hj.
      destruct (IH i j Hi Hj ltac:(lia)) as (i' & j' & ? & ? & ?).
      exists (S i'), (S j'). split_and!; [done|done|lia].
  - destruct (IH i j Hi Hj Hlt) as (i' & j' & ? & ? & ?).
    exists (S i'), (S j'). split_and!; [done|done|lia].
Qed.

(** [first_seen] lists the values by the place of their first occurrence. *)
Lemma first_seen_order (l : list Z) (i j : nat) (a b : Z) :
  first_seen l !! i = Some a → first_seen l !! j = Some b → i < j →
  index_of a l < index_of b l.
Proof.
  revert i j. induction l as [|x l IH]; intros i j Hi Hj Hlt; [done|].
  cbn [first_seen] in Hi, Hj. destruct j as [|j]; [lia|]. simpl in Hj.
  assert (b ≠ x) as Hb.
  { apply list_elem_of_lookup_2, list_elem_of_filter in Hj. tauto. }
  cbn [index_of]. rewrite (decide_False (P := b = x)) by done.
  destruct i as [|i].
  - simpl in Hi. simplify_eq. rewrite decide_True by done. lia.
  - simpl in Hi.
    assert (a ≠ x) as Ha.
    { apply list_elem_of_lookup_2, list_elem_of_filter in Hi. tauto. }
    rewrite decide_False by done.
    destruct (filter_lookup_lt _ _ _ _ _ _ Hi Hj ltac:(lia))
      as (i' & j' & Hi' & Hj' & Hlt').
    specialize (IH _ _ Hi' Hj' Hlt'). lia.
Qed.

Lemma seen_insert (visited : gmap Z bool) (g y : Z) :
  seen (<[g:=true]> visited) y ↔ y = g ∨ seen visited y.
Proof.
  unfold seen. destruct (decide (g = y)) as [->|Hne].
  - rewrite lookup_insert_eq. cbn. tauto.
  - rewrite lookup_insert_ne by done. intuition congruence.
Qed.

Lemma group_loop (labName : string) (students : list Student)
    (namespaces : list string) (visited : gmap Z bool) :
  fst (foldl (group_step labName) (namespaces, visited) students)
  = namespaces
      ++ (group_namespace labName
            <$> filter (λ g, ¬ seen visited g) (distinct_groups students)).
Proof.
  unfold distinct_groups. revert namespaces visited.
  induction students as [|st students IH]; intros namespaces visited.
  - simpl. by rewrite app_nil_r.
  - cbn [foldl fmap list_fmap first_seen]. unfold group_step at 2.
    set (g := student_group st). set (G := first_seen _).
    destruct (Z.eqb_spec g (-1)) as [Hg|Hg]; cbn [negb andb].
    + rewrite IH. fold G. do 2 f_equal.
      rewrite filter_cons_False by (intros ?; done).
      rewrite !list_filter_filter. apply list_filter_iff.
      intros y. rewrite Hg. tauto.
    + rewrite (filter_cons_True (λ y, y ≠ (-1)%Z)) by done.
      destruct (default false (visited !! g)) eqn:Hv; cbn [negb].
      * rewrite IH. fold G. do 2 f_equal.
        rewrite filter_cons_False by (intros Hn; by apply Hn).
        rewrite !list_filter_filter. apply list_filter_iff.
        intros y. unfold seen. split; [|tauto].
        intros [? ?]. split_and!; [done|done|]. intros ->. congruence.
      * rewrite IH. fold G.
        rewrite filter_cons_True by (unfold seen; congruence).
        rewrite fmap_cons, <- app_assoc. cbn [app]. do 3 f_equal.
        rewrite !list_filter_filter. apply list_filter_iff.
        intros y. rewrite seen_insert. unfold seen. tauto.
Qed.

Lemma seen_empty (g : Z) : ¬ seen ∅ g.
Proof. unfold seen. by rewrite lookup_empty. Qed.

Lemma filter_all {A : Type} (P : A → Prop) `{!∀ x, Decision (P x)}
    (l : list A) :
  (∀ x, P x) → filter P l = l.
Proof.
  intros HP. induction l as [|x l IHl]; [done|].
  rewrite filter_cons_True by done. by rewrite IHl.
Qed.

Lemma group_mode_names (lowerCase : Z → Z)
    (students : list Student) (labName : string) :
  getNamespaceNames lowerCase students labName false
  = group_namespace labName <$> distinct_groups students.
Proof.
  unfold getNamespaceNames. rewrite group_loop, app_nil_l.
  by rewrite (filter_all _ _ seen_empty).
Qed.

End NamespaceNames.

(** ** Properties of the namespace names *)

Lemma itoa_inj (a b : Z) : itoa a = itoa b → a = b.
Proof.
  unfold itoa. intros E. apply DecimalZ.to_int_inj.
  assert (∀ z, NilZero.int_of_string (NilZero.string_of_int (Z.to_int z))
               = Some (Z.to_int z)) as Hisi.
  { intros z. apply NilZero.isi; destruct z; simpl; try discriminate;
      intros [= H]; by apply DecimalPos.Unsigned.to_uint_nonnil in H. }
  apply (f_equal NilZero.int_of_string) in E.
  rewrite !Hisi in E. by simplify_eq.
Qed.

#[local] Instance sapp_inj (p : string) : Inj (=) (=) (String.append p).
Proof.
  intros s t. induction p as [|a p IH]; [done|].
  rewrite !sapp_cons. intros [= E]. by apply IH.
Qed.

#[local] Instance group_namespace_inj (labName : string) :
  Inj (=) (=) (group_namespace labName).
Proof.
  intros a b. unfold group_namespace. intros E.
  apply itoa_inj. by repeat apply (inj (String.append _)) in E.
Qed.

Lemma group_namespace_key (labName : string) (g : Z) :
  group_namespace labName g = tenant_namespace labName (group_key g).
Proof. reflexivity. Qed.

(** *** Lower case on ASCII text *)

Lemma lower_byte_small_letter (c : ascii) : lower_byte c = small_letter c.
Proof. by destruct c as [[] [] [] [] [] [] [] []]. Qed.

Lemma lower_bytes_no_upper (s : string) :
  hasUpper s = false → lower_bytes s = s.
Proof.
  induction s as [|c s IH]; [done|]. cbn [hasUpper lower_bytes].
  intros [Hc Hs]%orb_false_iff. rewrite (IH Hs). f_equal.
  unfold lower_byte. cbn zeta. by rewrite Hc.
Qed.

(** On ASCII text [strings.ToLower] lowers byte by byte, whatever the case
    tables. *)
Lemma ToLower_ascii (lowerCase : Z → Z) (s : string) :
  isASCII s = true → ToLower lowerCase s = lower_bytes s.
Proof.
  intros Hs. unfold ToLower. rewrite Hs.
  destruct (hasUpper s) eqn:Hu; [done|]. by rewrite lower_bytes_no_upper.
Qed.

Lemma isASCII_replace_space (s : string) :
  isASCII (replace_byte " " "-" s) = isASCII s.
Proof.
  induction s as [|c s IH]; [done|]. cbn [replace_byte isASCII]. rewrite IH.
  by case_decide as Hc; [subst c|].
Qed.

Lemma lower_bytes_ascii_slug (s : string) :
  lower_bytes (replace_byte " " "-" s) = ascii_slug s.
Proof.
  induction s as [|c s IH]; [done|].
  cbn [replace_byte lower_bytes ascii_slug]. rewrite IH. f_equal.
  case_decide; [done|apply lower_byte_small_letter].
Qed.

Lemma ascii_slug_length (s : string) :
  String.length (ascii_slug s) = String.length s.
Proof. induction s as [|c s IH]; [done|]. cbn. by rewrite IH. Qed.

(** *** Lower case on UTF-8 text *)

Lemma replace_byte_app (from to : ascii) (s t : string) :
  replace_byte from to (s +:+ t)
  = replace_byte from to s +:+ replace_byte from to t.
Proof.
  induction s as [|c s IH]; [done|].
  rewrite sapp_cons. cbn [replace_byte]. by rewrite IH, sapp_cons.
Qed.

Lemma of_byte_inj (n m : Z) :
  (0 <= n < 256)%Z → (0 <= m < 256)%Z → of_byte n = of_byte m → n = m.
Proof.
  intros Hn Hm E. apply (f_equal byte) in E.
  by rewrite !byte_of_byte in E.
Qed.

Lemma keep_byte (n : Z) :
  (0 <= n < 256)%Z → n ≠ 32%Z →
  (if decide (of_byte n = " "%char) then "-"%char else of_byte n) = of_byte n.
Proof.
  intros Hn Hne. case_decide as E; [|done]. exfalso. apply Hne.
  by apply (of_byte_inj n 32).
Qed.

(** Replacing the spaces of an encoded rune: only the rune U+0020 has the
    byte 32. *)
Lemma replace_space_encode (r : Z) :
  scalar r →
  replace_byte " " "-" (encode_rune r)
  = encode_rune (if (r =? 32)%Z then 45%Z else r).
Proof.
  intros [Hr Hs]. destruct (Z.eqb_spec r 32) as [->|Hne]; [done|].
  unfold encode_rune. repeat case_match; cbn [replace_byte];
    rewrite ?keep_byte; try done; Z.div_mod_to_equations; lia.
Qed.

Lemma replace_space_text (runes : list Z) :
  Forall scalar runes →
  replace_byte " " "-" (utf8_text runes)
  = utf8_text ((λ r, if (r =? 32)%Z then 45%Z else r) <$> runes).
Proof.
  induction 1 as [|r runes Hr _ IH]; [done|].
  cbn [utf8_text fmap list_fmap].
  by rewrite replace_byte_app, replace_space_encode, IH.
Qed.

Lemma isASCII_text (runes : list Z) :
  Forall scalar runes →
  isASCII (utf8_text runes) = true → Forall (λ r, (r < 128)%Z) runes.
Proof.
  induction 1 as [|r runes [Hr Hs] _ IH]; [done|].
  cbn [utf8_text]. unfold encode_rune.
  destruct (Z.ltb_spec r 128).
  { rewrite sapp_cons, sapp_nil_l. cbn [isASCII].
    intros [_ Hrest]%andb_true_iff. constructor; [done|by apply IH]. }
  repeat case_match; rewrite sapp_cons; cbn [isASCII];
    rewrite nat_of_byte by (Z.div_mod_to_equations; lia);
    intros [Hlow%Nat.ltb_lt _]%andb_true_iff; exfalso;
    Z.div_mod_to_equations; lia.
Qed.

Lemma lower_bytes_text (lowerCase : Z → Z) (runes : list Z) :
  Forall (λ r, (0 <= r < 128)%Z) runes →
  lower_bytes (utf8_text runes)
  = utf8_text (unicode_ToLower lowerCase <$> runes).
Proof.
  induction 1 as [|r runes Hr _ IH]; [done|].
  cbn [utf8_text fmap list_fmap]. rewrite <- IH.
  unfold encode_rune, unicode_ToLower.
  destruct (Z.ltb_spec r 128); [|lia].
  destruct (Z.leb_spec r 127); [|lia].
  rewrite !sapp_cons, !sapp_nil_l. cbn [lower_bytes].
  unfold lower_byte. cbn zeta. rewrite nat_of_byte by lia.
  destruct (Z.leb_spec 65 r), (Z.leb_spec r 90); cbn [andb].
  - destruct (Nat.leb_spec 65 (Z.to_nat r)); [|lia].
    destruct (Nat.leb_spec (Z.to_nat r) 90); [|lia]. cbn [andb].
    destruct (Z.ltb_spec (r + 32) 128); [|lia].
    rewrite sapp_cons, sapp_nil_l. do 2 f_equal. unfold of_byte. f_equal. lia.
  - destruct (Nat.leb_spec (Z.to_nat r) 90); [lia|]. rewrite andb_false_r.
    destruct (Z.ltb_spec r 128); [|lia]. by rewrite sapp_cons, sapp_nil_l.
  - destruct (Nat.leb_spec 65 (Z.to_nat r)); [lia|]. cbn [andb].
    destruct (Z.ltb_spec r 128); [|lia]. by rewrite sapp_cons, sapp_nil_l.
  - lia.
Qed.

(** On UTF-8 text [strings.ToLower] writes the lower case of every rune. *)
Lemma ToLower_text (lowerCase : Z → Z) (runes : list Z) :
  Forall scalar runes →
  Forall (λ r, (127 < r)%Z → (0 <= lowerCase r)%Z) runes →
  ToLower lowerCase (utf8_text runes)
  = utf8_text (unicode_ToLower lowerCase <$> runes).
Proof.
  intros Hrunes Hcase.
  destruct (isASCII (utf8_text runes)) eqn:Hascii.
  - rewrite ToLower_ascii by done. apply lower_bytes_text.
    pose proof (isASCII_text runes Hrunes Hascii) as Hlow.
    rewrite Forall_forall in Hrunes, Hlow |- *. intros r Hr.
    destruct (Hrunes r Hr) as [? _]. specialize (Hlow r Hr). cbn in Hlow. lia.
  - unfold ToLower, Map. rewrite Hascii. apply map_from_text; [done|].
    rewrite Forall_forall in Hrunes, Hcase |- *. intros r Hr.
    destruct (Hrunes r Hr) as [? _]. specialize (Hcase r Hr). cbn in Hcase.
    unfold unicode_ToLower. repeat case_match; lia.
Qed.

(** *** Lower case and the case tables *)

Section MapExt.
Variables f g : Z → Z.

Lemma map_rest_ext (s : string) (skip : nat) :
  (∀ r, r ∈ runes_from skip s → f r = g r) →
  map_rest f skip s = map_rest g skip s.
Proof.
  revert skip. induction s as [|b s IH]; intros skip Hfg; [done|].
  cbn [map_rest]. destruct skip as [|k].
  - cbn zeta. cbn [runes_from] in Hfg.
    rewrite (Hfg (rune_value (String b s))) by (by left).
    f_equal. apply IH. intros r Hr. apply Hfg. by right.
  - apply IH. intros r Hr. by apply Hfg.
Qed.

Lemma map_from_ext (s : string) (skip : nat) :
  (∀ r, r ∈ runes_from skip s → f r = g r) →
  map_from f skip s = map_from g skip s.
Proof.
  revert skip. induction s as [|b s IH]; intros skip Hfg; [done|].
  cbn [map_from]. destruct skip as [|k].
  - cbn zeta. cbn [runes_from] in Hfg.
    rewrite (Hfg (rune_value (String b s))) by (by left).
    rewrite (IH (rune_width (String b s) - 1)),
      (map_rest_ext s (rune_width (String b s) - 1)); [done|..];
      intros r Hr; apply Hfg; by right.
  - f_equal. apply IH. intros r Hr. by apply Hfg.
Qed.

End MapExt.

(** [strings.ToLower] reads the case tables only at the runes of the string
    that lie above ASCII. *)
Lemma ToLower_ext (lowerCase lowerCase' : Z → Z) (s : string) :
  (∀ r, r ∈ runes_from 0 s → (127 < r)%Z → lowerCase r = lowerCase' r) →
  ToLower lowerCase s = ToLower lowerCase' s.
Proof.
  intros Hr. unfold ToLower, Map. destruct (isASCII s); [done|].
  apply map_from_ext. intros r Hin. unfold unicode_ToLower.
  destruct (Z.leb_spec r 127); [done|]. by apply Hr.
Qed.

(** C8. getNamespaceNames computes its list from the roster, the lab name and
    the mode alone: the embedding reads no cluster state, no clock and no
    counter, and the case tables [lowerCase] belong to the toolchain.  Of the
    roster it reads, in individual mode, only the display names in their order
    (two rosters with the same names give the same list, whatever the ids and
    group numbers) and, in group mode, only the group numbers in their order.
    In individual mode the list holds, for each roster entry in order,
    [ns-<labName>-<slug>], the slug being what [strings.ToLower] makes of the
    display name with each space replaced by a hyphen.  For a display name
    written in ASCII the slug is the name, byte by byte, with a hyphen for each
    space and the small letter for each capital letter of the alphabet,
    whatever the case tables; it has the length of the name.  For a display
    name that is the UTF-8 text of a list of runes the slug is the UTF-8 text
    of these runes with U+0020 changed to U+002D and every rune lowered by
    [unicode.ToLower] (the case tables never give a negative rune for a rune
    of the name).  For any name the slug depends on the case tables only
    through the runes of the name above ASCII.  The roster with the single
    entry Jane Doe and the lab demo gives [ns-demo-jane-doe]; the entry
    ÉMILE Zola gives [ns-demo-émile-zola] with case tables that move É
    (U+00C9) to é (U+00E9). *)
Theorem getNamespaceNames_individual_deterministic (lowerCase : Z → Z) :
  (∀ students students' labName,
      student_name <$> students = student_name <$> students' →
      getNamespaceNames lowerCase students labName true
      = getNamespaceNames lowerCase students' labName true)
  ∧ (∀ students students' labName,
        student_group <$> students = student_group <$> students' →
        getNamespaceNames lowerCase students labName false
        = getNamespaceNames lowerCase students' labName false)
  ∧ (∀ students labName,
        getNamespaceNames lowerCase students labName true
        = (λ st, "ns-" +:+ labName +:+ "-"
                 +:+ slug lowerCase (student_name st))
            <$> students)
  ∧ (∀ students labName i,
        getNamespaceNames lowerCase students labName true !! i
        = (λ st, "ns-" +:+ labName +:+ "-"
                 +:+ ToLower lowerCase
                       (replace_byte " " "-" (student_name st)))
            <$> students !! i)
  ∧ (∀ name,
        isASCII name = true →
        slug lowerCase name = ascii_slug name
        ∧ String.length (slug lowerCase name) = String.length name)
  ∧ (∀ students labName,
        Forall (λ st, isASCII (student_name st) = true) students →
        getNamespaceNames lowerCase students labName true
        = (λ st, "ns-" +:+ labName +:+ "-"
                 +:+ ascii_slug (student_name st))
            <$> students)
  ∧ (∀ runes,
        Forall scalar runes →
        Forall (λ r, (127 < r)%Z → (0 <= lowerCase r)%Z) runes →
        slug lowerCase (utf8_text runes)
        = utf8_text
            ((λ r, unicode_ToLower lowerCase (if (r =? 32)%Z then 45%Z else r))
               <$> runes))
  ∧ (∀ lowerCase' name,
        (∀ r,
            r ∈ runes_from 0 (replace_byte " " "-" name) →
            (127 < r)%Z →
            lowerCase r = lowerCase' r) →
        slug lowerCase name = slug lowerCase' name)
  ∧ getNamespaceNames lowerCase [mkStudent "1" "Jane Doe" (-1)] "demo" true
    = ["ns-demo-jane-doe"]
  ∧ (lowerCase 201%Z = 233%Z →
     getNamespaceNames lowerCase [mkStudent "1" "ÉMILE Zola" (-1)] "demo" true
     = ["ns-demo-émile-zola"]).
Proof.
  assert (∀ students labName,
        getNamespaceNames lowerCase students labName true
        = (λ st, "ns-" +:+ labName +:+ "-"
                 +:+ slug lowerCase (student_name st))
            <$> students) as Hmap.
  { intros students labName. unfold getNamespaceNames.
    by rewrite individual_loop, app_nil_l. }
  assert (∀ name, isASCII name = true → slug lowerCase name = ascii_slug name)
    as Hascii.
  { intros name Hname. unfold slug.
    rewrite ToLower_ascii by (by rewrite isASCII_replace_space).
    apply lower_bytes_ascii_slug. }
  split_and!.
  - intros students students' labName Hnames. rewrite !Hmap.
    rewrite !(list_fmap_compose student_name
                (λ name, "ns-" +:+ labName +:+ "-" +:+ slug lowerCase name)).
    by rewrite Hnames.
  - intros students students' labName Hgroups. rewrite !group_mode_names.
    unfold distinct_groups. by rewrite Hgroups.
  - done.
  - intros students labName i. by rewrite Hmap, list_lookup_fmap.
  - intros name Hname. rewrite (Hascii name Hname).
    split; [done|apply ascii_slug_length].
  - intros students labName Hnames. rewrite Hmap.
    apply Forall_fmap_ext_1. eapply Forall_impl; [exact Hnames|].
    intros st Hst. cbn beta. by rewrite (Hascii _ Hst).
  - intros runes Hrunes Hcase. unfold slug.
    rewrite replace_space_text by done.
    rewrite ToLower_text.
    + by rewrite <- list_fmap_compose.
    + apply Forall_fmap. eapply Forall_impl; [exact Hrunes|].
      intros r [Hr Hs]. cbn. unfold scalar.
      destruct (Z.eqb_spec r 32); lia.
    + apply Forall_fmap. eapply Forall_impl; [exact Hcase|].
      intros r Hr. cbn. destruct (Z.eqb_spec r 32); [lia|done].
  - intros lowerCase' name Hr. by apply ToLower_ext.
  - vm_compute. reflexivity.
  - intros Hcase. rewrite Hmap. cbn [fmap list_fmap student_name].
    unfold slug. rewrite (ToLower_ext lowerCase demo_case).
    { vm_compute. reflexivity. }
    intros r Hr Hbig. vm_compute in Hr.
    repeat (apply elem_of_cons in Hr as [->|Hr]); try lia;
      [by rewrite Hcase|by apply elem_of_nil in Hr].
Qed.

(** C7. In group mode getNamespaceNames returns one name per distinct group
    number of the roster, in first-seen order, and the sentinel [-1]
    contributes none: the names are [ns-<labName>-group-<g>] for the group
    numbers [g] of [distinct_groups]; these are pairwise distinct, are exactly
    the roster's group numbers other than [-1], and stand in the order of their
    first occurrence in the roster; the names themselves are pairwise
    distinct.  The roster with groups 1, 1, 2, -1 and the lab demo gives
    [ns-demo-group-1; ns-demo-group-2]. *)
Theorem getNamespaceNames_group_mode (lowerCase : Z → Z) :
  (∀ students labName,
      getNamespaceNames lowerCase students labName false
      = (λ g, "ns-" +:+ labName +:+ "-group-" +:+ itoa g)
          <$> distinct_groups students)
  ∧ (∀ students, NoDup (distinct_groups students))
  ∧ (∀ students g,
        g ∈ distinct_groups students
        ↔ g ≠ (-1)%Z ∧ g ∈ student_group <$> students)
  ∧ (∀ students i j gi gj,
        distinct_groups students !! i = Some gi →
        distinct_groups students !! j = Some gj →
        i < j →
        index_of gi (student_group <$> students)
        < index_of gj (student_group <$> students))
  ∧ (∀ students labName, NoDup (getNamespaceNames lowerCase students labName false))
  ∧ getNamespaceNames lowerCase
      [mkStudent "a" "A" 1; mkStudent "b" "B" 1; mkStudent "c" "C" 2;
       mkStudent "d" "D" (-1)] "demo" false
    = ["ns-demo-group-1"; "ns-demo-group-2"].
Proof.
  split_and!.
  - intros. apply group_mode_names.
  - intros. apply NoDup_filter, NoDup_first_seen.
  - intros students g. unfold distinct_groups.
    by rewrite list_elem_of_filter, elem_of_first_seen.
  - intros students i j gi gj Hi Hj Hlt.
    destruct (filter_lookup_lt _ _ _ _ _ _ Hi Hj Hlt)
      as (i' & j' & Hi' & Hj' & Hlt').
    by apply (first_seen_order _ i' j').
  - intros students labName. rewrite group_mode_names.
    apply (NoDup_fmap_2 _). apply NoDup_filter, NoDup_first_seen.
  - vm_compute. reflexivity.
Qed.


(** ** deleteLab *)

Section DeleteLab.
Variable cluster : Cluster.

Lemma lab_namespace_spec (labName name : string) :
  lab_namespace labName name = true
  ↔ name = "ns-" +:+ labName
    ∨ ∃ rest, name = "ns-" +:+ labName +:+ "-" +:+ rest.
Proof.
  unfold lab_namespace, HasPrefix.
  rewrite orb_true_iff, String.eqb_eq, prefix_true.
  split; (intros [?|[r E]]; [by left|right; exists r]).
  - by rewrite E, !sapp_assoc.
  - by rewrite E, !sapp_assoc.
Qed.

Lemma lab_binding_spec (labName name : string) :
  lab_binding labName name = true
  ↔ ∃ rest, name = "read-namespaces-crb-" +:+ labName +:+ "-" +:+ rest.
Proof.
  unfold lab_binding, HasPrefix. rewrite prefix_true.
  split; intros [r E]; exists r; by rewrite E, !sapp_assoc.
Qed.

(** The namespace loop deletes the matching names in list order and ends at
    the first deletion that fails. *)
Lemma deleteNamespaces_trace (labName : string) (items : list string)
    (log : Log) :
  let targets := filter (λ n, lab_namespace labName n) items in
  deleteNamespaces cluster labName items log
  = (log ++ (succeeded ∘ NamespacesDelete <$> targets), None)
  ∨ ∃ k name e,
      targets !! k = Some name
      ∧ deleteNamespaces cluster labName items log
        = (log ++ (succeeded ∘ NamespacesDelete <$> take k targets)
               ++ [failed (NamespacesDelete name) e],
           Some (http_Error
                   ("Something went wrong while deleting namespace " +:+ name)
                   StatusInternalServerError)).
Proof.
  revert log. induction items as [|name items IH]; intros log; cbn zeta.
  { left. simpl. by rewrite app_nil_r. }
  cbn [deleteNamespaces]. fold (lab_namespace labName name).
  rewrite filter_cons. destruct (lab_namespace labName name) eqn:Hm.
  - rewrite decide_True by done.
    unfold clientset.Namespaces_Delete.
    destruct (namespaces_delete cluster log name) as [e|] eqn:Hd.
    + right. exists 0, name, e. by rewrite take_0.
    + destruct (IH (log ++ [mkEvent (NamespacesDelete name) None]))
        as [E|(k & n & e & Hk & E)]; rewrite E.
      * left. by rewrite fmap_cons, <- app_assoc.
      * right. exists (S k), n, e. split; [done|].
        by rewrite firstn_cons, fmap_cons, <- !app_assoc.
  - rewrite decide_False by (by intros ?). apply IH.
Qed.

Lemma deleteClusterRoleBindings_trace (labName : string) (items : list string)
    (log : Log) :
  let targets := filter (λ n, lab_binding labName n) items in
  deleteClusterRoleBindings cluster labName items log
  = (log ++ (succeeded ∘ ClusterRoleBindingsDelete <$> targets), None)
  ∨ ∃ k name e,
      targets !! k = Some name
      ∧ deleteClusterRoleBindings cluster labName items log
        = (log ++ (succeeded ∘ ClusterRoleBindingsDelete <$> take k targets)
               ++ [failed (ClusterRoleBindingsDelete name) e],
           Some (http_Error
                   ("Something went wrong while deleting namespace " +:+ name)
                   StatusInternalServerError)).
Proof.
  revert log. induction items as [|name items IH]; intros log; cbn zeta.
  { left. simpl. by rewrite app_nil_r. }
  cbn [deleteClusterRoleBindings]. fold (lab_binding labName name).
  rewrite filter_cons. destruct (lab_binding labName name) eqn:Hm.
  - rewrite decide_True by done.
    unfold clientset.ClusterRoleBindings_Delete.
    destruct (clusterrolebindings_delete cluster log name) as [e|] eqn:Hd.
    + right. exists 0, name, e. by rewrite take_0.
    + destruct (IH (log ++ [mkEvent (ClusterRoleBindingsDelete name) None]))
        as [E|(k & n & e & Hk & E)]; rewrite E.
      * left. by rewrite fmap_cons, <- app_assoc.
      * right. exists (S k), n, e. split; [done|].
        by rewrite firstn_cons, fmap_cons, <- !app_assoc.
  - rewrite decide_False by (by intros ?). apply IH.
Qed.

End DeleteLab.

Ltac flatten_app :=
  repeat (progress (rewrite <- ?app_assoc; cbn [app])).

Lemma lookup_cons_S {A : Type} (x : A) (l : list A) (k : nat) :
  (x :: l) !! S k = l !! k.
Proof. reflexivity. Qed.

Lemma deleteLab_runs_plan (cluster : Cluster) (params_labName : string)
    (log : Log) :
  let labName := ReplaceAll params_labName "-" "" in
  let plan := deleteLab_plan cluster labName log in
  deleteLab cluster params_labName log = (log ++ (succeeded <$> plan), None)
  ∨ ∃ k c e msg,
      plan !! k = Some c
      ∧ deleteLab cluster params_labName log
        = (log ++ (succeeded <$> take k plan) ++ [failed c e],
           Some (http_Error msg StatusInternalServerError)).
Proof.
  cbn zeta. set (labName := ReplaceAll params_labName "-" "").
  unfold deleteLab, deleteLab_plan. fold labName.
  unfold clientset.Namespaces_List.
  destruct (namespaces_list cluster log) as [items|e] eqn:Hl; cbn [result_err].
  2:{ right. exists 0, NamespacesList, e. eexists. split; [done|].
      rewrite take_0. done. }
  set (targets := filter (λ n, lab_namespace labName n) items).
  destruct (deleteNamespaces_trace cluster labName items
              (log ++ [mkEvent NamespacesList None]))
    as [E|(k & name & e & Hk & E)]; rewrite E; fold targets.
  2:{ fold targets in Hk.
      right. exists (S k), (NamespacesDelete name), e. eexists. split.
      - rewrite lookup_cons_S, lookup_app_l.
        + by rewrite list_lookup_fmap, Hk.
        + rewrite length_fmap. by apply lookup_lt_Some in Hk.
      - rewrite firstn_cons, take_app_le.
        2:{ rewrite length_fmap. apply lookup_lt_Some in Hk. lia. }
        rewrite <- fmap_take, fmap_cons, <- !list_fmap_compose.
        rewrite <- !app_assoc. done. }
  unfold clientset.ClusterRoleBindings_List.
  replace (log ++ succeeded NamespacesList
             :: (succeeded ∘ NamespacesDelete <$> targets))
    with ((log ++ [mkEvent NamespacesList None])
            ++ (succeeded ∘ NamespacesDelete <$> targets))
    by (by rewrite <- app_assoc).
  set (log1 := (log ++ [mkEvent NamespacesList None]) ++ _).
  destruct (clusterrolebindings_list cluster log1) as [bitems|e] eqn:Hb;
    cbn [result_err].
  2:{ right. exists (S (length targets)), ClusterRoleBindingsList, e. eexists.
      split.
      - rewrite lookup_cons_S, lookup_app_r, length_fmap
          by (rewrite length_fmap; lia).
        by rewrite Nat.sub_diag.
      - rewrite firstn_cons, take_app_length'
          by (by rewrite length_fmap).
        subst log1. rewrite fmap_cons, <- !list_fmap_compose.
        rewrite <- !app_assoc. done. }
  set (btargets := filter (λ n, lab_binding labName n) bitems).
  destruct (deleteClusterRoleBindings_trace cluster labName bitems
              (log1 ++ [mkEvent ClusterRoleBindingsList None]))
    as [E'|(k & name & e & Hk & E')]; rewrite E'; fold btargets.
  - left. subst log1. rewrite fmap_cons, fmap_app, fmap_cons.
    rewrite <- !list_fmap_compose, <- !app_assoc. done.
  - fold btargets in Hk.
    right. exists (S (length targets + S k)), (ClusterRoleBindingsDelete name), e.
    eexists. split.
    + rewrite lookup_cons_S, lookup_app_r, length_fmap
        by (rewrite length_fmap; lia).
      replace (length targets + S k - length targets) with (S k) by lia.
      by rewrite lookup_cons_S, list_lookup_fmap, Hk.
    + rewrite firstn_cons, take_app_ge, length_fmap
        by (rewrite length_fmap; lia).
      replace (length targets + S k - length targets) with (S k) by lia.
      rewrite firstn_cons. subst log1.
      rewrite fmap_cons, fmap_app, fmap_cons, <- fmap_take.
      rewrite <- !list_fmap_compose. by flatten_app.
Qed.

(** C5. deleteLab, for the lab name [labName] it computes from the route
    parameter (the parameter without hyphens; the parameter itself when it has
    none), runs [deleteLab_plan] in order and stops at the first call that
    fails: either every call of the plan is issued and succeeds and no error is
    written, or the calls before the failed one succeeded, the failed call is
    the last call issued (no retry, nothing after it) and the answer is an
    internal-server error.  The plan lists the namespaces, deletes exactly the
    listed namespaces that equal [ns-<labName>] or start with [ns-<labName>-],
    lists the cluster-scoped bindings, deletes exactly the listed bindings that
    start with [read-namespaces-crb-<labName>-], and holds no other call. *)
Theorem deleteLab_deletes_lab_objects_until_error (cluster : Cluster)
    (params_labName : string) (log : Log) :
  let labName := ReplaceAll params_labName "-" "" in
  let plan := deleteLab_plan cluster labName log in
  (deleteLab cluster params_labName log = (log ++ (succeeded <$> plan), None)
   ∨ ∃ k c e msg,
       plan !! k = Some c
       ∧ deleteLab cluster params_labName log
         = (log ++ (succeeded <$> take k plan) ++ [failed c e],
            Some (http_Error msg StatusInternalServerError)))
  ∧ (∃ namespaces bindings,
        plan = NamespacesList :: (NamespacesDelete <$> namespaces)
                 ++ ClusterRoleBindingsList
                 :: (ClusterRoleBindingsDelete <$> bindings)
        ∧ (∀ items,
              namespaces_list cluster log = Ok items →
              namespaces = filter (λ n, lab_namespace labName n) items
              ∧ ∀ name,
                  name ∈ namespaces
                  ↔ name ∈ items
                    ∧ (name = "ns-" +:+ labName
                       ∨ ∃ rest, name = "ns-" +:+ labName +:+ "-" +:+ rest))
        ∧ (∀ items,
              clusterrolebindings_list cluster
                (log ++ succeeded NamespacesList
                     :: (succeeded ∘ NamespacesDelete <$> namespaces))
              = Ok items →
              bindings = filter (λ n, lab_binding labName n) items
              ∧ ∀ name,
                  name ∈ bindings
                  ↔ name ∈ items
                    ∧ ∃ rest,
                        name = "read-namespaces-crb-" +:+ labName
                                 +:+ "-" +:+ rest))
  ∧ (Contains params_labName "-" = false → labName = params_labName).
Proof.
  cbn zeta. split_and!.
  - apply deleteLab_runs_plan.
  - unfold deleteLab_plan. eexists _, _. split; [reflexivity|]. split.
    + intros items ->. split; [done|]. intros name.
      rewrite list_elem_of_filter, Is_true_true, lab_namespace_spec. tauto.
    + intros items ->. split; [done|]. intros name.
      rewrite list_elem_of_filter, Is_true_true, lab_binding_spec. tauto.
  - intros Hc. unfold ReplaceAll, Replace. cbn [String.eqb Ascii.eqb orb].
    by apply replace_from_absent.
Qed.

(** ** The bootstrap of the cluster role *)

Section Bootstrap.
Variable cluster : Cluster.

Lemma issued_app (log events : Log) :
  issued log (log ++ events) = ev_call <$> events.
Proof. unfold issued. by rewrite drop_app_length. Qed.

Lemma readNamespaceClusterRoleExists_log (log : Log) :
  (readNamespaceClusterRoleExists cluster log).1
  = log ++ [mkEvent (ClusterRolesGet "read-namespaces-cr")
              (result_err (clusterroles_get cluster log "read-namespaces-cr"))].
Proof.
  unfold readNamespaceClusterRoleExists, clientset.ClusterRoles_Get.
  destruct (clusterroles_get cluster log "read-namespaces-cr") as [r|e];
    [done|].
  by destruct (HasSuffix (Error e) "not found").
Qed.

Lemma readNamespaceClusterRoleExists_absent (log : Log) :
  (readNamespaceClusterRoleExists cluster log).2 = (false, None)
  ↔ ∃ e, clusterroles_get cluster log "read-namespaces-cr" = Fail e
         ∧ HasSuffix (Error e) "not found" = true.
Proof.
  unfold readNamespaceClusterRoleExists, clientset.ClusterRoles_Get.
  destruct (clusterroles_get cluster log "read-namespaces-cr") as [r|e].
  - split; [done|]. by intros (e & ? & _).
  - destruct (HasSuffix (Error e) "not found") eqn:Hs; cbn [snd].
    + split; [|done]. intros _. by exists e.
    + split; [done|]. intros (e' & [= <-] & Hs'). congruence.
Qed.

Lemma createNamespaceClusterRoleIfNotExists_calls (log : Log) :
  issued log (createNamespaceClusterRoleIfNotExists cluster log).1
  = ClusterRolesGet "read-namespaces-cr"
      :: (if decide ((readNamespaceClusterRoleExists cluster log).2
                     = (false, None))
          then [ClusterRolesCreate read_namespaces_cr] else []).
Proof.
  unfold createNamespaceClusterRoleIfNotExists.
  pose proof (readNamespaceClusterRoleExists_log log) as Hlog.
  destruct (readNamespaceClusterRoleExists cluster log)
    as [log1 [found err]] eqn:E. cbn [fst snd] in *. subst log1.
  destruct err as [e|].
  { rewrite decide_False by done. cbn [fst]. by rewrite issued_app. }
  destruct found; cbn [negb].
  { rewrite decide_False by done. cbn [fst]. by rewrite issued_app. }
  rewrite decide_True by done.
  unfold createReadNamespacesClusterRole, clientset.ClusterRoles_Create.
  fold read_namespaces_cr.
  set (log1 := log ++ _).
  destruct (clusterroles_create cluster log1 read_namespaces_cr);
    cbn [fst]; subst log1; by rewrite <- app_assoc, issued_app.
Qed.

End Bootstrap.

Lemma read_namespaces_cr_grants (group resource verb : string) :
  RulesAllow (ClusterRole.Rules read_namespaces_cr) group resource verb = true
  ↔ group = "" ∧ resource = "namespaces" ∧ (verb = "get" ∨ verb = "list").
Proof.
  unfold RulesAllow, RuleAllows, matches_entry, read_namespaces_cr.
  cbn [existsb ClusterRole.Rules PolicyRule.Verbs PolicyRule.APIGroups
         PolicyRule.Resources].
  rewrite !orb_false_r, !andb_true_iff, !orb_true_iff.
  change (String.eqb "get" "*") with false.
  change (String.eqb "list" "*") with false.
  change (String.eqb "" "*") with false.
  change (String.eqb "namespaces" "*") with false.
  cbn [orb]. rewrite !String.eqb_eq. intuition congruence.
Qed.

(** C3, as the design document states it, fails: the role that the bootstrap
    creates on a cluster without the role does not grant [get] on the
    namespaces resource of the API group [apps]; its rule names the core group
    only. *)
Lemma read_namespaces_cr_not_all_groups :
  ∃ role,
    issued []
      (createNamespaceClusterRoleIfNotExists
         (demo_cluster (mkDemo [] [] false None no_fault)) []).1
    = [ClusterRolesGet "read-namespaces-cr"; ClusterRolesCreate role]
    ∧ RulesAllow (ClusterRole.Rules role) "apps" "namespaces" "get" = false.
Proof. eexists. split; vm_compute; reflexivity. Qed.

(** C3, amended.  The bootstrap fetches the cluster role and issues one
    creation call exactly when the existence check reports the role absent
    (the fetch failed with an error whose text ends in [not found]); otherwise
    it issues no creation call, so on a cluster that keeps the role a later
    bootstrap creates nothing.  The role sent is [read-namespaces-cr], and it
    grants exactly the verbs [get] and [list] on the resource [namespaces] of
    the core API group (the group with the empty name). *)
Theorem createNamespaceClusterRoleIfNotExists_guarded (cluster : Cluster)
    (log : Log) :
  issued log (createNamespaceClusterRoleIfNotExists cluster log).1
  = ClusterRolesGet "read-namespaces-cr"
      :: (if decide ((readNamespaceClusterRoleExists cluster log).2
                     = (false, None))
          then [ClusterRolesCreate read_namespaces_cr] else [])
  ∧ ((readNamespaceClusterRoleExists cluster log).2 = (false, None)
     ↔ ∃ e, clusterroles_get cluster log "read-namespaces-cr" = Fail e
            ∧ HasSuffix (Error e) "not found" = true)
  ∧ (keeps_role cluster → role_created log = true →
     issued log (createNamespaceClusterRoleIfNotExists cluster log).1
     = [ClusterRolesGet "read-namespaces-cr"])
  ∧ (∀ group resource verb,
        RulesAllow (ClusterRole.Rules read_namespaces_cr) group resource verb
        = true
        ↔ group = "" ∧ resource = "namespaces"
          ∧ (verb = "get" ∨ verb = "list")).
Proof.
  split_and!.
  - apply createNamespaceClusterRoleIfNotExists_calls.
  - apply readNamespaceClusterRoleExists_absent.
  - intros Hkeeps Hcreated. rewrite createNamespaceClusterRoleIfNotExists_calls.
    rewrite decide_False; [done|].
    rewrite readNamespaceClusterRoleExists_absent.
    intros (e & He & _). destruct (Hkeeps log Hcreated) as [role Hrole].
    congruence.
  - apply read_namespaces_cr_grants.
Qed.

Lemma createNamespaceClusterRoleIfNotExists_guarded_witness :
  let cluster := demo_cluster (mkDemo [] [] false None no_fault) in
  let log := (createNamespaceClusterRoleIfNotExists cluster []).1 in
  issued [] log
  = [ClusterRolesGet "read-namespaces-cr"; ClusterRolesCreate read_namespaces_cr]
  ∧ issued log (createNamespaceClusterRoleIfNotExists cluster log).1
    = [ClusterRolesGet "read-namespaces-cr"].
Proof.
  cbn zeta. split.
  - destruct (createNamespaceClusterRoleIfNotExists_guarded
                (demo_cluster (mkDemo [] [] false None no_fault)) [])
      as (Hcalls & _).
    rewrite Hcalls. vm_compute. reflexivity.
  - destruct (createNamespaceClusterRoleIfNotExists_guarded
                (demo_cluster (mkDemo [] [] false None no_fault))
                (createNamespaceClusterRoleIfNotExists
                   (demo_cluster (mkDemo [] [] false None no_fault)) []).1)
      as (_ & _ & Hkeeps & _).
    apply Hkeeps.
    + intros log Hcreated. eexists.
      cbn [demo_cluster clusterroles_get or_fault demo_fault no_fault
             demo_role orb].
      by rewrite Hcreated.
    + vm_compute. reflexivity.
Defined.

(** ** Ensuring a namespace *)

Section Ensure.
Variable cluster : Cluster.
Variable init : list string.
Hypothesis listing : lists_namespaces cluster init.

Lemma hasName_elem_of (items : list string) (name : string) :
  hasName items name = bool_decide (name ∈ items).
Proof.
  induction items as [|n items IH]; [done|].
  cbn [hasName]. destruct (String.eqb_spec n name) as [->|Hne].
  - by rewrite bool_decide_eq_true_2 by left.
  - rewrite IH. apply bool_decide_ext. rewrite elem_of_cons.
    intuition congruence.
Qed.

Lemma namespaces_after_snoc (log : Log) (ev : Event) :
  namespaces_after init (log ++ [ev])
  = match ev with
    | mkEvent (NamespacesCreate name) None =>
        namespaces_after init log ++ [name]
    | mkEvent (NamespacesDelete name) None =>
        filter (λ n, n ≠ name) (namespaces_after init log)
    | _ => namespaces_after init log
    end.
Proof. unfold namespaces_after. by rewrite foldl_snoc. Qed.

Lemma namespaceExists_listed (name : string) (log : Log) :
  namespaceExists cluster name log
  = (log ++ [succeeded NamespacesList],
     (bool_decide (name ∈ namespaces_after init log), None)).
Proof.
  unfold namespaceExists, clientset.Namespaces_List. cbn zeta.
  by rewrite !listing, hasName_elem_of.
Qed.

(** One turn of the namespace loop on a namespace that exists. *)
Lemma createNamespaces_present (name : string) (rest newNamespaces : list string)
    (log : Log) :
  name ∈ namespaces_after init log →
  createNamespaces cluster (name :: rest) newNamespaces log
  = createNamespaces cluster rest newNamespaces
      (log ++ [succeeded NamespacesList]).
Proof.
  intros Hin. cbn [createNamespaces].
  by rewrite namespaceExists_listed, bool_decide_eq_true_2.
Qed.

(** One turn of the namespace loop on a namespace that does not exist and
    whose creation succeeds. *)
Lemma createNamespaces_absent (name : string) (rest newNamespaces : list string)
    (log : Log) :
  name ∉ namespaces_after init log →
  namespaces_create cluster (log ++ [succeeded NamespacesList]) name = None →
  createNamespaces cluster (name :: rest) newNamespaces log
  = createNamespaces cluster rest (newNamespaces ++ [name])
      (log ++ [succeeded NamespacesList; succeeded (NamespacesCreate name)]).
Proof.
  intros Hin Hcreate. cbn [createNamespaces].
  rewrite namespaceExists_listed, bool_decide_eq_false_2 by done.
  unfold createNamespace, clientset.Namespaces_Create. rewrite Hcreate.
  by rewrite <- app_assoc.
Qed.

Lemma createNamespaces_one_present (name : string)
    (newNamespaces : list string) (log : Log) :
  name ∈ namespaces_after init log →
  createNamespaces cluster [name] newNamespaces log
  = (log ++ [succeeded NamespacesList], inr newNamespaces).
Proof. intros Hin. by rewrite createNamespaces_present. Qed.

Lemma createNamespaces_one_absent (name : string)
    (newNamespaces : list string) (log : Log) :
  name ∉ namespaces_after init log →
  namespaces_create cluster (log ++ [succeeded NamespacesList]) name = None →
  createNamespaces cluster [name] newNamespaces log
  = (log ++ [succeeded NamespacesList; succeeded (NamespacesCreate name)],
     inr (newNamespaces ++ [name])).
Proof. intros Hout Hcreate. by rewrite createNamespaces_absent. Qed.

End Ensure.

(** C9. On a cluster whose listing shows its namespaces, and where the
    creation of a missing namespace succeeds, running the ensure step of
    createLabEnvironment (existence check, then creation when missing) twice
    for one name issues one creation call in all when the namespace was
    missing and none when it existed; the second run only lists the
    namespaces, reports no error and counts nothing as new; a namespace that
    exists is skipped and is not added to the new namespaces.  The same holds
    when the name comes twice in one request. *)
Theorem createNamespaces_twice (cluster : Cluster) (init : list string)
    (namespace : string) (newNamespaces : list string) (log : Log) :
  lists_namespaces cluster init →
  (namespace ∉ namespaces_after init log →
   namespaces_create cluster (log ++ [succeeded NamespacesList]) namespace
   = None) →
  let first := createNamespaces cluster [namespace] newNamespaces log in
  let second := createNamespaces cluster [namespace] [] first.1 in
  second.2 = inr []
  ∧ issued first.1 second.1 = [NamespacesList]
  ∧ namespace ∈ namespaces_after init second.1
  ∧ (if bool_decide (namespace ∈ namespaces_after init log)
     then first.2 = inr newNamespaces
          ∧ issued log second.1 = [NamespacesList; NamespacesList]
     else first.2 = inr (newNamespaces ++ [namespace])
          ∧ issued log second.1
            = [NamespacesList; NamespacesCreate namespace; NamespacesList])
  ∧ createNamespaces cluster [namespace; namespace] newNamespaces log
    = (second.1, first.2).
Proof.
  intros Hlist Hcreate. cbn zeta.
  destruct (decide (namespace ∈ namespaces_after init log)) as [Hin|Hout].
  - rewrite bool_decide_eq_true_2 by done.
    assert (namespace ∈ namespaces_after init
              (log ++ [succeeded NamespacesList])) as Hin'.
    { by rewrite namespaces_after_snoc. }
    rewrite (createNamespaces_one_present cluster init Hlist namespace _ log
               Hin).
    rewrite (createNamespaces_present cluster init Hlist namespace _ _ log Hin).
    cbn [fst snd].
    rewrite !(createNamespaces_one_present cluster init Hlist namespace _ _
                Hin').
    cbn [fst snd]. split_and!; try done.
    + by rewrite issued_app.
    + by rewrite namespaces_after_snoc.
    + by rewrite <- app_assoc, issued_app.
  - rewrite bool_decide_eq_false_2 by done.
    assert (namespace ∈ namespaces_after init
              (log ++ [succeeded NamespacesList;
                       succeeded (NamespacesCreate namespace)])) as Hin'.
    { replace (log ++ [succeeded NamespacesList;
                       succeeded (NamespacesCreate namespace)])
        with ((log ++ [succeeded NamespacesList])
                ++ [succeeded (NamespacesCreate namespace)])
        by (by rewrite <- app_assoc).
      rewrite !namespaces_after_snoc. cbn. set_solver. }
    rewrite (createNamespaces_one_absent cluster init Hlist namespace _ log
               Hout (Hcreate Hout)).
    rewrite (createNamespaces_absent cluster init Hlist namespace _ _ log Hout
               (Hcreate Hout)).
    cbn [fst snd].
    rewrite !(createNamespaces_one_present cluster init Hlist namespace _ _
                Hin').
    cbn [fst snd]. split_and!; try done.
    + by rewrite issued_app.
    + by rewrite namespaces_after_snoc.
    + by rewrite <- app_assoc, issued_app.
Qed.

Lemma createNamespaces_twice_witness :
  let cluster := demo_cluster (mkDemo ["ns-demo"] [] true None no_fault) in
  let first := createNamespaces cluster ["ns-demo-jane-doe"] [] [] in
  let second := createNamespaces cluster ["ns-demo-jane-doe"] [] first.1 in
  second.2 = inr []
  ∧ issued first.1 second.1 = [NamespacesList]
  ∧ "ns-demo-jane-doe" ∈ namespaces_after ["ns-demo"] second.1
  ∧ (if bool_decide ("ns-demo-jane-doe" ∈ namespaces_after ["ns-demo"] [])
     then first.2 = inr []
          ∧ issued [] second.1 = [NamespacesList; NamespacesList]
     else first.2 = inr ([] ++ ["ns-demo-jane-doe"])
          ∧ issued [] second.1
            = [NamespacesList; NamespacesCreate "ns-demo-jane-doe";
               NamespacesList])
  ∧ createNamespaces cluster ["ns-demo-jane-doe"; "ns-demo-jane-doe"] [] []
    = (second.1, first.2).
Proof.
  apply (createNamespaces_twice
           (demo_cluster (mkDemo ["ns-demo"] [] true None no_fault))
           ["ns-demo"] "ns-demo-jane-doe" [] []).
  - intros log. reflexivity.
  - intros _. reflexivity.
Defined.

(** ** createServiceAccount *)

Section Account.
Variable cluster : Cluster.
Variable namespace : string.

(** After [k] fetches without a secret the loop goes on as from the start. *)
Lemma awaitSecrets_after (k : nat) (sa sa' : ServiceAccount.t)
    (log log' : Log) (fuel : nat) :
  after_fetches cluster namespace k sa log = Some (sa', log') →
  awaitSecrets cluster (k + fuel) namespace sa log
  = awaitSecrets cluster fuel namespace sa' log'.
Proof.
  revert sa log. induction k as [|k IH]; intros sa log H.
  - by simplify_eq/=.
  - cbn [after_fetches] in H. cbn [Nat.add awaitSecrets].
    unfold clientset.ServiceAccounts_Get.
    destruct (serviceaccounts_get cluster log namespace
                (ServiceAccount.Name sa)) as [fetched|e]; [|done].
    destruct (ServiceAccount.Secrets fetched) eqn:Hs; [|done].
    cbn [result_err length Nat.ltb Nat.leb]. by apply IH.
Qed.

(** The loop does not end within fetches that show no secret. *)
Lemma awaitSecrets_short (k : nat) (sa : ServiceAccount.t) (log : Log)
    (fuel : nat) :
  is_Some (after_fetches cluster namespace k sa log) →
  fuel ≤ k →
  awaitSecrets cluster fuel namespace sa log = None.
Proof.
  revert sa log fuel. induction k as [|k IH]; intros sa log fuel H Hle.
  - by replace fuel with 0 by lia.
  - destruct fuel as [|fuel]; [done|].
    cbn [after_fetches] in H. cbn [awaitSecrets].
    unfold clientset.ServiceAccounts_Get.
    destruct (serviceaccounts_get cluster log namespace
                (ServiceAccount.Name sa)) as [fetched|e];
      [|by destruct H].
    destruct (ServiceAccount.Secrets fetched) eqn:Hs; [|by destruct H].
    cbn [result_err length Nat.ltb Nat.leb]. apply IH; [done|lia].
Qed.

Lemma awaitSecrets_never (sa : ServiceAccount.t) (log : Log) :
  (∀ k, is_Some (after_fetches cluster namespace k sa log)) →
  ∀ fuel, awaitSecrets cluster fuel namespace sa log = None.
Proof. intros H fuel. by apply (awaitSecrets_short fuel). Qed.

(** The fetches of the loop are the only calls it issues. *)
Lemma after_fetches_log (k : nat) (sa sa' : ServiceAccount.t)
    (log log' : Log) :
  after_fetches cluster namespace k sa log = Some (sa', log') →
  ∃ events,
    log' = log ++ events ∧ length events = k
    ∧ Forall (λ ev, is_fetch (ev_call ev) = true ∧ ev_err ev = None) events.
Proof.
  revert sa log. induction k as [|k IH]; intros sa log H.
  - simplify_eq/=. exists []. by rewrite app_nil_r.
  - cbn [after_fetches] in H.
    destruct (serviceaccounts_get cluster log namespace
                (ServiceAccount.Name sa)) as [fetched|e]; [|done].
    destruct (ServiceAccount.Secrets fetched) eqn:Hs; [|done].
    destruct (IH _ _ H) as (events & -> & Hlen & Hall).
    eexists (_ :: events). rewrite <- app_assoc. split; [done|].
    split; [by rewrite length_cons, Hlen|]. by constructor.
Qed.

End Account.

(** C6. createServiceAccount creates the account and then fetches it again
    and again, issuing nothing but fetches, for as long as the fetched account
    shows no secret: after any number [k] of such fetches it has not returned.
    When the next fetch shows a secret it fetches the first secret shown and
    returns its [token] entry; an error of the creation, of a fetch or of the
    secret's retrieval is returned at once.  So when some fetch shows a secret
    the call returns that token for every bound above the number of fetches,
    and when every fetch succeeds without a secret it returns for no bound. *)
Theorem createServiceAccount_polls (cluster : Cluster)
    (username namespace : string) (log : Log) :
  let account := new_account username namespace in
  let create := ServiceAccountsCreate namespace account in
  (∀ e fuel,
      serviceaccounts_create cluster log namespace account = Fail e →
      createServiceAccount cluster fuel username namespace log
      = Some (log ++ [failed create e], ("", Some e)))
  ∧ (∀ created,
        serviceaccounts_create cluster log namespace account = Ok created →
        (∀ k sa logk,
            after_fetches cluster namespace k created
              (log ++ [succeeded create]) = Some (sa, logk) →
            let fetch := ServiceAccountsGet namespace (ServiceAccount.Name sa) in
            (∃ fetches,
                logk = (log ++ [succeeded create]) ++ fetches
                ∧ length fetches = k
                ∧ Forall (λ ev, is_fetch (ev_call ev) = true
                                ∧ ev_err ev = None) fetches)
            ∧ (∀ fuel,
                  fuel ≤ k →
                  createServiceAccount cluster fuel username namespace log
                  = None)
            ∧ (∀ e fuel,
                  serviceaccounts_get cluster logk namespace
                    (ServiceAccount.Name sa) = Fail e →
                  k < fuel →
                  createServiceAccount cluster fuel username namespace log
                  = Some (logk ++ [failed fetch e], ("", Some e)))
            ∧ (∀ fetched secretName others,
                  serviceaccounts_get cluster logk namespace
                    (ServiceAccount.Name sa) = Ok fetched →
                  ServiceAccount.Secrets fetched = secretName :: others →
                  let get := SecretsGet namespace secretName in
                  (∀ secret fuel,
                      secrets_get cluster (logk ++ [succeeded fetch])
                        namespace secretName = Ok secret →
                      k < fuel →
                      createServiceAccount cluster fuel username namespace log
                      = Some (logk ++ [succeeded fetch; succeeded get],
                              (default "" (Secret.Data secret !! "token"),
                               None)))
                  ∧ (∀ e fuel,
                        secrets_get cluster (logk ++ [succeeded fetch])
                          namespace secretName = Fail e →
                        k < fuel →
                        createServiceAccount cluster fuel username namespace
                          log
                        = Some (logk ++ [succeeded fetch; failed get e],
                                ("", Some e)))))
        ∧ ((∀ k, is_Some (after_fetches cluster namespace k created
                            (log ++ [succeeded create]))) →
           ∀ fuel,
             createServiceAccount cluster fuel username namespace log
             = None)).
Proof.
  cbn zeta. split.
  { intros e fuel Hc. unfold createServiceAccount.
    unfold clientset.ServiceAccounts_Create. fold (new_account username namespace).
    by rewrite Hc. }
  intros created Hc.
  assert (∀ fuel,
    createServiceAccount cluster fuel username namespace log
    = match awaitSecrets cluster fuel namespace created
              (log ++ [succeeded (ServiceAccountsCreate namespace
                                    (new_account username namespace))]) with
      | None => None
      | Some (log, Fail err) => Some (log, ("", Some err))
      | Some (log, Ok serviceAccount) =>
          let secretName := hd "" (ServiceAccount.Secrets serviceAccount) in
          let '(log, secret) :=
            clientset.Secrets_Get cluster namespace secretName log in
          match secret with
          | Fail err => Some (log, ("", Some err))
          | Ok secret =>
              Some (log, (default "" (Secret.Data secret !! "token"), None))
          end
      end) as Hrun.
  { intros fuel. unfold createServiceAccount.
    unfold clientset.ServiceAccounts_Create. fold (new_account username namespace).
    by rewrite Hc. }
  split.
  - intros k sa logk Hk. split_and!.
    + by apply (after_fetches_log cluster namespace k created sa).
    + intros fuel Hle. rewrite Hrun.
      by rewrite (awaitSecrets_short cluster namespace k) by (by eauto).
    + intros e fuel He Hlt. rewrite Hrun.
      replace fuel with (k + S (fuel - S k)) by lia.
      rewrite (awaitSecrets_after cluster namespace k _ _ _ _ _ Hk).
      cbn [awaitSecrets]. unfold clientset.ServiceAccounts_Get.
      by rewrite He.
    + intros fetched secretName others Hf Hs. cbn zeta. split.
      * intros secret fuel Hsec Hlt. rewrite Hrun.
        replace fuel with (k + S (fuel - S k)) by lia.
        rewrite (awaitSecrets_after cluster namespace k _ _ _ _ _ Hk).
        cbn [awaitSecrets]. unfold clientset.ServiceAccounts_Get.
        rewrite Hf, Hs. cbn [result_err length Nat.ltb Nat.leb].
        unfold clientset.Secrets_Get, succeeded, failed in *. cbn zeta.
        rewrite !Hs. cbn [hd]. rewrite !Hsec.
        by rewrite <- app_assoc.
      * intros e fuel Hsec Hlt. rewrite Hrun.
        replace fuel with (k + S (fuel - S k)) by lia.
        rewrite (awaitSecrets_after cluster namespace k _ _ _ _ _ Hk).
        cbn [awaitSecrets]. unfold clientset.ServiceAccounts_Get.
        rewrite Hf, Hs. cbn [result_err length Nat.ltb Nat.leb].
        unfold clientset.Secrets_Get, succeeded, failed in *. cbn zeta.
        rewrite !Hs. cbn [hd]. rewrite !Hsec.
        by rewrite <- app_assoc.
  - intros Hnever fuel. rewrite Hrun.
    by rewrite (awaitSecrets_never cluster namespace).
Qed.

(** On the example cluster without a delay entry no fetch ever shows a
    secret. *)
Lemma demo_after_fetches_never (namespaces bindings : list string)
    (role : bool) (namespace : string) (k : nat) (sa : ServiceAccount.t)
    (log : Log) :
  is_Some (after_fetches
             (demo_cluster (mkDemo namespaces bindings role None no_fault))
             namespace k sa log).
Proof.
  revert sa log. induction k as [|k IH]; intros sa log; [by eexists|].
  cbn [after_fetches demo_cluster serviceaccounts_get or_fault demo_fault
         no_fault demo_delay ServiceAccount.Secrets].
  apply IH.
Qed.

Lemma createServiceAccount_polls_witness :
  createServiceAccount
    (demo_cluster (mkDemo ["ns-demo"] [] true (Some 2) no_fault)) 3
    "jane-doe" "ns-demo-jane-doe" []
  = Some ([succeeded (ServiceAccountsCreate "ns-demo-jane-doe"
                        (new_account "jane-doe" "ns-demo-jane-doe"));
           succeeded (ServiceAccountsGet "ns-demo-jane-doe" "jane-doe");
           succeeded (ServiceAccountsGet "ns-demo-jane-doe" "jane-doe");
           succeeded (ServiceAccountsGet "ns-demo-jane-doe" "jane-doe");
           succeeded (SecretsGet "ns-demo-jane-doe" "jane-doe-token")],
          ("token-of-jane-doe-token", None))
  ∧ createServiceAccount
      (demo_cluster (mkDemo ["ns-demo"] [] true (Some 2) no_fault)) 2
      "jane-doe" "ns-demo-jane-doe" []
    = None
  ∧ ∀ fuel,
      createServiceAccount
        (demo_cluster (mkDemo ["ns-demo"] [] true None no_fault)) fuel
        "jane-doe" "ns-demo-jane-doe" []
      = None.
Proof.
  split_and!.
  - destruct (createServiceAccount_polls
                (demo_cluster (mkDemo ["ns-demo"] [] true (Some 2) no_fault))
                "jane-doe" "ns-demo-jane-doe" []) as [_ H].
    destruct (H _ eq_refl) as [Hk _].
    edestruct (Hk 2) as (_ & _ & _ & Hfound); [vm_compute; reflexivity|].
    edestruct Hfound as [Htoken _]; [vm_compute; reflexivity..|].
    erewrite (λ secret Hsecret, Htoken secret 3 Hsecret ltac:(lia));
      [|vm_compute; reflexivity].
    vm_compute. reflexivity.
  - destruct (createServiceAccount_polls
                (demo_cluster (mkDemo ["ns-demo"] [] true (Some 2) no_fault))
                "jane-doe" "ns-demo-jane-doe" []) as [_ H].
    destruct (H _ eq_refl) as [Hk _].
    edestruct (Hk 2) as (_ & Hshort & _); [vm_compute; reflexivity|].
    apply Hshort. lia.
  - destruct (createServiceAccount_polls
                (demo_cluster (mkDemo ["ns-demo"] [] true None no_fault))
                "jane-doe" "ns-demo-jane-doe" []) as [_ H].
    destruct (H _ eq_refl) as [_ Hnever].
    apply Hnever. intros k. apply demo_after_fetches_never.
Defined.

(** ** handleManifest *)

Section Documents.

Lemma singleInstance_metadata (object : gmap string value) :
  singleInstance object ≠ Panicked →
  ∃ metadata, object !! "metadata" = Some (VMap metadata).
Proof.
  unfold singleInstance. intros H.
  destruct (object !! "metadata") as [[]|]; by eauto.
Qed.

(** The default of the flag: a document whose [metadata] is a map without a
    [single_instance] entry is a single-instance document. *)
Lemma singleInstance_default (object metadata : gmap string value) :
  object !! "metadata" = Some (VMap metadata) →
  metadata !! "single_instance" = None →
  singleInstance object = Returned true.
Proof. unfold singleInstance. by intros -> ->. Qed.

Lemma singleInstance_no_metadata (object : gmap string value) :
  object !! "metadata" = None → singleInstance object = Panicked.
Proof. unfold singleInstance. by intros ->. Qed.

Lemma SetNamespace_metadata (namespace : string)
    (object metadata : gmap string value) :
  object !! "metadata" = Some (VMap metadata) →
  ∃ metadata',
    SetNamespace namespace object !! "metadata" = Some (VMap metadata').
Proof.
  unfold SetNamespace. intros ->.
  case_decide; rewrite lookup_insert_eq; by eauto.
Qed.

(** Setting the namespace again overwrites the one set before. *)
Lemma SetNamespace_twice (a b : string) (object metadata : gmap string value) :
  object !! "metadata" = Some (VMap metadata) →
  SetNamespace a (SetNamespace b object) = SetNamespace a object.
Proof.
  intros Hm. unfold SetNamespace. rewrite Hm.
  destruct (decide (b = "")), (decide (a = ""));
    rewrite lookup_insert_eq, insert_insert_eq;
    by rewrite ?delete_delete_eq, ?insert_delete_eq, ?delete_insert_eq,
         ?insert_insert_eq.
Qed.

Lemma GetNamespace_SetNamespace (namespace : string)
    (object metadata : gmap string value) :
  object !! "metadata" = Some (VMap metadata) →
  GetNamespace (SetNamespace namespace object) = namespace.
Proof.
  intros Hm. unfold GetNamespace, SetNamespace. rewrite Hm.
  case_decide; rewrite lookup_insert_eq.
  - by rewrite lookup_delete_eq.
  - by rewrite lookup_insert_eq.
Qed.

Lemma GetName_SetNamespace (namespace : string)
    (object metadata : gmap string value) :
  object !! "metadata" = Some (VMap metadata) →
  GetName (SetNamespace namespace object) = GetName object.
Proof.
  intros Hm. unfold GetName, SetNamespace. rewrite Hm.
  case_decide; rewrite lookup_insert_eq.
  - by rewrite lookup_delete_ne.
  - by rewrite lookup_insert_ne.
Qed.

End Documents.

Section Distribution.
Variable cluster : Cluster.
Variable resource_of : GroupVersionKind → GroupVersionResource.
Hypothesis mapping_ok :
  ∀ log gvk, rest_mapping cluster log gvk = Ok (resource_of gvk).
Hypothesis create_ok :
  ∀ log resource namespace object,
    dynamic_create cluster log resource namespace object = None.

Lemma createInNamespaces_all (mapping : GroupVersionResource)
    (object metadata : gmap string value) (namespaces : list string)
    (log : Log) :
  object !! "metadata" = Some (VMap metadata) →
  createInNamespaces cluster mapping object namespaces log
  = (log ++ (succeeded
               <$> ((λ namespace,
                       DynamicCreate mapping namespace
                         (SetNamespace namespace object)) <$> namespaces)),
     None).
Proof.
  revert object metadata log.
  induction namespaces as [|namespace namespaces IH];
    intros object metadata log Hm.
  - simpl. by rewrite app_nil_r.
  - cbn [createInNamespaces]. unfold clientset.Dynamic_Create.
    rewrite create_ok, (GetNamespace_SetNamespace _ _ _ Hm).
    destruct (SetNamespace_metadata namespace _ _ Hm) as [metadata' Hm'].
    rewrite (IH _ _ _ Hm'), !fmap_cons, <- app_assoc.
    rewrite (list_fmap_ext
               (λ n, DynamicCreate mapping n
                       (SetNamespace n (SetNamespace namespace object)))
               (λ n, DynamicCreate mapping n (SetNamespace n object)));
      [done|].
    intros _ n _. cbn. by rewrite (SetNamespace_twice _ _ _ _ Hm).
Qed.

(** The first loop passes the readable documents at the head of the
    stream, issuing their calls. *)
Lemma createSingleInstances_prefix (labName : string)
    (good rest : list decoded) (log : Log) :
  Forall readable good →
  createSingleInstances cluster labName (good ++ rest) log
  = createSingleInstances cluster labName rest
      (log ++ (succeeded <$> (good ≫= single_calls resource_of labName))).
Proof.
  intros Hgood. revert log.
  induction Hgood as [|doc good Hdoc _ IH]; intros log.
  - simpl. by rewrite app_nil_r.
  - destruct doc as [object gvk|msg]; [|done]. cbn [readable] in Hdoc.
    destruct (singleInstance_metadata _ Hdoc) as [metadata Hm].
    rewrite <- app_comm_cons. cbn [createSingleInstances head].
    unfold handleManifestHelper, clientset.Discovery_RESTMapping.
    rewrite mapping_ok. cbn [result_err].
    rewrite bind_cons. cbn [single_calls].
    destruct (singleInstance object) as [[|]|] eqn:Hs; [| |done].
    + unfold clientset.Dynamic_Create.
      rewrite create_ok, (GetNamespace_SetNamespace _ _ _ Hm), IH.
      f_equal. unfold placed. rewrite fmap_app. by flatten_app.
    + rewrite IH. f_equal. rewrite fmap_app. by flatten_app.
Qed.

(** So does the second loop. *)
Lemma createPerNamespace_prefix (namespaces : list string)
    (good rest : list decoded) (log : Log) :
  Forall readable good →
  createPerNamespace cluster namespaces (good ++ rest) log
  = createPerNamespace cluster namespaces rest
      (log ++ (succeeded <$> (good ≫= tenant_calls resource_of namespaces))).
Proof.
  intros Hgood. revert log.
  induction Hgood as [|doc good Hdoc _ IH]; intros log.
  - simpl. by rewrite app_nil_r.
  - destruct doc as [object gvk|msg]; [|done]. cbn [readable] in Hdoc.
    destruct (singleInstance_metadata _ Hdoc) as [metadata Hm].
    rewrite <- app_comm_cons. cbn [createPerNamespace head].
    unfold handleManifestHelper, clientset.Discovery_RESTMapping.
    rewrite mapping_ok. cbn [result_err].
    rewrite bind_cons. cbn [tenant_calls].
    destruct (singleInstance object) as [[|]|] eqn:Hs; [| |done].
    + rewrite IH. f_equal. rewrite fmap_app. by flatten_app.
    + rewrite (createInNamespaces_all _ _ _ _ _ Hm), IH.
      f_equal. unfold placed. rewrite !fmap_app, fmap_cons. by flatten_app.
Qed.

End Distribution.

Section Creations.
Variable resource_of : GroupVersionKind → GroupVersionResource.

Lemma creations_app (l k : list Call) :
  creations (l ++ k) = creations l ++ creations k.
Proof. apply filter_app. Qed.

Lemma creations_placed (namespaces : list string)
    (object : gmap string value) (gvk : GroupVersionKind) :
  creations ((λ namespace, placed resource_of namespace object gvk)
               <$> namespaces)
  = (λ namespace, placed resource_of namespace object gvk) <$> namespaces.
Proof.
  induction namespaces as [|n namespaces IH]; [done|].
  rewrite fmap_cons. unfold creations in *.
  rewrite filter_cons_True by done. by rewrite IH.
Qed.

Lemma creations_single_calls (labName : string) (file : list decoded) :
  creations (file ≫= single_calls resource_of labName)
  = singles resource_of labName file.
Proof.
  unfold singles. induction file as [|doc file IH]; [done|].
  rewrite !bind_cons, creations_app, IH. f_equal.
  destruct doc as [object gvk|msg]; [|done]. cbn [single_calls].
  unfold creations. rewrite filter_cons_False by (by intros ?).
  by destruct (singleInstance object) as [[|]|].
Qed.

Lemma creations_tenant_calls (namespaces : list string) (file : list decoded) :
  creations (file ≫= tenant_calls resource_of namespaces)
  = copies resource_of namespaces file.
Proof.
  unfold copies. induction file as [|doc file IH]; [done|].
  rewrite !bind_cons, creations_app, IH. f_equal.
  destruct doc as [object gvk|msg]; [|done]. cbn [tenant_calls].
  unfold creations at 1. rewrite filter_cons_False by (by intros ?).
  destruct (singleInstance object) as [[|]|]; [done| |done].
  apply creations_placed.
Qed.

Lemma single_calls_creation (labName : string) (file : list decoded)
    (resource : GroupVersionResource) (namespace : string)
    (object : gmap string value) :
  Forall readable file →
  DynamicCreate resource namespace object
    ∈ file ≫= single_calls resource_of labName →
  namespace = "ns-" +:+ labName ∧ GetNamespace object = namespace.
Proof.
  intros Hfile (doc & Hc & Hdoc)%list_elem_of_bind.
  rewrite Forall_forall in Hfile. specialize (Hfile _ Hdoc).
  destruct doc as [o gvk|msg]; [|done]. cbn [readable single_calls] in *.
  destruct (singleInstance_metadata _ Hfile) as [metadata Hm].
  apply elem_of_cons in Hc as [?|Hc]; [done|].
  destruct (singleInstance o) as [[|]|]; try by apply elem_of_nil in Hc.
  apply list_elem_of_singleton in Hc. unfold placed in Hc. simplify_eq.
  by rewrite (GetNamespace_SetNamespace _ _ _ Hm).
Qed.

Lemma tenant_calls_creation (namespaces : list string) (file : list decoded)
    (resource : GroupVersionResource) (namespace : string)
    (object : gmap string value) :
  Forall readable file →
  DynamicCreate resource namespace object
    ∈ file ≫= tenant_calls resource_of namespaces →
  namespace ∈ namespaces ∧ GetNamespace object = namespace.
Proof.
  intros Hfile (doc & Hc & Hdoc)%list_elem_of_bind.
  rewrite Forall_forall in Hfile. specialize (Hfile _ Hdoc).
  destruct doc as [o gvk|msg]; [|done]. cbn [readable tenant_calls] in *.
  destruct (singleInstance_metadata _ Hfile) as [metadata Hm].
  apply elem_of_cons in Hc as [?|Hc]; [done|].
  destruct (singleInstance o) as [[|]|]; try by apply elem_of_nil in Hc.
  apply list_elem_of_fmap in Hc as (n & Hc & Hn). unfold placed in Hc.
  simplify_eq. by rewrite (GetNamespace_SetNamespace _ _ _ Hm).
Qed.

End Creations.

(** C1. On a cluster that resolves every type and accepts every creation,
    and for a manifest whose documents can all be read, handleManifest returns
    without error after these calls and no others: when the lab namespace did
    not exist before the request, for each document in turn the resolution of
    its type and, when its flag is true, one creation in the lab namespace
    [ns-<labName>]; then, for each document in turn, the resolution of its type
    and, when its flag is false, one creation in each of the new namespaces.
    So each flagged document is created once, in the lab namespace and only
    for a new lab, and each other document once per new namespace; every
    created object carries the namespace it is created in. *)
Theorem handleManifest_distributes (cluster : Cluster)
    (resource_of : GroupVersionKind → GroupVersionResource)
    (file : list decoded) (labName : string) (namespaces : list string)
    (labExists : bool) (log : Log) :
  (∀ log gvk, rest_mapping cluster log gvk = Ok (resource_of gvk)) →
  (∀ log resource namespace object,
      dynamic_create cluster log resource namespace object = None) →
  Forall readable file →
  ∃ calls,
    handleManifest cluster file labName namespaces labExists log
    = (log ++ (succeeded <$> calls), Returned None)
    ∧ calls
      = (if labExists then []
         else file ≫= single_calls resource_of labName)
          ++ (file ≫= tenant_calls resource_of namespaces)
    ∧ creations calls
      = (if labExists then [] else singles resource_of labName file)
          ++ copies resource_of namespaces file
    ∧ ∀ resource namespace object,
        DynamicCreate resource namespace object ∈ calls →
        GetNamespace object = namespace
        ∧ (labExists = false ∧ namespace = "ns-" +:+ labName
           ∨ namespace ∈ namespaces).
Proof.
  intros Hmap Hcreate Hfile. eexists. split_and!; [|reflexivity| |].
  - unfold handleManifest.
    pose proof (createSingleInstances_prefix cluster resource_of Hmap Hcreate
                  labName file [] log Hfile) as H1.
    rewrite app_nil_r in H1.
    destruct labExists; cbn [negb].
    + pose proof (createPerNamespace_prefix cluster resource_of Hmap Hcreate
                    namespaces file [] log Hfile) as H2.
      rewrite app_nil_r in H2. rewrite H2. cbn [createPerNamespace head
        handleManifestHelper]. by rewrite decide_True by done.
    + rewrite H1. cbn [createSingleInstances head handleManifestHelper].
      rewrite decide_False by (by intros ?).
      pose proof (createPerNamespace_prefix cluster resource_of Hmap Hcreate
                    namespaces file []
                    (log ++ (succeeded
                               <$> (file ≫= single_calls resource_of labName)))
                    Hfile) as H2.
      rewrite app_nil_r in H2. rewrite H2. cbn [createPerNamespace head
        handleManifestHelper].
      rewrite decide_False by (by intros ?).
      by rewrite fmap_app, app_assoc.
  - rewrite creations_app, creations_tenant_calls. f_equal.
    destruct labExists; [done|]. apply creations_single_calls.
  - intros resource namespace object [Hc|Hc]%elem_of_app.
    + destruct labExists; [by apply elem_of_nil in Hc|].
      destruct (single_calls_creation _ _ _ _ _ _ Hfile Hc). auto.
    + destruct (tenant_calls_creation _ _ _ _ _ _ Hfile Hc). auto.
Qed.

Lemma handleManifest_distributes_witness :
  ∃ calls,
    handleManifest demo_lab demo_manifest "demo"
      ["ns-demo-jane-doe"; "ns-demo-group-1"] false []
    = ([] ++ (succeeded <$> calls), Returned None)
    ∧ creations calls
      = [DynamicCreate (mkGVR "" "v1" "configmaps") "ns-demo"
           (SetNamespace "ns-demo" shared_doc);
         DynamicCreate (mkGVR "" "v1" "pods") "ns-demo-jane-doe"
           (SetNamespace "ns-demo-jane-doe" own_doc);
         DynamicCreate (mkGVR "" "v1" "pods") "ns-demo-group-1"
           (SetNamespace "ns-demo-group-1" own_doc)]
    ∧ GetName (SetNamespace "ns-demo-jane-doe" own_doc)
      = GetName (SetNamespace "ns-demo-group-1" own_doc).
Proof.
  destruct (handleManifest_distributes demo_lab demo_resource_of demo_manifest
              "demo" ["ns-demo-jane-doe"; "ns-demo-group-1"] false [])
    as (calls & Hrun & _ & Hcreations & _).
  - intros log gvk. reflexivity.
  - intros log resource namespace object. reflexivity.
  - repeat constructor; vm_compute; discriminate.
  - exists calls. split_and!; [exact Hrun| |vm_compute; reflexivity].
    rewrite Hcreations. vm_compute. reflexivity.
Defined.

(** C2, on the code.  A document that cannot be decoded ends the loop that
    reads it.  In the first loop (new lab) handleManifest returns the decoding
    error, after the calls for the documents before it.  In the second loop of
    an existing lab it returns no error at all: the loop's error is a variable
    of the loop body, and the test after the loop reads the function's own
    variable, which was never assigned. *)
Theorem handleManifest_decode_error (cluster : Cluster)
    (resource_of : GroupVersionKind → GroupVersionResource)
    (good rest : list decoded) (msg labName : string)
    (namespaces : list string) (log : Log) :
  (∀ log gvk, rest_mapping cluster log gvk = Ok (resource_of gvk)) →
  (∀ log resource namespace object,
      dynamic_create cluster log resource namespace object = None) →
  Forall readable good →
  handleManifest cluster (good ++ Malformed msg :: rest) labName namespaces
    false log
  = (log ++ (succeeded <$> (good ≫= single_calls resource_of labName)),
     Returned (Some (Err msg)))
  ∧ handleManifest cluster (good ++ Malformed msg :: rest) labName namespaces
      true log
    = (log ++ (succeeded <$> (good ≫= tenant_calls resource_of namespaces)),
       Returned None).
Proof.
  intros Hmap Hcreate Hgood. unfold handleManifest. split; cbn [negb].
  - rewrite (createSingleInstances_prefix cluster resource_of Hmap Hcreate
               labName good _ log Hgood).
    cbn [createSingleInstances head handleManifestHelper].
    by rewrite decide_True by done.
  - rewrite (createPerNamespace_prefix cluster resource_of Hmap Hcreate
               namespaces good _ log Hgood).
    cbn [createPerNamespace head handleManifestHelper].
    by rewrite decide_True by done.
Qed.

Lemma handleManifest_decode_error_witness :
  handleManifest demo_lab (demo_manifest ++ [Malformed "yaml: line 3"]) "demo"
    ["ns-demo-jane-doe"] false []
  = ([] ++ (succeeded
              <$> (demo_manifest ≫= single_calls demo_resource_of "demo")),
     Returned (Some (Err "yaml: line 3")))
  ∧ handleManifest demo_lab (demo_manifest ++ [Malformed "yaml: line 3"])
      "demo" ["ns-demo-jane-doe"] true []
    = ([] ++ (succeeded
                <$> (demo_manifest
                       ≫= tenant_calls demo_resource_of ["ns-demo-jane-doe"])),
       Returned None).
Proof.
  apply (handleManifest_decode_error demo_lab demo_resource_of demo_manifest []
           "yaml: line 3" "demo" ["ns-demo-jane-doe"] []).
  - intros log gvk. reflexivity.
  - intros log resource namespace object. reflexivity.
  - repeat constructor; vm_compute; discriminate.
Defined.

(** C4, on the code.  A document whose [metadata] is a map without a
    [single_instance] entry counts as a single instance.  A document without
    a [metadata] section does not: the loop that reads it first panics on it,
    after resolving its type, and handleManifest creates neither this document
    nor any document after it. *)
Theorem handleManifest_without_metadata (cluster : Cluster)
    (resource_of : GroupVersionKind → GroupVersionResource)
    (good rest : list decoded) (object : gmap string value)
    (gvk : GroupVersionKind) (labName : string) (namespaces : list string)
    (labExists : bool) (log : Log) :
  (∀ log gvk, rest_mapping cluster log gvk = Ok (resource_of gvk)) →
  (∀ log resource namespace object,
      dynamic_create cluster log resource namespace object = None) →
  Forall readable good →
  object !! "metadata" = None →
  handleManifest cluster (good ++ Document object gvk :: rest) labName
    namespaces labExists log
  = (log ++ (succeeded
               <$> (good ≫= if labExists
                            then tenant_calls resource_of namespaces
                            else single_calls resource_of labName)
                   ++ [RESTMapping gvk]),
     Panicked)
  ∧ ∀ flagless metadata,
      flagless !! "metadata" = Some (VMap metadata) →
      metadata !! "single_instance" = None →
      singleInstance flagless = Returned true.
Proof.
  intros Hmap Hcreate Hgood Hnone. split; [|apply singleInstance_default].
  unfold handleManifest. destruct labExists; cbn [negb].
  - rewrite (createPerNamespace_prefix cluster resource_of Hmap Hcreate
               namespaces good _ log Hgood).
    cbn [createPerNamespace head handleManifestHelper].
    unfold clientset.Discovery_RESTMapping. rewrite Hmap.
    rewrite (singleInstance_no_metadata _ Hnone). cbn [result_err].
    by rewrite fmap_app, app_assoc.
  - rewrite (createSingleInstances_prefix cluster resource_of Hmap Hcreate
               labName good _ log Hgood).
    cbn [createSingleInstances head handleManifestHelper].
    unfold clientset.Discovery_RESTMapping. rewrite Hmap.
    rewrite (singleInstance_no_metadata _ Hnone). cbn [result_err].
    by rewrite fmap_app, app_assoc.
Qed.

Lemma handleManifest_without_metadata_witness :
  handleManifest demo_lab [Document bare_doc (mkGVK "" "v1" "ConfigMap")]
    "demo" ["ns-demo-jane-doe"] false []
  = ([succeeded (RESTMapping (mkGVK "" "v1" "ConfigMap"))], Panicked).
Proof.
  destruct (handleManifest_without_metadata demo_lab demo_resource_of [] []
              bare_doc (mkGVK "" "v1" "ConfigMap") "demo" ["ns-demo-jane-doe"]
              false []) as [Hrun _].
  - intros log gvk. reflexivity.
  - intros log resource namespace object. reflexivity.
  - constructor.
  - reflexivity.
  - exact Hrun.
Defined.
Example getNamespaceNames_jane :
  getNamespaceNames demo_case [mkStudent "1" "Jane Doe" (-1)] "demo" true
  = ["ns-demo-jane-doe"].
Proof. reflexivity. Qed.

Example getNamespaceNames_groups :
  getNamespaceNames demo_case
    [mkStudent "1" "A" 1; mkStudent "2" "B" 1; mkStudent "3" "C" 2;
     mkStudent "4" "D" (-1)] "demo" false
  = ["ns-demo-group-1"; "ns-demo-group-2"].
Proof. vm_compute. reflexivity. Qed.

Example usernameOf_hans :
  usernameOf "demo" "ns-demo-hans-demo-smith" = "hasmith".
Proof. vm_compute. reflexivity. Qed.


(** ** The user loop of createLabEnvironment *)

(** The keys of the credential map are the keys recovered from the
    namespace names. *)
Lemma createUsers_keys (cluster : Cluster) (fuel : nat) (labName : string)
    (newNamespaces : list string) (userConfigs userConfigs' : gmap string string)
    (log log' : Log) :
  createUsers cluster fuel labName newNamespaces userConfigs log
  = Some (log', inr userConfigs') →
  dom userConfigs'
  = dom userConfigs
      ∪ (list_to_set (usernameOf labName <$> newNamespaces) : gset string).
Proof.
  revert userConfigs log.
  induction newNamespaces as [|namespace newNamespaces IH];
    intros userConfigs log H.
  - cbn in H. simplify_eq.
    rewrite fmap_nil, list_to_set_nil. by rewrite (right_id_L ∅ (∪)).
  - cbn [createUsers] in H. fold (usernameOf labName namespace) in H.
    destruct (createServiceAccount cluster fuel (usernameOf labName namespace)
                namespace log) as [[log1 [token [e|]]]|]; [done| |done].
    destruct (createRole cluster "student" namespace ["*"] log1)
      as [log2 [e|]]; [done|].
    destruct (createRoleBinding cluster "student-binding" namespace
                (usernameOf labName namespace) namespace "student" log2)
      as [log3 [e|]]; [done|].
    destruct (createRoleBinding cluster
                ("student-binding-" +:+ usernameOf labName namespace)
                ("ns-" +:+ labName) (usernameOf labName namespace) namespace
                "student" log3) as [log4 [e|]]; [done|].
    destruct (createReadNamespacesClusterRoleBinding cluster labName
                (usernameOf labName namespace) namespace log4)
      as [log5 [e|]]; [done|].
    rewrite (IH _ _ H), dom_insert_L, fmap_cons, list_to_set_cons.
    apply set_eq. intros x. rewrite !elem_of_union. tauto.
Qed.

(** C10. createLabEnvironment recovers the tenant key from a namespace name
    by erasing every occurrence of [ns-<labName>-].  The names of
    getNamespaceNames are the namespaces [ns-<labName>-<key>] of the roster's
    tenant keys, and for every key the recovered key is the original one
    exactly when the key does not contain [ns-<labName>-].  The keys of the
    credential map are the recovered keys.  For the lab demo and the display
    name Hans Demo Smith the recovered key is [hasmith], not the slug
    [hans-demo-smith]: the account, the subject of the cluster-scoped binding
    and the key of the credential map are all [hasmith].  The tenant keys are
    the slugs that [strings.ToLower] gives with the case tables [lowerCase] of
    the toolchain, also outside ASCII: with tables that lower the Kelvin sign
    (U+212A) to [k], the display name made of the Kelvin sign and [elvin] has
    the key [kelvin], which the round trip returns. *)
Theorem usernameOf_round_trip (lowerCase : Z → Z) :
  (∀ students labName mode,
      getNamespaceNames lowerCase students labName mode
      = tenant_namespace labName <$> tenant_keys lowerCase students mode)
  ∧ (∀ labName key,
        usernameOf labName (tenant_namespace labName key) = key
        ↔ Contains key ("ns-" +:+ labName +:+ "-") = false)
  ∧ (∀ labName key,
        usernameOf labName (tenant_namespace labName key)
        = Replace key ("ns-" +:+ labName +:+ "-") "" (-1))
  ∧ (∀ cluster fuel labName newNamespaces userConfigs userConfigs' log log',
        createUsers cluster fuel labName newNamespaces userConfigs log
        = Some (log', inr userConfigs') →
        dom userConfigs'
        = dom userConfigs
            ∪ (list_to_set (usernameOf labName <$> newNamespaces)
                 : gset string))
  ∧ (tenant_keys lowerCase [mkStudent "1" "Hans Demo Smith" (-1)] true
     = ["hans-demo-smith"]
     ∧ usernameOf "demo" <$>
         getNamespaceNames lowerCase [mkStudent "1" "Hans Demo Smith" (-1)] "demo" true
       = ["hasmith"]
     ∧ ∃ log,
         createLabEnvironment lowerCase
           (demo_cluster (mkDemo [] [] true (Some 1) no_fault)) 2
           [mkStudent "1" "Hans Demo Smith" (-1)] "demo" "true"
           (inr demo_manifest) []
         = Some (log, Returned (inr {[ "hasmith" := "token-of-hasmith-token" ]}))
         ∧ ServiceAccountsCreate "ns-demo-hans-demo-smith"
             (new_account "hasmith" "ns-demo-hans-demo-smith")
           ∈ ev_call <$> log
         ∧ ClusterRoleBindingsCreate
             {| ClusterRoleBinding.APIVersion := "rbac.authorization.k8s.io/v1";
                ClusterRoleBinding.Kind := "ClusterRoleBinding";
                ClusterRoleBinding.Name := "read-namespaces-crb-demo-hasmith";
                ClusterRoleBinding.Namespace := "ns-demo-hans-demo-smith";
                ClusterRoleBinding.Subjects :=
                  [ {| Subject.Kind := "ServiceAccount";
                       Subject.Name := "hasmith";
                       Subject.Namespace := "ns-demo-hans-demo-smith" |} ];
                ClusterRoleBinding.Ref :=
                  {| RoleRef.Kind := "ClusterRole";
                     RoleRef.Name := "read-namespaces-cr";
                     RoleRef.APIGroup := "rbac.authorization.k8s.io" |} |}
           ∈ ev_call <$> log)
  ∧ (lowerCase 8490%Z = 107%Z →
     tenant_keys lowerCase
       [mkStudent "1" (encode_rune 8490 +:+ "elvin") (-1)] true
     = ["kelvin"]
     ∧ usernameOf "demo" <$>
         getNamespaceNames lowerCase
           [mkStudent "1" (encode_rune 8490 +:+ "elvin") (-1)] "demo" true
       = ["kelvin"]).
Proof.
  assert (∀ students labName mode,
      getNamespaceNames lowerCase students labName mode
      = tenant_namespace labName <$> tenant_keys lowerCase students mode)
    as Hnames.
  { intros students labName [|]; unfold tenant_keys.
    - unfold getNamespaceNames. rewrite individual_loop, app_nil_l.
      by rewrite <- list_fmap_compose.
    - rewrite group_mode_names, <- list_fmap_compose.
      apply list_fmap_ext. intros ? g _. apply group_namespace_key. }
  assert (∀ labName key,
        usernameOf labName (tenant_namespace labName key)
        = replace_from ("ns-" +:+ labName +:+ "-") "" (-2) 0 key) as Herase.
  { intros labName key. unfold usernameOf, tenant_namespace, Replace.
    rewrite <- !sapp_assoc. set (old := ("ns-" +:+ labName) +:+ "-").
    assert (old ≠ "") as Hne by done.
    destruct old as [|a o] eqn:Eo; [done|]. rewrite <- Eo.
    replace (String.eqb (String a o) "") with false by done.
    cbn [orb Z.eqb]. by rewrite erase_prefixed. }
  split_and!.
  - done.
  - intros labName key. rewrite Herase. by apply erase_fixed.
  - intros labName key. rewrite Herase. unfold Replace.
    assert ("ns-" +:+ labName +:+ "-" ≠ "") as Hne by done.
    destruct ("ns-" +:+ labName +:+ "-") as [|a o] eqn:Eo; [done|].
    replace (String.eqb (String a o) "") with false by done.
    cbn [orb Z.eqb].
    by apply replace_from_neg.
  - apply createUsers_keys.
  - vm_compute. reflexivity.
  - vm_compute. reflexivity.
  - eexists. split; [vm_compute; reflexivity|].
    split; apply list_elem_of_In; cbn; tauto.
  - intros Hcase.
    assert (tenant_keys lowerCase
              [mkStudent "1" (encode_rune 8490 +:+ "elvin") (-1)] true
            = ["kelvin"]) as Hkey.
    { unfold tenant_keys, slug. cbn [fmap list_fmap student_name].
      rewrite (ToLower_ext lowerCase (λ r, if (r =? 8490)%Z then 107%Z else r)).
      { vm_compute. reflexivity. }
      intros r Hr Hbig. vm_compute in Hr.
      repeat (apply elem_of_cons in Hr as [->|Hr]); try lia;
        [by rewrite Hcase|by apply elem_of_nil in Hr]. }
    split; [done|]. rewrite Hnames, Hkey. vm_compute. reflexivity.
Qed.

(** ** student.go *)

Section Runes.

Lemma rune_width_bounds (c : ascii) (s : string) :
  1 ≤ rune_width (String c s) ≤ 4
  ∧ rune_width (String c s) ≤ String.length (String c s).
Proof.
  unfold rune_width.
  repeat (case_match; cbn [String.length]; try lia).
Qed.

Lemma rune_width_ascii (c : ascii) (s : string) :
  nat_of_ascii c < 128 → rune_width (String c s) = 1.
Proof.
  intros Hc. unfold rune_width.
  by rewrite (proj2 (Nat.ltb_lt _ _) Hc).
Qed.

Lemma slice_from_nil (i : nat) : slice_from i "" = "".
Proof. by destruct i. Qed.

Lemma slice_from_length (i : nat) (s : string) :
  String.length (slice_from i s) = String.length s - i.
Proof.
  revert s. induction i as [|i IH]; intros s; [simpl; lia|].
  destruct s as [|c s]; [done|]. cbn [slice_from String.length]. by rewrite IH.
Qed.

(** The loop passes the bytes of the current rune. *)
Lemma range_offsets_skip (i k : nat) (s : string) :
  range_offsets i k s = range_offsets (i + k) 0 (slice_from k s).
Proof.
  revert i s. induction k as [|k IH]; intros i s.
  - by rewrite Nat.add_0_r.
  - destruct s as [|c s]; [done|]. cbn [range_offsets slice_from].
    rewrite IH. f_equal. lia.
Qed.

Lemma trimLeftChar_slice (s : string) :
  trimLeftChar s = slice_from (rune_width s) s.
Proof.
  unfold trimLeftChar. destruct s as [|c s]; [done|].
  pose proof (rune_width_bounds c s) as [[Hlo Hhi] Hlen].
  cbn [range_offsets List.find Nat.ltb Nat.leb].
  rewrite range_offsets_skip.
  set (w := rune_width (String c s)) in *.
  replace (1 + (w - 1)) with w by lia.
  replace (slice_from w (String c s)) with (slice_from (w - 1) s)
    by (destruct w; [lia|]; cbn [slice_from]; f_equal; lia).
  destruct (slice_from (w - 1) s) as [|d t] eqn:E; [done|].
  cbn [range_offsets List.find].
  replace (0 <? w)%nat with true by (symmetry; apply Nat.ltb_lt; lia).
  rewrite <- E. destruct w; [lia|]. cbn [slice_from]. f_equal. lia.
Qed.

Lemma slice_from_app (p rest : string) :
  slice_from (String.length p) (p +:+ rest) = rest.
Proof. induction p as [|c p IH]; [done|]. by rewrite sapp_cons. Qed.

Lemma slice_from_split (i : nat) (s : string) :
  i ≤ String.length s →
  ∃ first, s = first +:+ slice_from i s ∧ String.length first = i.
Proof.
  revert s. induction i as [|i IH]; intros s Hi.
  - by exists EmptyString.
  - destruct s as [|c s]; [cbn in Hi; lia|].
    destruct (IH s) as (first & E & Hlen); [cbn in Hi; lia|].
    exists (String c first). cbn [slice_from String.length].
    by rewrite sapp_cons, <- E, Hlen.
Qed.

Lemma rune_width_invalid (c : ascii) (s : string) :
  nat_of_ascii c < 194 ∨ 244 < nat_of_ascii c →
  rune_width (String c s) = 1.
Proof.
  intros Hc. unfold rune_width. cbn zeta.
  repeat match goal with
    | |- context [(?a <? ?b)%nat] => destruct (Nat.ltb_spec a b); try lia
    end; done.
Qed.

End Runes.

(** X1. trimLeftChar returns its argument without its first rune, the rune
    that a [range] loop reads first: the result is the slice that starts
    [rune_width s] bytes into [s], so [s] is a first piece of that many bytes
    followed by the result.  A string that starts with the UTF-8 encoding of
    a rune loses exactly the bytes of that encoding, whether one, two, three
    or four; the UTF-8 text of a list of runes loses its first rune.  The
    empty string stays empty; a string that starts with an ASCII byte (such
    as the [#] that NewStudent removes), or with a byte that can start no
    encoding, loses exactly that byte.  So [éa] gives [a], [€uro] gives
    [uro], and a string of the two runes U+1F600 and [!] gives [!]. *)
Theorem trimLeftChar_drops_first_rune :
  (∀ s, trimLeftChar s = slice_from (rune_width s) s)
  ∧ (∀ s,
        ∃ first,
          s = first +:+ trimLeftChar s
          ∧ String.length first = rune_width s
          ∧ String.length first ≤ 4)
  ∧ (∀ r rest, scalar r → trimLeftChar (encode_rune r +:+ rest) = rest)
  ∧ (∀ r runes,
        Forall scalar (r :: runes) →
        trimLeftChar (utf8_text (r :: runes)) = utf8_text runes)
  ∧ trimLeftChar "" = ""
  ∧ (∀ c rest, nat_of_ascii c < 128 → trimLeftChar (String c rest) = rest)
  ∧ (∀ rest, trimLeftChar (String "#" rest) = rest)
  ∧ (∀ c rest,
        nat_of_ascii c < 194 ∨ 244 < nat_of_ascii c →
        trimLeftChar (String c rest) = rest)
  ∧ trimLeftChar "éa" = "a"
  ∧ trimLeftChar "€uro" = "uro"
  ∧ trimLeftChar (encode_rune 128512 +:+ "!") = "!"
  ∧ String.length (encode_rune 128512) = 4.
Proof.
  assert (∀ r rest, scalar r → trimLeftChar (encode_rune r +:+ rest) = rest)
    as Hrune.
  { intros r rest Hr.
    by rewrite trimLeftChar_slice, rune_width_encode, slice_from_app. }
  split_and!.
  - apply trimLeftChar_slice.
  - intros s. rewrite trimLeftChar_slice.
    assert (rune_width s ≤ String.length s ∧ rune_width s ≤ 4) as [Hlen Hw].
    { destruct s as [|c s]; [cbn; lia|].
      pose proof (rune_width_bounds c s). lia. }
    destruct (slice_from_split _ s Hlen) as (first & E & Hfirst).
    exists first. split_and!; [done|done|lia].
  - done.
  - intros r runes [Hr _]%Forall_cons. cbn [utf8_text]. by apply Hrune.
  - done.
  - intros c rest Hc. by rewrite trimLeftChar_slice, rune_width_ascii.
  - intros rest. rewrite trimLeftChar_slice, rune_width_ascii; [done|].
    vm_compute. lia.
  - intros c rest Hc. by rewrite trimLeftChar_slice, rune_width_invalid.
  - vm_compute. reflexivity.
  - vm_compute. reflexivity.
  - vm_compute. reflexivity.
  - vm_compute. reflexivity.
Qed.

Section SplitByte.
Variable sep : ascii.

Lemma Contains_byte_cons (a : ascii) (s : string) :
  Contains (String a s) (String sep "")
  = bool_decide (sep = a) || Contains s (String sep "").
Proof.
  rewrite Contains_cons, prefix_cons, prefix_nil.
  by case_decide; [rewrite bool_decide_eq_true_2|rewrite bool_decide_eq_false_2].
Qed.

Lemma split_byte_cons (a : ascii) (s : string) :
  split_from (String sep "") 0 (String a s)
  = if decide (sep = a) then "" :: split_from (String sep "") 0 s
    else match split_from (String sep "") 0 s with
         | piece :: rest => String a piece :: rest
         | [] => [String a ""]
         end.
Proof.
  cbn [split_from]. rewrite prefix_cons, prefix_nil. by case_decide.
Qed.

(** A string without the separator is its own single piece. *)
Lemma split_byte_absent (s : string) :
  Contains s (String sep "") = false →
  split_from (String sep "") 0 s = [s].
Proof.
  induction s as [|a s IH]; [done|].
  rewrite Contains_byte_cons, split_byte_cons.
  intros [Ha Hs]%orb_false_iff. apply bool_decide_eq_false in Ha.
  rewrite decide_False by done. by rewrite (IH Hs).
Qed.

(** The first piece ends at the first separator. *)
Lemma split_byte_app (a rest : string) :
  Contains a (String sep "") = false →
  split_from (String sep "") 0 (a +:+ String sep rest)
  = a :: split_from (String sep "") 0 rest.
Proof.
  induction a as [|c a IH].
  - intros _. rewrite sapp_nil_l, split_byte_cons. by rewrite decide_True.
  - rewrite Contains_byte_cons. intros [Hc Ha]%orb_false_iff.
    apply bool_decide_eq_false in Hc.
    rewrite sapp_cons, split_byte_cons, decide_False by done.
    by rewrite (IH Ha).
Qed.

Lemma Contains_byte_first (s : string) :
  Contains s (String sep "") = true →
  ∃ a rest, s = a +:+ String sep rest ∧ Contains a (String sep "") = false.
Proof.
  induction s as [|c s IH]; [done|].
  rewrite Contains_byte_cons. destruct (decide (sep = c)) as [<-|Hne].
  - intros _. by exists "", s.
  - rewrite bool_decide_eq_false_2 by done. cbn [orb]. intros Hs.
    destruct (IH Hs) as (a & rest & -> & Ha). exists (String c a), rest.
    split; [done|]. rewrite Contains_byte_cons, Ha.
    by rewrite bool_decide_eq_false_2.
Qed.

(** There is a second piece exactly when the separator occurs. *)
Lemma split_byte_second (s : string) :
  is_Some (split_from (String sep "") 0 s !! 1) ↔
  Contains s (String sep "") = true.
Proof.
  split.
  - destruct (Contains s (String sep "")) eqn:Hc; [done|].
    rewrite (split_byte_absent _ Hc). by intros [? ?].
  - intros (a & rest & -> & Ha)%Contains_byte_first.
    rewrite (split_byte_app _ _ Ha).
    destruct (split_from_cons (String sep "") 0 rest) as (p & r & ->).
    by eexists.
Qed.

End SplitByte.

Section Decimal.

Lemma string_of_uint_no_byte (c : ascii) (d : Decimal.uint) :
  nat_of_ascii c < 48 →
  Contains (NilEmpty.string_of_uint d) (String c "") = false.
Proof.
  intros Hc.
  assert (∀ a, 48 ≤ nat_of_ascii a → bool_decide (c = a) = false) as Hne.
  { intros a Ha. apply bool_decide_eq_false. intros ->. lia. }
  induction d; cbn [NilEmpty.string_of_uint]; [done|..];
    rewrite Contains_byte_cons, IHd, Hne; done || (vm_compute; lia).
Qed.

(** The decimal form of a number holds no space. *)
Lemma itoa_no_space (z : Z) : Contains (itoa z) " " = false.
Proof.
  assert (∀ d, Contains (NilZero.string_of_uint d) " " = false) as Hu.
  { intros d. unfold NilZero.string_of_uint.
    destruct d; try done;
      apply (string_of_uint_no_byte " "); vm_compute; lia. }
  unfold itoa, NilZero.string_of_int.
  destruct (Z.to_int z); [apply Hu|].
  rewrite Contains_byte_cons, Hu. done.
Qed.

Lemma itoa_head (z : Z) : ∃ c s, itoa z = String c s ∧ c ≠ "+"%char.
Proof.
  unfold itoa, NilZero.string_of_int, NilZero.string_of_uint.
  destruct (Z.to_int z) as [d|d]; destruct d; cbn; by eauto.
Qed.

(** Atoi reads back what [%d] prints. *)
Lemma Atoi_itoa (z : Z) : is_int z → Atoi (itoa z) = Ok z.
Proof.
  intros Hz. unfold Atoi.
  assert (parse_decimal (itoa z) = Some z) as ->.
  { destruct (itoa_head z) as (c & s & E & Hc). unfold parse_decimal.
    rewrite E. rewrite <- E.
    assert (NilZero.int_of_string (itoa z) = Some (Z.to_int z)) as Hisi.
    { unfold itoa. apply NilZero.isi; destruct z; simpl; try discriminate;
        intros [= H]; by apply DecimalPos.Unsigned.to_uint_nonnil in H. }
    destruct c as [[] [] [] [] [] [] [] []];
      try (by rewrite Hisi; cbn; rewrite DecimalZ.of_to).
    done. }
  unfold is_int in Hz.
  destruct (Z.leb_spec (- 2 ^ 63) z); [|lia].
  destruct (Z.ltb_spec z (2 ^ 63)); [done|lia].
Qed.

End Decimal.

Section NewStudentFacts.

Lemma unhash_other (c : ascii) (s : string) :
  c ≠ "#"%char → unhash (String c s) = String c s.
Proof. intros Hc. by destruct c as [[] [] [] [] [] [] [] []]. Qed.

(** The two trimming steps of NewStudent. *)
Lemma trim_unhash (c : ascii) (s : string) :
  (if Ascii.eqb c "#" then trimLeftChar (String c s) else String c s)
  = unhash (String c s).
Proof.
  destruct (Ascii.eqb_spec c "#") as [->|Hc].
  - rewrite trimLeftChar_slice, rune_width_ascii; [done|]. vm_compute. lia.
  - by rewrite unhash_other.
Qed.

Lemma NewStudent_fields (id name label : string) (rest : list string) :
  NewStudent (id :: name :: label :: rest)
  = match id, name, split_from " " 0 label !! 1 with
    | String _ _, String _ _, Some groupStr =>
        Returned (mkStudent (unhash id) (unhash name) (group_of_word groupStr))
    | _, _, _ => Panicked
    end.
Proof.
  unfold NewStudent. cbn [lookup list_lookup].
  destruct id as [|c id]; [done|]. destruct name as [|d name]; [done|].
  rewrite !trim_unhash. unfold Split.
  destruct (split_from " " 0 label !! 1) as [groupStr|]; [|done].
  unfold group_of_word. by destruct (Atoi groupStr).
Qed.

Lemma NewStudent_short (csvRow : list string) :
  length csvRow < 3 → NewStudent csvRow = Panicked.
Proof.
  intros Hlen. destruct csvRow as [|id [|name [|label rest]]];
    [done| | |cbn in Hlen; lia].
  - unfold NewStudent. cbn [lookup list_lookup]. by destruct id.
  - unfold NewStudent. cbn [lookup list_lookup].
    destruct id; [done|]. by destruct name.
Qed.

Lemma readStudents_returns (reader : list (list string * option string))
    (acc students : list Student) :
  readStudents reader acc = Returned students
  ↔ ∃ new,
      students = acc ++ new
      ∧ Forall2 (λ rec st, NewStudent rec.1 = Returned st) reader new.
Proof.
  revert acc. induction reader as [|[row err] reader IH]; intros acc.
  - cbn [readStudents]. split.
    + intros [= <-]. exists []. by rewrite app_nil_r.
    + intros (new & -> & ->%Forall2_nil_inv_l). by rewrite app_nil_r.
  - cbn [readStudents]. destruct (NewStudent row) as [s|] eqn:Hrow.
    + rewrite IH. split.
      * intros (new & -> & Hnew). exists (s :: new).
        rewrite <- app_assoc. split; [done|]. by constructor.
      * intros (new & -> & Hnew).
        apply Forall2_cons_inv_l in Hnew as (s' & new' & Hs & Hnew & ->).
        cbn in Hs. rewrite Hrow in Hs. simplify_eq.
        exists new'. by rewrite <- app_assoc.
    + split; [done|]. intros (new & _ & Hnew).
      apply Forall2_cons_inv_l in Hnew as (s' & new' & Hs & _).
      cbn in Hs. congruence.
Qed.

End NewStudentFacts.

(** X2. NewStudent returns exactly for a row with at least three fields
    whose first two are not empty and whose third holds a space; it panics on
    every other row.  The student it returns has the first two fields without
    a leading [#], and as group the number that the second word of the third
    field spells, [-1] when that word is not a number of the [int] range. *)
Theorem NewStudent_returns (csvRow : list string) :
  (∀ st,
      NewStudent csvRow = Returned st
      ↔ ∃ id name label rest groupStr,
          csvRow = id :: name :: label :: rest
          ∧ id ≠ "" ∧ name ≠ ""
          ∧ Split label " " !! 1 = Some groupStr
          ∧ st = mkStudent (unhash id) (unhash name)
                   (match Atoi groupStr with
                    | Ok group => group
                    | Fail _ => -1
                    end))
  ∧ (NewStudent csvRow = Panicked
     ↔ length csvRow < 3
       ∨ csvRow !! 0 = Some ""
       ∨ csvRow !! 1 = Some ""
       ∨ ∃ label, csvRow !! 2 = Some label ∧ Contains label " " = false).
Proof.
  destruct csvRow as [|id [|name [|label rest]]].
  1-3: (rewrite NewStudent_short by (cbn; lia);
        split;
          [intros st; split; [intros [=]|by intros (?&?&?&?&?&[=]&_)]
          |split; [intros _; left; cbn; lia|done]]).
  rewrite NewStudent_fields.
  split.
  - intros st. split.
    + destruct id as [|c id]; [done|]. destruct name as [|d name]; [done|].
      destruct (split_from " " 0 label !! 1) as [groupStr|] eqn:Hs; [|done].
      intros [= <-]. by eexists _, _, _, _, groupStr.
    + intros (id' & name' & label' & rest' & groupStr & [= <- <- <- <-]
              & Hid & Hname & Hs & ->).
      unfold Split in Hs. rewrite Hs.
      destruct id; [done|]. by destruct name.
  - cbn [length lookup list_lookup]. split.
    + destruct id as [|c id]; [by auto|].
      destruct name as [|d name]; [by auto|].
      destruct (split_from " " 0 label !! 1) as [groupStr|] eqn:Hs; [done|].
      intros _. do 3 right. exists label. split; [done|].
      destruct (Contains label " ") eqn:Hc; [|done].
      apply (split_byte_second " " label) in Hc. rewrite Hs in Hc.
      by destruct Hc.
    + intros [?|[[= ->]|[[= ->]|(l & [= <-] & Hc)]]]; [lia|done| |].
      * by destruct id.
      * destruct (split_from " " 0 label !! 1) as [groupStr|] eqn:Hs.
        -- assert (Contains label " " = true)
             by (apply (split_byte_second " " label); eauto).
           congruence.
        -- destruct id; [done|]. by destruct name.
Qed.

Lemma readStudents_panics (reader : list (list string * option string))
    (acc : list Student) :
  readStudents reader acc = Panicked
  ↔ ∃ rec, rec ∈ reader ∧ NewStudent rec.1 = Panicked.
Proof.
  revert acc. induction reader as [|[row err] reader IH]; intros acc.
  - cbn. split; [done|]. by intros (rec & ?%elem_of_nil & _).
  - cbn [readStudents]. destruct (NewStudent row) as [s|] eqn:Hrow.
    + rewrite IH. split.
      * intros (rec & Hin & Hp). exists rec. split; [by right|done].
      * intros (rec & [->|Hin]%elem_of_cons & Hp).
        -- cbn in Hp. congruence.
        -- by exists rec.
    + split; [|done]. intros _. exists (row, err). split; [by left|done].
Qed.

(** X3. getStudentsFromCsv drops the first record and turns every later
    record into a student, in order, whether or not the reader reported an
    error with it; it returns exactly when NewStudent returns for each of these
    records and panics exactly when NewStudent panics on one of them; an empty
    file gives no student. *)
Theorem getStudentsFromCsv_returns
    (reader : list (list string * option string)) (students : list Student) :
  (getStudentsFromCsv reader = Returned students
   ↔ Forall2 (λ rec st, NewStudent rec.1 = Returned st) (tail reader) students)
  ∧ (getStudentsFromCsv reader = Panicked
     ↔ ∃ rec, rec ∈ tail reader ∧ NewStudent rec.1 = Panicked)
  ∧ getStudentsFromCsv [] = Returned []
  ∧ (getStudentsFromCsv reader = Returned students →
     length students = length reader - 1).
Proof.
  assert (getStudentsFromCsv reader = Returned students
          ↔ Forall2 (λ rec st, NewStudent rec.1 = Returned st)
              (tail reader) students) as Hiff.
  { destruct reader as [|header reader]; cbn [getStudentsFromCsv tail].
    - split; [intros [= <-]; constructor|by intros ->%Forall2_nil_inv_l].
    - rewrite readStudents_returns. split.
      + by intros (new & -> & Hnew).
      + intros Hnew. by exists students. }
  split_and!; [done| |done|].
  - destruct reader as [|header reader]; cbn [getStudentsFromCsv tail].
    + split; [done|]. by intros (rec & ?%elem_of_nil & _).
    + apply readStudents_panics.
  - intros H%Hiff. apply Forall2_length in H. rewrite <- H.
    destruct reader; cbn; lia.
Qed.

Lemma NewStudent_group_record (id name : string) (g : Z) :
  id ≠ "" → name ≠ "" → is_int g →
  NewStudent (group_record (id, name, g)).1
  = Returned (mkStudent (unhash id) (unhash name) g).
Proof.
  intros Hid Hname Hg. cbn [group_record fst snd]. rewrite NewStudent_fields.
  change ("Group " +:+ itoa g) with ("Group" +:+ String " " (itoa g)).
  rewrite (split_byte_app " " "Group" (itoa g)) by done.
  rewrite (split_byte_absent " " _ (itoa_no_space g)).
  cbn [lookup list_lookup]. unfold group_of_word. rewrite (Atoi_itoa g Hg).
  destruct id; [done|]. by destruct name.
Qed.

(** X4. From the roster file to the namespaces of the groups: for a file
    with a header and one record per entry, each with a non-empty id and name
    and the label [Group <g>] for a number [g] of the [int] range,
    getStudentsFromCsv returns the entries in order with these group numbers,
    and getNamespaceNames in group mode gives [ns-<labName>-group-<g>] for the
    distinct numbers other than [-1], in first-seen order. *)
Theorem roster_groups_to_namespaces (lowerCase : Z → Z)
    (header : list string * option string)
    (entries : list (string * string * Z)) (labName : string) :
  Forall (λ entry, entry.1.1 ≠ "" ∧ entry.1.2 ≠ "" ∧ is_int entry.2) entries →
  ∃ students,
    getStudentsFromCsv (header :: (group_record <$> entries))
    = Returned students
    ∧ students
      = (λ entry, mkStudent (unhash entry.1.1) (unhash entry.1.2) entry.2)
          <$> entries
    ∧ getNamespaceNames lowerCase students labName false
      = (λ g, "ns-" +:+ labName +:+ "-group-" +:+ itoa g)
          <$> filter (λ g, g ≠ (-1)%Z) (first_seen (snd <$> entries)).
Proof.
  intros Hentries. eexists. split_and!; [|reflexivity|].
  - cbn [getStudentsFromCsv]. apply readStudents_returns.
    eexists. split; [reflexivity|].
    induction Hentries as [|[[id name] g] entries (Hid & Hname & Hg) _ IH];
      [constructor|].
    rewrite !fmap_cons. constructor; [|done].
    by apply NewStudent_group_record.
  - rewrite group_mode_names. unfold distinct_groups, group_namespace.
    by rewrite <- list_fmap_compose.
Qed.

Lemma roster_groups_to_namespaces_witness :
  ∃ students,
    getStudentsFromCsv
      (([ "OrgDefinedId"; "Username"; "Group" ], None)
         :: (group_record
               <$> [("#101", "#Jane Doe", 1%Z); ("#102", "John Roe", 1%Z);
                    ("#103", "Ann Poe", 2%Z)]))
    = Returned students
    ∧ students
      = [mkStudent "101" "Jane Doe" 1; mkStudent "102" "John Roe" 1;
         mkStudent "103" "Ann Poe" 2]
    ∧ getNamespaceNames demo_case students "demo" false
      = ["ns-demo-group-1"; "ns-demo-group-2"].
Proof.
  destruct (roster_groups_to_namespaces demo_case
              ([ "OrgDefinedId"; "Username"; "Group" ], None)
              [("#101", "#Jane Doe", 1%Z); ("#102", "John Roe", 1%Z);
               ("#103", "Ann Poe", 2%Z)] "demo")
    as (students & Hread & Hstudents & Hnames).
  - repeat constructor; cbn; try done; unfold is_int; lia.
  - exists students. split_and!; [exact Hread| |].
    + rewrite Hstudents. reflexivity.
    + rewrite Hnames. vm_compute. reflexivity.
Defined.

(** ** The form files of a request *)

Section FormFileFacts.
Context {File : Type}.

(** The loop that builds the list of the supported types is
    [strings.Join] with the separator [", "]. *)
Lemma contentTypesStr_Join (before first : string) (others : list string) :
  foldl (λ contentTypesStr contentType,
           (contentTypesStr +:+ ", ") +:+ contentType)
    (before +:+ first) others
  = before +:+ Join (first :: others) ", ".
Proof.
  revert before first. induction others as [|next others IH];
    intros before first; [done|].
  cbn [foldl]. rewrite Join_cons_cons.
  rewrite (sapp_assoc before first ", "), IH.
  by rewrite !sapp_assoc.
Qed.

Lemma contentTypeMatches_value (value : string)
    (header contentTypes : list string) :
  contentTypeMatches (value :: header) contentTypes
  = Returned (bool_decide (value ∈ contentTypes)).
Proof.
  induction contentTypes as [|contentType contentTypes IH].
  - cbn. by rewrite bool_decide_eq_false_2 by apply not_elem_of_nil.
  - cbn [contentTypeMatches lookup list_lookup].
    destruct (String.eqb_spec value contentType) as [->|Hne].
    + f_equal. symmetry. apply bool_decide_eq_true_2.
      apply elem_of_cons. by left.
    + rewrite IH. f_equal. apply bool_decide_ext.
      rewrite elem_of_cons. tauto.
Qed.

(** X5. getFormFile: without the file in the request it returns the status
    400 with the message [Something went wrong while reading file
    <filename>]; with the file, it panics when no supported type is given or
    the file has no Content-Type value, and otherwise returns the file
    exactly when the first Content-Type value is one of the supported types,
    and else the status 415 with the message
    [<filename> must be one of <types joined by ", "> types].  The later
    Content-Type values are never read. *)
Theorem getFormFile_content_type (formFile : Result (File * list string))
    (filename : string) (contentTypes : list string) :
  getFormFile formFile filename contentTypes
  = match formFile, contentTypes with
    | Fail _, _ =>
        Returned
          (inr (http_Error
                  ("Something went wrong while reading file " +:+ filename)
                  StatusBadRequest))
    | Ok _, [] => Panicked
    | Ok (_, []), _ :: _ => Panicked
    | Ok (file, value :: _), _ :: _ =>
        if bool_decide (value ∈ contentTypes) then Returned (inl file)
        else Returned
               (inr (http_Error
                       (filename +:+ " must be one of "
                          +:+ Join contentTypes ", " +:+ " types")
                       StatusUnsupportedMediaType))
    end.
Proof.
  destruct formFile as [[file header]|err]; [|done].
  destruct contentTypes as [|first others].
  { by destruct header. }
  destruct header as [|value header]; [done|].
  unfold getFormFile. rewrite contentTypeMatches_value.
  destruct (bool_decide _); [done|].
  cbn zeta. change first with ("" +:+ first) at 1.
  rewrite contentTypesStr_Join, sapp_nil_l. by rewrite !sapp_assoc.
Qed.

End FormFileFacts.

(** X13. studentsMiddleware runs the next handler only for an upload whose
    first Content-Type value is exactly [text/csv] and whose roster parses,
    and hands it the students of getStudentsFromCsv.  Without the file it
    answers 400; with another first Content-Type value (for instance one with
    a charset parameter) it answers 415 with the message
    [students must be one of text/csv types]; it panics when the file has no
    Content-Type value or when a record of the roster makes NewStudent
    panic. *)
Theorem studentsMiddleware_outcome {A : Type} (next : list Student → A)
    (formFile : Result (list (list string * option string) * list string)) :
  studentsMiddleware next formFile
  = match formFile with
    | Fail _ =>
        Returned
          (inl (http_Error "Something went wrong while reading file students"
                  StatusBadRequest))
    | Ok (_, []) => Panicked
    | Ok (studentsFile, value :: _) =>
        if decide (value = "text/csv")
        then match getStudentsFromCsv studentsFile with
             | Returned students => Returned (inr (next students))
             | Panicked => Panicked
             end
        else Returned
               (inl (http_Error "students must be one of text/csv types"
                       StatusUnsupportedMediaType))
    end.
Proof.
  unfold studentsMiddleware.
  destruct formFile as [[studentsFile [|value header]]|err]; [done| |done].
  unfold getFormFile. rewrite contentTypeMatches_value.
  case_decide as Hvalue.
  - subst value. by rewrite bool_decide_eq_true_2 by (by left).
  - rewrite bool_decide_eq_false_2; [done|].
    by intros ->%list_elem_of_singleton.
Qed.

(** ** Runs of cluster calls *)

Section Runs.
Context (P : Call → Prop).

Lemma clean_nil : clean [].
Proof. constructor. Qed.

Lemma clean_app (a b : Log) : clean a → clean b → clean (a ++ b).
Proof. apply Forall_app_2. Qed.

Lemma stopped_app (a b : Log) : clean a → stopped b → stopped (a ++ b).
Proof.
  intros Ha (before & c & e & -> & Hb). exists (a ++ before), c, e.
  rewrite app_assoc. split; [done|by apply clean_app].
Qed.

Lemma run_nil (log : Log) : run P log log true.
Proof. exists []. rewrite app_nil_r. split_and!; [done|constructor..]. Qed.

Lemma run_call (c : Call) (err : option error) (log : Log) :
  P c → run P log (log ++ [mkEvent c err]) (no_error err).
Proof.
  intros Hc. exists [mkEvent c err]. split_and!; [done|by constructor|].
  destruct err as [e|]; cbn.
  - exists [], c, e. split; [done|constructor].
  - by repeat constructor.
Qed.

Lemma run_seq (log log1 log2 : Log) (ok : bool) :
  run P log log1 true → run P log1 log2 ok → run P log log2 ok.
Proof.
  intros (ev1 & -> & H1 & C1) (ev2 & -> & H2 & C2). exists (ev1 ++ ev2).
  rewrite app_assoc. split_and!; [done|by apply Forall_app_2|].
  destruct ok; [by apply clean_app|by apply stopped_app].
Qed.

End Runs.

Lemma run_impl (P Q : Call → Prop) (log log' : Log) (ok : bool) :
  (∀ c, P c → Q c) → run P log log' ok → run Q log log' ok.
Proof.
  intros HPQ (events & -> & H & C). exists events. split_and!; [done| |done].
  eapply Forall_impl; [exact H|]. intros ev. apply HPQ.
Qed.

(** ** The helpers, one call each *)

Section HelperRuns.
Variable cluster : Cluster.
Context (P : Call → Prop).

Lemma namespaceExists_run (name : string) (log : Log) :
  P NamespacesList →
  run P log (namespaceExists cluster name log).1
    (no_error (namespaceExists cluster name log).2.2).
Proof.
  intros HP. unfold namespaceExists, clientset.Namespaces_List. cbn zeta.
  pose proof (run_call P NamespacesList
                (result_err (namespaces_list cluster log)) log HP) as H.
  by destruct (namespaces_list cluster log).
Qed.

Lemma createNamespace_run (name : string) (log : Log) :
  P (NamespacesCreate name) →
  run P log (createNamespace cluster name log).1
    (no_error (createNamespace cluster name log).2).
Proof.
  intros HP. unfold createNamespace, clientset.Namespaces_Create. cbn zeta.
  pose proof (run_call P (NamespacesCreate name)
                (namespaces_create cluster log name) log HP) as H.
  by destruct (namespaces_create cluster log name).
Qed.

Lemma createRole_run (namespace : string) (verbs : list string) (log : Log) :
  P (RolesCreate namespace (student_role namespace verbs)) →
  run P log (createRole cluster "student" namespace verbs log).1
    (no_error (createRole cluster "student" namespace verbs log).2).
Proof.
  intros HP. unfold createRole, clientset.Roles_Create. cbn zeta.
  pose proof (run_call P _
                (roles_create cluster log namespace
                   (student_role namespace verbs)) log HP) as H.
  unfold student_role in H.
  by destruct (roles_create cluster log namespace _).
Qed.

Lemma createRoleBinding_run (name namespace username userNamespace : string)
    (log : Log) :
  P (RoleBindingsCreate namespace
       (student_binding name namespace username userNamespace)) →
  run P log
    (createRoleBinding cluster name namespace username userNamespace
       "student" log).1
    (no_error
       (createRoleBinding cluster name namespace username userNamespace
          "student" log).2).
Proof.
  intros HP. unfold createRoleBinding, clientset.RoleBindings_Create.
  cbn zeta.
  pose proof (run_call P _
                (rolebindings_create cluster log namespace
                   (student_binding name namespace username userNamespace))
                log HP) as H.
  unfold student_binding in H.
  by destruct (rolebindings_create cluster log namespace _).
Qed.

Lemma createReadNamespacesClusterRoleBinding_run
    (labName username namespace : string) (log : Log) :
  P (ClusterRoleBindingsCreate
       (read_namespaces_crb labName username namespace)) →
  run P log
    (createReadNamespacesClusterRoleBinding cluster labName username
       namespace log).1
    (no_error
       (createReadNamespacesClusterRoleBinding cluster labName username
          namespace log).2).
Proof.
  intros HP.
  unfold createReadNamespacesClusterRoleBinding,
    clientset.ClusterRoleBindings_Create.
  cbn zeta.
  pose proof (run_call P _
                (clusterrolebindings_create cluster log
                   (read_namespaces_crb labName username namespace))
                log HP) as H.
  unfold read_namespaces_crb in H.
  by destruct (clusterrolebindings_create cluster log _).
Qed.

Lemma awaitSecrets_run (fuel : nat) (namespace : string)
    (serviceAccount : ServiceAccount.t) (log log' : Log)
    (r : Result ServiceAccount.t) :
  (∀ name, P (ServiceAccountsGet namespace name)) →
  awaitSecrets cluster fuel namespace serviceAccount log = Some (log', r) →
  run P log log' (no_error (result_err r)).
Proof.
  intros HP. revert serviceAccount log.
  induction fuel as [|fuel IH]; intros serviceAccount log H; [done|].
  cbn [awaitSecrets] in H. unfold clientset.ServiceAccounts_Get in H.
  cbn zeta in H.
  pose proof (run_call P _
                (result_err
                   (serviceaccounts_get cluster log namespace
                      (ServiceAccount.Name serviceAccount)))
                log (HP (ServiceAccount.Name serviceAccount))) as Hcall.
  destruct (serviceaccounts_get cluster log namespace _) as [sa|e].
  - destruct (0 <? length (ServiceAccount.Secrets sa))%nat.
    + by simplify_eq.
    + eapply run_seq; [exact Hcall|]. by eapply IH.
  - by simplify_eq.
Qed.

Lemma createServiceAccount_run (fuel : nat) (username namespace : string)
    (log log' : Log) (token : string) (err : option error) :
  P (ServiceAccountsCreate namespace (new_account username namespace)) →
  (∀ name, P (ServiceAccountsGet namespace name)) →
  (∀ name, P (SecretsGet namespace name)) →
  createServiceAccount cluster fuel username namespace log
  = Some (log', (token, err)) →
  run P log log' (no_error err).
Proof.
  intros Hcreate Hget Hsecret H.
  unfold createServiceAccount, clientset.ServiceAccounts_Create in H.
  cbn zeta in H. fold (new_account username namespace) in H.
  pose proof (run_call P _
                (result_err
                   (serviceaccounts_create cluster log namespace
                      (new_account username namespace)))
                log Hcreate) as Hcall.
  destruct (serviceaccounts_create cluster log namespace _) as [sa|e].
  2:{ by simplify_eq. }
  destruct (awaitSecrets cluster fuel namespace sa _)
    as [[log1 [sa'|e]]|] eqn:Hawait; [| |done].
  - apply (awaitSecrets_run _ _ _ _ _ _ Hget) in Hawait.
    unfold clientset.Secrets_Get in H. cbn zeta in H.
    pose proof (run_call P _
                  (result_err
                     (secrets_get cluster log1 namespace
                        (hd "" (ServiceAccount.Secrets sa'))))
                  log1 (Hsecret (hd "" (ServiceAccount.Secrets sa'))))
      as Hcall'.
    destruct (secrets_get cluster log1 namespace _) as [secret|e];
      simplify_eq; (eapply run_seq; [exact Hcall|]);
      (eapply run_seq; [exact Hawait|]); exact Hcall'.
  - apply (awaitSecrets_run _ _ _ _ _ _ Hget) in Hawait. simplify_eq.
    eapply run_seq; [exact Hcall|]. exact Hawait.
Qed.

End HelperRuns.

(** ** The loops of createLabEnvironment *)

Section LoopRuns.
Variable cluster : Cluster.
Context (P : Call → Prop).

Lemma createNamespaces_run (namespaces newNamespaces : list string)
    (log : Log) :
  P NamespacesList →
  (∀ namespace, namespace ∈ namespaces → P (NamespacesCreate namespace)) →
  run P log (createNamespaces cluster namespaces newNamespaces log).1
    (is_right (createNamespaces cluster namespaces newNamespaces log).2).
Proof.
  intros Hlist. revert newNamespaces log.
  induction namespaces as [|namespace namespaces IH];
    intros newNamespaces log Hcreate; [apply run_nil|].
  cbn [createNamespaces].
  pose proof (namespaceExists_run cluster P namespace log Hlist) as Hexists.
  destruct (namespaceExists cluster namespace log)
    as [log1 [namespaceExists [e|]]]; [done|].
  cbn [fst snd no_error] in Hexists.
  assert (∀ acc log,
            run P log (createNamespaces cluster namespaces acc log).1
              (is_right (createNamespaces cluster namespaces acc log).2))
    as IH'.
  { intros acc log0. apply IH. intros n Hn. apply Hcreate. by right. }
  destruct namespaceExists.
  { eapply run_seq; [exact Hexists|]. apply IH'. }
  pose proof (createNamespace_run cluster P namespace log1
                (Hcreate namespace ltac:(by left))) as Hnew.
  destruct (createNamespace cluster namespace log1) as [log2 [e|]];
    cbn [fst snd no_error] in Hnew.
  - eapply run_seq; [exact Hexists|]. exact Hnew.
  - eapply run_seq; [exact Hexists|].
    eapply run_seq; [exact Hnew|]. apply IH'.
Qed.

(** The new namespaces are requested ones. *)
Lemma createNamespaces_new (namespaces newNamespaces new : list string)
    (log : Log) :
  (createNamespaces cluster namespaces newNamespaces log).2 = inr new →
  ∀ namespace,
    namespace ∈ new → namespace ∈ newNamespaces ∨ namespace ∈ namespaces.
Proof.
  revert newNamespaces log.
  induction namespaces as [|namespace namespaces IH];
    intros newNamespaces log H n Hn.
  - cbn in H. simplify_eq. by left.
  - cbn [createNamespaces] in H.
    destruct (namespaceExists cluster namespace log)
      as [log1 [namespaceExists [e|]]]; [done|].
    destruct namespaceExists.
    { destruct (IH _ _ H n Hn) as [?|?]; [by left|right; by right]. }
    destruct (createNamespace cluster namespace log1) as [log2 [e|]];
      [done|].
    destruct (IH _ _ H n Hn) as [[?| ->%list_elem_of_singleton]%elem_of_app|?].
    + by left.
    + right. by left.
    + right. by right.
Qed.

Lemma createNamespaces_status (namespaces newNamespaces : list string)
    (log log' : Log) (e : HttpError) :
  createNamespaces cluster namespaces newNamespaces log = (log', inl e) →
  http_status e = StatusInternalServerError.
Proof.
  revert newNamespaces log.
  induction namespaces as [|namespace namespaces IH];
    intros newNamespaces log; [done|].
  cbn [createNamespaces].
  destruct (namespaceExists cluster namespace log)
    as [log1 [namespaceExists [e'|]]]; [by intros [= <- <-]|].
  destruct namespaceExists; [apply IH|].
  destruct (createNamespace cluster namespace log1) as [log2 [e'|]];
    [by intros [= <- <-]|apply IH].
Qed.

Lemma createUsers_run (fuel : nat) (labName : string)
    (newNamespaces : list string) (userConfigs : gmap string string)
    (log log' : Log) (r : HttpError + gmap string string) :
  (∀ namespace c,
     namespace ∈ newNamespaces → tenant_call labName namespace c → P c) →
  createUsers cluster fuel labName newNamespaces userConfigs log
  = Some (log', r) →
  run P log log' (is_right r)
  ∧ ∀ e, r = inl e → http_status e = StatusInternalServerError.
Proof.
  revert userConfigs log.
  induction newNamespaces as [|namespace newNamespaces IH];
    intros userConfigs log HP H.
  { cbn in H. simplify_eq. split; [apply run_nil|done]. }
  cbn [createUsers] in H. fold (usernameOf labName namespace) in H.
  set (username := usernameOf labName namespace) in *.
  assert (∀ c, tenant_call labName namespace c → P c) as Hc.
  { intros c. apply HP. by left. }
  destruct (createServiceAccount cluster fuel username namespace log)
    as [[log1 [token err]]|] eqn:Haccount; [|done].
  apply (createServiceAccount_run cluster P fuel username namespace)
    in Haccount; [|(intros; apply Hc; by cbn)..].
  destruct err as [e|]; cbn [no_error] in Haccount.
  { simplify_eq. split; [done|by intros ? [= <-]]. }
  pose proof (createRole_run cluster P namespace ["*"] log1
                ltac:(apply Hc; by cbn)) as Hrole.
  destruct (createRole cluster "student" namespace ["*"] log1)
    as [log2 [e|]]; cbn [fst snd no_error] in Hrole.
  { simplify_eq. split; [|by intros ? [= <-]]. eapply run_seq; [exact Haccount|done]. }
  pose proof (createRoleBinding_run cluster P "student-binding" namespace
                username namespace log2
                ltac:(apply Hc; cbn; by left)) as Hown.
  destruct (createRoleBinding cluster "student-binding" namespace username
              namespace "student" log2)
    as [log3 [e|]]; cbn [fst snd no_error] in Hown.
  { simplify_eq. split; [|by intros ? [= <-]].
    eapply run_seq; [exact Haccount|]. eapply run_seq; [exact Hrole|done]. }
  pose proof (createRoleBinding_run cluster P
                ("student-binding-" +:+ username) ("ns-" +:+ labName)
                username namespace log3
                ltac:(apply Hc; cbn; by right)) as Hshared.
  destruct (createRoleBinding cluster ("student-binding-" +:+ username)
              ("ns-" +:+ labName) username namespace "student" log3)
    as [log4 [e|]]; cbn [fst snd no_error] in Hshared.
  { simplify_eq. split; [|by intros ? [= <-]].
    eapply run_seq; [exact Haccount|]. eapply run_seq; [exact Hrole|].
    eapply run_seq; [exact Hown|done]. }
  pose proof (createReadNamespacesClusterRoleBinding_run cluster P labName
                username namespace log4 ltac:(apply Hc; by cbn)) as Hcluster.
  destruct (createReadNamespacesClusterRoleBinding cluster labName username
              namespace log4)
    as [log5 [e|]]; cbn [fst snd no_error] in Hcluster.
  { simplify_eq. split; [|by intros ? [= <-]].
    eapply run_seq; [exact Haccount|]. eapply run_seq; [exact Hrole|].
    eapply run_seq; [exact Hown|]. eapply run_seq; [exact Hshared|done]. }
  apply IH in H as [Hrest Hstatus].
  2:{ intros ns c Hns. apply HP. by right. }
  split; [|exact Hstatus].
  eapply run_seq; [exact Haccount|]. eapply run_seq; [exact Hrole|].
  eapply run_seq; [exact Hown|]. eapply run_seq; [exact Hshared|].
  eapply run_seq; [exact Hcluster|done].
Qed.

End LoopRuns.

(** ** The loops of handleManifest *)

Lemma lookup_failed_stopped (cluster : Cluster) (events : Log) (err : error) :
  lookup_failed cluster events err → stopped events.
Proof. intros (before & gvk & log & -> & Hb & _). by exists before, (RESTMapping gvk), err. Qed.

Lemma lookup_failed_app (cluster : Cluster) (a b : Log) (err : error) :
  clean a → lookup_failed cluster b err → lookup_failed cluster (a ++ b) err.
Proof.
  intros Ha (before & gvk & log & -> & Hb & Hl).
  exists (a ++ before), gvk, log. rewrite app_assoc.
  split_and!; [done|by apply clean_app|done].
Qed.

Lemma loop_events_app (cluster : Cluster) (a b : Log) (exit : loop_exit) :
  clean a → loop_events cluster b exit → loop_events cluster (a ++ b) exit.
Proof.
  intros Ha. destruct exit as [err|err|]; cbn.
  - intros [?|?]; [left; by apply clean_app|right; by apply lookup_failed_app].
  - by apply stopped_app.
  - by apply clean_app.
Qed.

Ltac calls_hold :=
  repeat first [apply Forall_nil_2 | apply Forall_cons_2; [cbn; eauto|]];
  try done.

Section ManifestRuns.
Variable cluster : Cluster.
Context (P : Call → Prop).
Hypothesis lookups : ∀ gvk, P (RESTMapping gvk).

Lemma createSingleInstances_events (labName : string)
    (decoder : list decoded) (log : Log) :
  (∀ resource object metadata,
     object !! "metadata" = Some (VMap metadata) →
     P (DynamicCreate resource ("ns-" +:+ labName)
          (SetNamespace ("ns-" +:+ labName) object))) →
  ∃ events,
    (createSingleInstances cluster labName decoder log).1 = log ++ events
    ∧ Forall (λ ev, P (ev_call ev)) events
    ∧ loop_events cluster events
        (createSingleInstances cluster labName decoder log).2.
Proof.
  intros Hcreate. revert log.
  induction decoder as [|doc decoder IH]; intros log.
  { exists []. rewrite app_nil_r. cbn. split_and!; [done|constructor|].
    left. constructor. }
  cbn [createSingleInstances head]. destruct doc as [object gvk|msg].
  2:{ exists []. rewrite app_nil_r. cbn. split_and!; [done|constructor|].
      left. constructor. }
  unfold handleManifestHelper, clientset.Discovery_RESTMapping. cbn zeta.
  destruct (rest_mapping cluster log gvk) as [mapping|err] eqn:Hmapping;
    cbn [result_err].
  2:{ exists [failed (RESTMapping gvk) err]. cbn.
      split_and!; [done|calls_hold|]. right.
      exists [], gvk, log. split_and!; [done|constructor|done]. }
  destruct (singleInstance object) as [[|]|] eqn:Hflag.
  - destruct (singleInstance_metadata object) as [metadata Hm];
      [by rewrite Hflag|].
    unfold clientset.Dynamic_Create. cbn zeta.
    rewrite (GetNamespace_SetNamespace _ _ _ Hm).
    destruct (dynamic_create cluster _ mapping _ _) as [e|].
    + eexists [succeeded (RESTMapping gvk); failed (DynamicCreate _ _ _) e].
      cbn. split_and!; [by rewrite <- app_assoc|calls_hold|].
      eexists [_], _, e. split; [done|by repeat constructor].
    + destruct (IH (log ++ [succeeded (RESTMapping gvk)]
                      ++ [succeeded
                            (DynamicCreate mapping ("ns-" +:+ labName)
                               (SetNamespace ("ns-" +:+ labName) object))]))
        as (events & Hlog & Hcalls & Hexit).
      rewrite app_assoc in Hlog, Hexit. unfold succeeded in Hlog, Hexit.
      eexists (_ :: _ :: events). split_and!.
      * rewrite Hlog. by rewrite <- !app_assoc.
      * calls_hold.
      * by apply (loop_events_app cluster [_; _]); [repeat constructor|].
  - destruct (IH (log ++ [succeeded (RESTMapping gvk)]))
      as (events & Hlog & Hcalls & Hexit).
    unfold succeeded in Hlog, Hexit.
    eexists (_ :: events). split_and!.
    + rewrite Hlog. by rewrite <- !app_assoc.
    + calls_hold.
    + by apply (loop_events_app cluster [_]); [repeat constructor|].
  - exists [succeeded (RESTMapping gvk)]. cbn.
    split_and!; [done|calls_hold|by repeat constructor].
Qed.

Lemma createInNamespaces_run (mapping : GroupVersionResource)
    (object metadata : gmap string value) (namespaces : list string)
    (log : Log) :
  object !! "metadata" = Some (VMap metadata) →
  (∀ namespace object metadata,
     namespace ∈ namespaces →
     object !! "metadata" = Some (VMap metadata) →
     P (DynamicCreate mapping namespace (SetNamespace namespace object))) →
  run P log (createInNamespaces cluster mapping object namespaces log).1
    (no_error (createInNamespaces cluster mapping object namespaces log).2).
Proof.
  revert object metadata log.
  induction namespaces as [|namespace namespaces IH];
    intros object metadata log Hm Hcreate; [apply run_nil|].
  cbn [createInNamespaces]. unfold clientset.Dynamic_Create. cbn zeta.
  rewrite (GetNamespace_SetNamespace _ _ _ Hm).
  pose proof (run_call P
                (DynamicCreate mapping namespace
                   (SetNamespace namespace object))
                (dynamic_create cluster log mapping namespace
                   (SetNamespace namespace object))
                log (Hcreate _ _ _ ltac:(by left) Hm)) as Hcall.
  destruct (dynamic_create cluster log mapping namespace _) as [e|];
    [done|].
  destruct (SetNamespace_metadata namespace _ _ Hm) as [metadata' Hm'].
  eapply run_seq; [exact Hcall|].
  eapply IH; [exact Hm'|]. intros ns o m Hns. apply Hcreate. by right.
Qed.

Lemma createPerNamespace_events (namespaces : list string)
    (decoder : list decoded) (log : Log) :
  (∀ resource namespace object metadata,
     namespace ∈ namespaces →
     object !! "metadata" = Some (VMap metadata) →
     P (DynamicCreate resource namespace (SetNamespace namespace object))) →
  ∃ events,
    (createPerNamespace cluster namespaces decoder log).1 = log ++ events
    ∧ Forall (λ ev, P (ev_call ev)) events
    ∧ loop_events cluster events
        (createPerNamespace cluster namespaces decoder log).2.
Proof.
  intros Hcreate. revert log.
  induction decoder as [|doc decoder IH]; intros log.
  { exists []. rewrite app_nil_r. cbn. split_and!; [done|constructor|].
    left. constructor. }
  cbn [createPerNamespace head]. destruct doc as [object gvk|msg].
  2:{ exists []. rewrite app_nil_r. cbn. split_and!; [done|constructor|].
      left. constructor. }
  unfold handleManifestHelper, clientset.Discovery_RESTMapping. cbn zeta.
  destruct (rest_mapping cluster log gvk) as [mapping|err] eqn:Hmapping;
    cbn [result_err].
  2:{ exists [failed (RESTMapping gvk) err]. cbn.
      split_and!; [done|calls_hold|]. right.
      exists [], gvk, log. split_and!; [done|constructor|done]. }
  pose proof (run_call P (RESTMapping gvk) None log (lookups gvk)) as Hlookup.
  cbn [no_error] in Hlookup.
  destruct (singleInstance object) as [[|]|] eqn:Hflag.
  - destruct (IH (log ++ [succeeded (RESTMapping gvk)]))
      as (events & Hlog & Hcalls & Hexit).
    unfold succeeded in Hlog, Hexit.
    eexists (_ :: events). split_and!.
    + rewrite Hlog. by rewrite <- !app_assoc.
    + calls_hold.
    + by apply (loop_events_app cluster [_]); [repeat constructor|].
  - destruct (singleInstance_metadata object) as [metadata Hm];
      [by rewrite Hflag|].
    pose proof (createInNamespaces_run mapping object metadata namespaces
                  (log ++ [mkEvent (RESTMapping gvk) None]) Hm
                  (Hcreate mapping)) as Hcopies.
    destruct (createInNamespaces cluster mapping object namespaces _)
      as [log1 [e|]]; cbn [fst snd no_error] in Hcopies.
    + destruct (run_seq P _ _ _ _ Hlookup Hcopies)
        as (events & -> & Hcalls & Hstop). by exists events.
    + destruct (run_seq P _ _ _ _ Hlookup Hcopies)
        as (events & -> & Hcalls & Hclean).
      destruct (IH (log ++ events)) as (events' & Hlog & Hcalls' & Hexit).
      exists (events ++ events'). split_and!.
      * rewrite Hlog. by rewrite <- !app_assoc.
      * by apply Forall_app_2.
      * by apply loop_events_app.
  - exists [succeeded (RESTMapping gvk)]. cbn.
    split_and!; [done|calls_hold|by repeat constructor].
Qed.

(** handleManifest: its calls, and how it ends when a lookup never fails
    with [io.EOF]: an error is returned after a run with no failure (a
    document of a new lab that does not decode) or at the first call that
    fails; without an error either every call succeeded or the last call is a
    lookup that failed; a panic follows calls that all succeeded. *)
Lemma handleManifest_events (file : list decoded) (labName : string)
    (namespaces : list string) (labExists : bool) (log : Log) :
  (labExists = false →
   ∀ resource object metadata,
     object !! "metadata" = Some (VMap metadata) →
     P (DynamicCreate resource ("ns-" +:+ labName)
          (SetNamespace ("ns-" +:+ labName) object))) →
  (∀ resource namespace object metadata,
     namespace ∈ namespaces →
     object !! "metadata" = Some (VMap metadata) →
     P (DynamicCreate resource namespace (SetNamespace namespace object))) →
  ∃ events,
    (handleManifest cluster file labName namespaces labExists log).1
    = log ++ events
    ∧ Forall (λ ev, P (ev_call ev)) events
    ∧ (lookup_never_EOF cluster →
       match (handleManifest cluster file labName namespaces labExists log).2
       with
       | Returned (Some _) => clean events ∨ stopped events
       | Returned None =>
           clean events ∨ ∃ err, lookup_failed cluster events err
       | Panicked => clean events
       end).
Proof.
  intros Hshared Hcopies. unfold handleManifest. cbn zeta.
  assert (∀ log,
            ∃ events,
              (match createPerNamespace cluster namespaces file log with
               | (log', Return err) => (log', Returned (Some err))
               | (log', Panic) => (log', Panicked)
               | (log', Break _) => (log', Returned (None : option error))
               end).1 = log ++ events
              ∧ Forall (λ ev, P (ev_call ev)) events
              ∧ match
                  (match createPerNamespace cluster namespaces file log with
                   | (log', Return err) => (log', Returned (Some err))
                   | (log', Panic) => (log', Panicked)
                   | (log', Break _) => (log', Returned (None : option error))
                   end).2
                with
                | Returned (Some _) => stopped events
                | Returned None =>
                    clean events ∨ ∃ err, lookup_failed cluster events err
                | Panicked => clean events
                end) as Hsecond.
  { intros log0.
    destruct (createPerNamespace_events namespaces file log0 Hcopies)
      as (events & Hlog & Hcalls & Hexit).
    destruct (createPerNamespace cluster namespaces file log0)
      as [log1 [err|err|]]; cbn in *; exists events;
      (split_and!; [done|done|]); [|done|done].
    destruct Hexit as [?|?]; [by left|right; by exists err]. }
  destruct labExists; cbn [negb].
  { destruct (Hsecond log) as (events & Hlog & Hcalls & Hexit).
    exists events.
    destruct (createPerNamespace cluster namespaces file log)
      as [log1 [err|err|]]; cbn in *; (split_and!; [done|done|]);
      intros _; [done|by right|done]. }
  destruct (createSingleInstances_events labName file log (Hshared eq_refl))
    as (events & Hlog & Hcalls & Hexit).
  destruct (createSingleInstances cluster labName file log)
    as [log1 [err|err|]]; cbn [fst snd loop_events] in *.
  - case_decide as Herr.
    + exists events. split_and!; [done|done|]. intros _.
      destruct Hexit as [?|?%lookup_failed_stopped]; [by left|by right].
    + subst err log1.
      destruct (Hsecond (log ++ events)) as (events' & Hlog' & Hcalls' & Hexit').
      exists (events ++ events').
      destruct (createPerNamespace cluster namespaces file (log ++ events))
        as [log2 [err|err|]]; cbn in *; rewrite app_assoc;
        (split_and!; [done|by apply Forall_app_2|]); intros Hnever;
        (destruct Hexit as [Hclean|(? & gvk & log0 & _ & _ & Hl)];
           [|by destruct (Hnever log0 gvk)]).
      * destruct Hexit' as [?|[e ?]].
        -- left. by apply clean_app.
        -- right. exists e. by apply lookup_failed_app.
      * right. by apply stopped_app.
      * by apply clean_app.
  - exists events. split_and!; [done|done|]. intros _. by right.
  - exists events. by split_and!.
Qed.

End ManifestRuns.

(** ** createLabEnvironment as a whole *)

Lemma lab_ending_app (cluster : Cluster) (a b : Log)
    (response : outcome (HttpError + gmap string string)) :
  clean a → lab_ending cluster b response →
  lab_ending cluster (a ++ b) response.
Proof.
  intros Ha. destruct response as [[e|userConfigs]|]; cbn.
  - intros [?|[? ?]]; [left; by apply clean_app|right].
    split; [by apply stopped_app|done].
  - intros [?|[err ?]]; [left; by apply clean_app|right].
    exists err. by apply lookup_failed_app.
  - by apply clean_app.
Qed.

Lemma getNamespaceNames_tenants (lowerCase : Z → Z)
    (students : list Student) (labName : string)
    (isIndividual : bool) :
  getNamespaceNames lowerCase students labName isIndividual
  = tenant_namespace labName <$> tenant_keys lowerCase students isIndividual.
Proof.
  destruct isIndividual; unfold tenant_keys.
  - unfold getNamespaceNames. rewrite individual_loop, app_nil_l.
    by rewrite <- list_fmap_compose.
  - rewrite group_mode_names, <- list_fmap_compose.
    apply list_fmap_ext. intros ? g _. apply group_namespace_key.
Qed.

Section LabEvents.
Variable cluster : Cluster.

(** What is left of createLabEnvironment once the lab namespace is there. *)
Lemma createLabEnvironment_rest (P : Call → Prop) (fuel : nat)
    (labName : string) (namespaces : list string) (labExists : bool)
    (manifestFile : HttpError + list decoded) (log log' : Log)
    (response : outcome (HttpError + gmap string string)) :
  (∀ c, lab_call labName namespaces c → P c) →
  match createNamespaces cluster namespaces [] log with
  | (log, inl e) => Some (log, Returned (inl e))
  | (log, inr newNamespaces) =>
  match createUsers cluster fuel labName newNamespaces ∅ log with
  | None => None
  | Some (log, inl e) => Some (log, Returned (inl e))
  | Some (log, inr userConfigs) =>
  match manifestFile with
  | inl e => Some (log, Returned (inl e))
  | inr manifestFile =>
  match handleManifest cluster manifestFile labName newNamespaces labExists
          log with
  | (log, Panicked) => Some (log, Panicked)
  | (log, Returned (Some _)) =>
      Some (log, Returned (inl (http_Error
              "Something went wrong while deploying manifest"
              StatusInternalServerError)))
  | (log, Returned None) => Some (log, Returned (inr userConfigs))
  end end end end = Some (log', response) →
  ∃ events,
    log' = log ++ events
    ∧ Forall (λ ev, P (ev_call ev)) events
    ∧ (lookup_never_EOF cluster → lab_ending cluster events response).
Proof.
  intros HP H.
  assert (P NamespacesList) as Hlist by (apply HP; by left).
  assert (∀ namespace c,
            namespace ∈ namespaces → tenant_call labName namespace c → P c)
    as Htenant.
  { intros ns c Hns Hc. apply HP. right. by exists ns. }
  pose proof (createNamespaces_run cluster P namespaces [] log Hlist
                ltac:(intros ns Hns; by apply (Htenant ns))) as Hnamespaces.
  pose proof (createNamespaces_new cluster namespaces [] ) as Hnew.
  specialize (Hnew (match (createNamespaces cluster namespaces [] log).2 with
                    | inr new => new | inl _ => [] end) log).
  destruct (createNamespaces cluster namespaces [] log)
    as [log1 [e|newNamespaces]] eqn:Hcreated;
    cbn [fst snd is_right] in Hnamespaces, Hnew.
  { injection H as <- <-.
    destruct Hnamespaces as (events & Hlog & Hcalls & Hstop).
    exists events. split_and!; [done|done|]. intros _. right. split; [done|].
    by apply (createNamespaces_status cluster _ _ _ _ _ Hcreated). }
  assert (∀ namespace, namespace ∈ newNamespaces → namespace ∈ namespaces)
    as Hsub.
  { intros ns Hns. destruct (Hnew eq_refl ns Hns) as [?%elem_of_nil|?]; done. }
  clear Hnew Hcreated.
  destruct (createUsers cluster fuel labName newNamespaces ∅ log1)
    as [[log2 users]|] eqn:Husers; [|done].
  apply (createUsers_run cluster P) in Husers as [Husers Hstatus].
  2:{ intros ns c Hns. apply Htenant. by apply Hsub. }
  pose proof (run_seq P _ _ _ _ Hnamespaces Husers) as Hprefix.
  clear Hnamespaces Husers.
  destruct users as [e|userConfigs]; cbn [is_right] in Hprefix.
  { injection H as <- <-. destruct Hprefix as (events & -> & Hcalls & Hstop).
    exists events. split_and!; [done|done|]. intros _. right. split; [done|].
    by apply Hstatus. }
  destruct Hprefix as (events & -> & Hcalls & Hclean).
  destruct manifestFile as [e|manifestFile].
  { injection H as <- <-. exists events. split_and!; [done|done|].
    intros _. by left. }
  destruct (handleManifest_events cluster P
              ltac:(intros gvk; apply HP; by left)
              manifestFile labName newNamespaces labExists (log ++ events))
    as (events' & Hlog & Hcalls' & Hend).
  { intros _ resource object metadata _. apply HP. by left. }
  { intros resource ns object metadata Hns _.
    apply (Htenant ns); [by apply Hsub|done]. }
  destruct (handleManifest cluster manifestFile labName newNamespaces
              labExists (log ++ events)) as [log3 [[err|]|]];
    cbn [fst snd] in Hlog, Hend; injection H as <- <-;
    exists (events ++ events'); rewrite Hlog, app_assoc;
    (split_and!; [done|by apply Forall_app_2|]); intros Hnever;
    apply lab_ending_app; try done; cbn.
  - destruct (Hend Hnever) as [?|?]; [by left|by right].
  - by apply Hend.
  - by apply Hend.
Qed.

Lemma createLabEnvironment_events (lowerCase : Z → Z)
    (P : Call → Prop) (fuel : nat)
    (students : list Student) (form_labName form_isIndividual : string)
    (manifestFile : HttpError + list decoded) (log log' : Log)
    (response : outcome (HttpError + gmap string string)) :
  let labName := ReplaceAll form_labName "-" "" in
  let namespaces :=
    getNamespaceNames lowerCase students labName
      (negb (String.eqb form_isIndividual "false")) in
  (∀ c, lab_call labName namespaces c → P c) →
  createLabEnvironment lowerCase cluster fuel students form_labName form_isIndividual
    manifestFile log
  = Some (log', response) →
  ∃ events,
    log' = log ++ events
    ∧ Forall (λ ev, P (ev_call ev)) events
    ∧ (lookup_never_EOF cluster → lab_ending cluster events response).
Proof.
  cbn zeta. set (labName := ReplaceAll form_labName "-" "").
  set (namespaces := getNamespaceNames lowerCase students labName _).
  intros HP H. unfold createLabEnvironment in H. cbn zeta in H.
  fold labName in H. fold namespaces in H.
  pose proof (namespaceExists_run cluster P ("ns-" +:+ labName) log
                ltac:(apply HP; by left)) as Hexists.
  destruct (namespaceExists cluster ("ns-" +:+ labName) log)
    as [log1 [labExists [e|]]]; cbn [fst snd no_error] in Hexists.
  { injection H as <- <-. destruct Hexists as (events & -> & Hcalls & Hstop).
    exists events. split_and!; [done|done|]. intros _. by right. }
  assert (∀ log2,
            run P log log2 true →
            match createNamespaces cluster namespaces [] log2 with
            | (log, inl e) => Some (log, Returned (inl e))
            | (log, inr newNamespaces) =>
            match createUsers cluster fuel labName newNamespaces ∅ log with
            | None => None
            | Some (log, inl e) => Some (log, Returned (inl e))
            | Some (log, inr userConfigs) =>
            match manifestFile with
            | inl e => Some (log, Returned (inl e))
            | inr manifestFile =>
            match handleManifest cluster manifestFile labName newNamespaces
                    labExists log with
            | (log, Panicked) => Some (log, Panicked)
            | (log, Returned (Some _)) =>
                Some (log, Returned (inl (http_Error
                        "Something went wrong while deploying manifest"
                        StatusInternalServerError)))
            | (log, Returned None) => Some (log, Returned (inr userConfigs))
            end end end end = Some (log', response) →
            ∃ events,
              log' = log ++ events
              ∧ Forall (λ ev, P (ev_call ev)) events
              ∧ (lookup_never_EOF cluster →
                 lab_ending cluster events response)) as Hrest.
  { intros log2 (events & -> & Hcalls & Hclean) Hrest.
    apply (createLabEnvironment_rest P) in Hrest
      as (events' & -> & Hcalls' & Hend); [|done].
    exists (events ++ events'). rewrite app_assoc.
    split_and!; [done|by apply Forall_app_2|].
    intros Hnever. apply lab_ending_app; [done|by apply Hend]. }
  destruct labExists; cbn [negb] in H.
  { by apply (Hrest log1). }
  pose proof (createNamespace_run cluster P ("ns-" +:+ labName) log1
                ltac:(apply HP; by left)) as Hnamespace.
  destruct (createNamespace cluster ("ns-" +:+ labName) log1)
    as [log2 [e|]]; cbn [fst snd no_error] in Hnamespace.
  { injection H as <- <-.
    destruct (run_seq P _ _ _ _ Hexists Hnamespace)
      as (events & -> & Hcalls & Hstop).
    exists events. split_and!; [done|done|]. intros _. by right. }
  pose proof (createRole_run cluster P ("ns-" +:+ labName)
                ["list"; "get"; "watch"] log2
                ltac:(apply HP; by left)) as Hrole.
  destruct (createRole cluster "student" ("ns-" +:+ labName)
              ["list"; "get"; "watch"] log2)
    as [log3 [e|]]; cbn [fst snd no_error] in Hrole.
  { injection H as <- <-.
    destruct (run_seq P _ _ _ _ Hexists
                (run_seq P _ _ _ _ Hnamespace Hrole))
      as (events & -> & Hcalls & Hstop).
    exists events. split_and!; [done|done|]. intros _. by right. }
  apply (Hrest log3); [|done].
  eapply run_seq; [exact Hexists|]. eapply run_seq; [exact Hnamespace|done].
Qed.

End LabEvents.

(** ** What createLabEnvironment leaves in the cluster *)

Lemma lab_namespace_shared (labName : string) :
  lab_namespace labName ("ns-" +:+ labName) = true.
Proof. apply lab_namespace_spec. by left. Qed.

Lemma lab_namespace_tenant (labName key : string) :
  lab_namespace labName (tenant_namespace labName key) = true.
Proof. apply lab_namespace_spec. right. by exists key. Qed.

Lemma lab_call_within_lab (lowerCase : Z → Z)
    (students : list Student) (labName : string)
    (isIndividual : bool) (c : Call) :
  lab_call labName (getNamespaceNames lowerCase students labName isIndividual) c →
  within_lab labName c = true.
Proof.
  rewrite getNamespaceNames_tenants.
  intros [Hshared|(namespace & (key & -> & _)%list_elem_of_fmap & Htenant)].
  - destruct c; cbn in *; try done; destruct_and?; subst;
      apply lab_namespace_shared.
  - destruct c; cbn in Htenant |- *; try done; destruct_and?; subst;
      try apply lab_namespace_tenant.
    + apply lab_binding_spec. by eexists.
    + destruct Htenant as [[-> _]|[-> _]];
        [apply lab_namespace_tenant|apply lab_namespace_shared].
Qed.

(** X6. Whatever createLabEnvironment answers, for any cluster, roster and
    manifest: the log it leaves is the log it started from followed by its own
    calls, and each of these reads (lists the namespaces, fetches an account
    or a secret, looks up a resource) or creates a namespace named
    [ns-<labName>] or starting with [ns-<labName>-], an object inside such a
    namespace, or a cluster-scoped binding whose name starts with
    [read-namespaces-crb-<labName>-], where [labName] is the form's lab name
    without hyphens.  These are the names deleteLab looks for; nothing is
    deleted and no cluster role is touched. *)
Theorem createLabEnvironment_within_lab (lowerCase : Z → Z)
    (cluster : Cluster) (fuel : nat)
    (students : list Student) (form_labName form_isIndividual : string)
    (manifestFile : HttpError + list decoded) (log log' : Log)
    (response : outcome (HttpError + gmap string string)) :
  createLabEnvironment lowerCase cluster fuel students form_labName form_isIndividual
    manifestFile log
  = Some (log', response) →
  ∃ events,
    log' = log ++ events
    ∧ Forall (λ ev,
                within_lab (ReplaceAll form_labName "-" "") (ev_call ev)
                = true) events.
Proof.
  intros H.
  apply (createLabEnvironment_events cluster lowerCase
           (λ c, within_lab (ReplaceAll form_labName "-" "") c = true))
    in H as (events & -> & Hcalls & _).
  - by exists events.
  - intros c. apply lab_call_within_lab.
Qed.

Lemma createLabEnvironment_within_lab_witness :
  ∃ log' response events,
    createLabEnvironment demo_case
      (demo_cluster (mkDemo ["default"] [] true (Some 1) no_fault)) 2
      [mkStudent "1" "Jane Doe" 1; mkStudent "2" "John Roe" 1] "de-mo"
      "false" (inr demo_manifest) []
    = Some (log', response)
    ∧ log' = [] ++ events
    ∧ Forall (λ ev, within_lab "demo" (ev_call ev) = true) events.
Proof.
  eexists _, _.
  assert (∀ (A : Type) (P : A → Prop) (Q : Prop),
            Q → (Q → ∃ x, P x) → ∃ x, Q ∧ P x) as Hcut.
  { intros A P Q HQ HP. destruct (HP HQ) as [x Hx]. by exists x. }
  apply Hcut.
  - vm_compute. reflexivity.
  - intros Hrun.
    apply (createLabEnvironment_within_lab _ _ _ _ _ _ _ _ _ _ Hrun).
Defined.

(** X7. Every call of createLabEnvironment belongs to the lab as a whole or
    to one tenant namespace of the roster (a name of getNamespaceNames).  For
    the lab: listing the namespaces, looking up a resource, creating
    [ns-<labName>], the role [student] with the verbs list, get and watch in
    it, and manifest objects in it.  For a tenant namespace: creating it, the
    account named by the key recovered from its name, fetching accounts and
    secrets in it, the role [student] with every verb in it, the binding
    [student-binding] of that role to that account, the binding
    [student-binding-<key>] of the lab namespace's role to that account, the
    cluster-scoped binding [read-namespaces-crb-<labName>-<key>] of
    [read-namespaces-cr] to that account, and manifest objects in it.  So no
    role or binding is made for any subject but a tenant's own account. *)
Theorem createLabEnvironment_footprint (lowerCase : Z → Z)
    (cluster : Cluster) (fuel : nat)
    (students : list Student) (form_labName form_isIndividual : string)
    (manifestFile : HttpError + list decoded) (log log' : Log)
    (response : outcome (HttpError + gmap string string)) :
  createLabEnvironment lowerCase cluster fuel students form_labName form_isIndividual
    manifestFile log
  = Some (log', response) →
  let labName := ReplaceAll form_labName "-" "" in
  let namespaces :=
    getNamespaceNames lowerCase students labName
      (negb (String.eqb form_isIndividual "false")) in
  ∃ events,
    log' = log ++ events
    ∧ ∀ ev,
        ev ∈ events →
        shared_call labName (ev_call ev)
        ∨ ∃ namespace,
            namespace ∈ namespaces
            ∧ tenant_call labName namespace (ev_call ev).
Proof.
  intros H. cbn zeta.
  apply (createLabEnvironment_events cluster lowerCase
           (lab_call (ReplaceAll form_labName "-" "")
              (getNamespaceNames lowerCase students (ReplaceAll form_labName "-" "")
                 (negb (String.eqb form_isIndividual "false")))))
    in H as (events & -> & Hcalls & _); [|done].
  exists events. split; [done|]. by apply Forall_forall.
Qed.

Lemma createLabEnvironment_footprint_witness :
  ∃ log' response events,
    createLabEnvironment demo_case
      (demo_cluster (mkDemo ["default"] [] true (Some 1) no_fault)) 2
      [mkStudent "1" "Jane Doe" 1; mkStudent "2" "John Roe" 1] "de-mo"
      "false" (inr demo_manifest) []
    = Some (log', response)
    ∧ log' = [] ++ events
    ∧ ∀ ev,
        ev ∈ events →
        shared_call "demo" (ev_call ev)
        ∨ ∃ namespace,
            namespace ∈ ["ns-demo-group-1"]
            ∧ tenant_call "demo" namespace (ev_call ev).
Proof.
  eexists _, _.
  assert (∀ (A : Type) (P : A → Prop) (Q : Prop),
            Q → (Q → ∃ x, P x) → ∃ x, Q ∧ P x) as Hcut.
  { intros A P Q HQ HP. destruct (HP HQ) as [x Hx]. by exists x. }
  apply Hcut.
  - vm_compute. reflexivity.
  - intros Hrun.
    apply (createLabEnvironment_footprint _ _ _ _ _ _ _ _ _ _ Hrun).
Defined.

(** X8. createLabEnvironment stops at the first call that fails, on a
    cluster whose resource lookup never fails with [io.EOF]: in the calls it
    issued, either none failed, or the only failed call is the last one.
    When it answers with an error after a failed call the status is 500; when
    it answers with the credentials although a call failed, that call is a
    resource lookup of the manifest; before a panic no call failed. *)
Theorem createLabEnvironment_stops_at_failure (lowerCase : Z → Z)
    (cluster : Cluster) (fuel : nat)
    (students : list Student) (form_labName form_isIndividual : string)
    (manifestFile : HttpError + list decoded) (log log' : Log)
    (response : outcome (HttpError + gmap string string)) :
  lookup_never_EOF cluster →
  createLabEnvironment lowerCase cluster fuel students form_labName form_isIndividual
    manifestFile log
  = Some (log', response) →
  ∃ events,
    log' = log ++ events
    ∧ (clean events ∨ stopped events)
    ∧ match response with
      | Returned (inl e) =>
          clean events
          ∨ (stopped events ∧ http_status e = StatusInternalServerError)
      | Returned (inr _) =>
          clean events
          ∨ ∃ before gvk err,
              events = before ++ [failed (RESTMapping gvk) err]
              ∧ clean before
      | Panicked => clean events
      end.
Proof.
  intros Hnever H.
  apply (createLabEnvironment_events cluster lowerCase (λ _, True))
    in H as (events & -> & _ & Hend); [|done].
  specialize (Hend Hnever). exists events. split; [done|].
  destruct response as [[e|userConfigs]|]; cbn in Hend.
  - split; [|done]. destruct Hend as [?|[? _]]; [by left|by right].
  - destruct Hend as [?|[err Hfailed]]; [split; by left|].
    split; [right; by eapply lookup_failed_stopped|]. right.
    destruct Hfailed as (before & gvk & log0 & -> & Hclean & _).
    by exists before, gvk, err.
  - split; [by left|done].
Qed.

Lemma createLabEnvironment_stops_at_failure_witness :
  ∃ log' events,
    createLabEnvironment demo_case
      (demo_cluster
         (mkDemo ["default"] [] true (Some 1)
            (λ k, if (k =? 5)%nat then Some (Err "forbidden") else None)))
      2 [mkStudent "1" "Jane Doe" 1; mkStudent "2" "John Roe" 1] "de-mo"
      "false" (inr demo_manifest) []
    = Some (log',
            Returned (inl (http_Error
              "Something went wrong while creating service account group-1 in namespace ns-demo-group-1"
              StatusInternalServerError)))
    ∧ log' = [] ++ events
    ∧ (clean events ∨ stopped events)
    ∧ (clean events
       ∨ (stopped events
          ∧ StatusInternalServerError = StatusInternalServerError)).
Proof.
  eexists _.
  assert (∀ (A : Type) (P : A → Prop) (Q : Prop),
            Q → (Q → ∃ x, P x) → ∃ x, Q ∧ P x) as Hcut.
  { intros A P Q HQ HP. destruct (HP HQ) as [x Hx]. by exists x. }
  apply Hcut.
  - vm_compute. reflexivity.
  - intros Hrun.
    refine (createLabEnvironment_stops_at_failure _ _ _ _ _ _ _ _ _ _ _ Hrun).
    intros log gvk. cbn. unfold or_fault. cbn.
    by destruct (length log =? 5)%nat.
Defined.

(** ** What handleManifest creates *)

(** X9. For any cluster and any manifest, handleManifest only looks up
    resources and creates objects; every object it creates carries the
    namespace it is created in, and that namespace is [ns-<labName>] (only
    when the lab is new) or one of the given namespaces.  So for a lab that
    exists the lab namespace gets nothing, and with no new namespace nothing
    is created at all. *)
Theorem handleManifest_targets (cluster : Cluster) (file : list decoded)
    (labName : string) (namespaces : list string) (labExists : bool)
    (log : Log) :
  ∃ events,
    (handleManifest cluster file labName namespaces labExists log).1
    = log ++ events
    ∧ (∀ ev,
         ev ∈ events →
         match ev_call ev with
         | RESTMapping _ => True
         | DynamicCreate _ namespace object =>
             GetNamespace object = namespace
             ∧ ((labExists = false ∧ namespace = "ns-" +:+ labName)
                ∨ namespace ∈ namespaces)
         | _ => False
         end)
    ∧ (labExists = true → namespaces = [] →
       ∀ ev, ev ∈ events → ∃ gvk, ev_call ev = RESTMapping gvk).
Proof.
  destruct (handleManifest_events cluster
              (manifest_call labName namespaces labExists)
              ltac:(done) file labName namespaces labExists log)
    as (events & Hlog & Hcalls & _).
  - intros -> resource object metadata Hm. cbn.
    rewrite (GetNamespace_SetNamespace _ _ _ Hm). split; [done|by left].
  - intros resource namespace object metadata Hn Hm. cbn.
    rewrite (GetNamespace_SetNamespace _ _ _ Hm). split; [done|by right].
  - exists events. rewrite Forall_forall in Hcalls.
    split_and!; [done|exact Hcalls|].
    intros -> -> ev Hev. specialize (Hcalls ev Hev).
    destruct (ev_call ev); cbn in Hcalls; try done; [by eexists|].
    destruct Hcalls as [_ [[? _]|?%elem_of_nil]]; done.
Qed.

(** ** Lab names and the labs of a cluster *)

Section EraseByte.
Variable b : ascii.

Lemma erase_byte_cons (n : Z) (a : ascii) (s : string) :
  (n < 0)%Z →
  replace_from (String b "") "" n 0 (String a s)
  = if decide (b = a) then replace_from (String b "") "" n 0 s
    else String a (replace_from (String b "") "" n 0 s).
Proof.
  intros Hn. cbn [replace_from].
  destruct (Z.eqb_spec n 0) as [|_]; [lia|].
  rewrite prefix_cons, prefix_nil. case_decide; [|done].
  rewrite sapp_nil_l. cbn [String.length Nat.sub].
  apply replace_from_neg; lia.
Qed.

Lemma erase_byte_free (n : Z) (s : string) :
  (n < 0)%Z →
  Contains (replace_from (String b "") "" n 0 s) (String b "") = false.
Proof.
  intros Hn. induction s as [|a s IH]; [done|].
  rewrite erase_byte_cons by done. case_decide as Hb; [done|].
  rewrite Contains_byte_cons, IH. by rewrite bool_decide_eq_false_2.
Qed.

End EraseByte.

Lemma ReplaceAll_hyphen_free (s : string) :
  Contains (ReplaceAll s "-" "") "-" = false.
Proof. apply (erase_byte_free "-"). lia. Qed.

(** Two names without a hyphen that are each followed by nothing or by a
    hyphen are equal when the whole strings are. *)
Lemma hyphen_free_split (a b sa sb : string) :
  Contains a "-" = false → Contains b "-" = false →
  (sa = "" ∨ ∃ r, sa = String "-" r) →
  (sb = "" ∨ ∃ r, sb = String "-" r) →
  a +:+ sa = b +:+ sb → a = b.
Proof.
  revert b. induction a as [|c a IH]; intros b Ha Hb Hsa Hsb E.
  - destruct b as [|d b]; [done|]. rewrite sapp_nil_l, sapp_cons in E.
    rewrite Contains_byte_cons in Hb. apply orb_false_iff in Hb as [Hd _].
    apply bool_decide_eq_false in Hd.
    destruct Hsa as [->|[r ->]]; [done|]. injection E as E _. congruence.
  - rewrite Contains_byte_cons in Ha. apply orb_false_iff in Ha as [Hc Ha].
    apply bool_decide_eq_false in Hc.
    destruct b as [|d b].
    + rewrite sapp_nil_l, sapp_cons in E.
      destruct Hsb as [->|[r ->]]; [done|]. injection E as E _. congruence.
    + rewrite !sapp_cons in E. injection E as -> E.
      rewrite Contains_byte_cons in Hb. apply orb_false_iff in Hb as [_ Hb].
      f_equal. by apply IH.
Qed.

Lemma lab_namespace_one_lab (a b name : string) :
  Contains a "-" = false → Contains b "-" = false →
  lab_namespace a name = true → lab_namespace b name = true → a = b.
Proof.
  intros Ha Hb Hna Hnb.
  assert (∀ lab,
            lab_namespace lab name = true →
            ∃ rest,
              name = "ns-" +:+ lab +:+ rest
              ∧ (rest = "" ∨ ∃ r, rest = String "-" r)) as Hshape.
  { intros lab [->|[rest ->]]%lab_namespace_spec.
    - exists "". rewrite sapp_nil_r. split; [done|by left].
    - exists ("-" +:+ rest). split; [done|]. right. by exists rest. }
  destruct (Hshape a Hna) as (ra & Ea & Hra).
  destruct (Hshape b Hnb) as (rb & Eb & Hrb).
  rewrite Ea in Eb. injection Eb as Eb. rewrite !sapp_nil_l in Eb.
  exact (hyphen_free_split a b ra rb Ha Hb Hra Hrb Eb).
Qed.

Lemma lab_binding_one_lab (a b name : string) :
  Contains a "-" = false → Contains b "-" = false →
  lab_binding a name = true → lab_binding b name = true → a = b.
Proof.
  intros Ha Hb [ra Ea]%lab_binding_spec [rb Eb]%lab_binding_spec.
  rewrite Ea in Eb. injection Eb as Eb. rewrite !sapp_nil_l in Eb.
  eapply (hyphen_free_split a b ("-" +:+ ra) ("-" +:+ rb)); try done;
    right; by eexists.
Qed.

(** The names that deleteLab deletes are names it looks for. *)
Lemma deleteLab_deletions (cluster : Cluster) (params_labName : string)
    (log : Log) (c : Call) :
  c ∈ issued log (deleteLab cluster params_labName log).1 →
  match c with
  | NamespacesList | ClusterRoleBindingsList => True
  | NamespacesDelete name =>
      lab_namespace (ReplaceAll params_labName "-" "") name = true
  | ClusterRoleBindingsDelete name =>
      lab_binding (ReplaceAll params_labName "-" "") name = true
  | _ => False
  end.
Proof.
  intros Hc.
  assert (c ∈ deleteLab_plan cluster (ReplaceAll params_labName "-" "") log)
    as Hplan.
  { destruct (deleteLab_runs_plan cluster params_labName log)
      as [E|(k & c' & e & msg & Hk & E)]; rewrite E in Hc; cbn [fst] in Hc.
    - rewrite issued_app, <- list_fmap_compose in Hc.
      apply list_elem_of_fmap in Hc as (c' & -> & Hc'). done.
    - rewrite issued_app, fmap_app, <- list_fmap_compose in Hc.
      apply elem_of_app in Hc as [Hc|Hc].
      + apply list_elem_of_fmap in Hc as (c'' & -> & Hc'').
        by apply (subseteq_take k) in Hc''.
      + cbn in Hc. apply list_elem_of_singleton in Hc as ->.
        by eapply list_elem_of_lookup_2. }
  unfold deleteLab_plan in Hplan.
  apply elem_of_cons in Hplan as [->|Hplan]; [done|].
  apply elem_of_app in Hplan as [Hplan|Hplan].
  - apply list_elem_of_fmap in Hplan as (name & -> & Hname).
    destruct (namespaces_list cluster log); [|by apply elem_of_nil in Hname].
    apply list_elem_of_filter in Hname as [Hname _]. by apply Is_true_true.
  - apply elem_of_cons in Hplan as [->|Hplan]; [done|].
    apply list_elem_of_fmap in Hplan as (name & -> & Hname).
    destruct (clusterrolebindings_list cluster _);
      [|by apply elem_of_nil in Hname].
    apply list_elem_of_filter in Hname as [Hname _]. by apply Is_true_true.
Qed.

(** X10. deleteLab for one lab spares every other lab: when the lab name of
    [other] differs from the lab name of the route parameter (both without
    their hyphens), deleteLab deletes no namespace that is [ns-<other>] or
    starts with [ns-<other>-] and no cluster-scoped binding that starts with
    [read-namespaces-crb-<other>-], whatever the cluster lists; and it issues
    nothing but the two listings and deletions. *)
Theorem deleteLab_spares_other_labs (cluster : Cluster)
    (params_labName other : string) (log : Log) (name : string) :
  ReplaceAll other "-" "" ≠ ReplaceAll params_labName "-" "" →
  (lab_namespace (ReplaceAll other "-" "") name = true →
   NamespacesDelete name
   ∉ issued log (deleteLab cluster params_labName log).1)
  ∧ (lab_binding (ReplaceAll other "-" "") name = true →
     ClusterRoleBindingsDelete name
     ∉ issued log (deleteLab cluster params_labName log).1)
  ∧ ∀ c,
      c ∈ issued log (deleteLab cluster params_labName log).1 →
      is_delete c = true ∨ c = NamespacesList ∨ c = ClusterRoleBindingsList.
Proof.
  intros Hlabs. split_and!.
  - intros Hother Hc%deleteLab_deletions. apply Hlabs.
    eapply lab_namespace_one_lab; eauto using ReplaceAll_hyphen_free.
  - intros Hother Hc%deleteLab_deletions. apply Hlabs.
    eapply lab_binding_one_lab; eauto using ReplaceAll_hyphen_free.
  - intros c Hc%deleteLab_deletions. destruct c; try done; auto.
Qed.

Lemma deleteLab_spares_other_labs_witness :
  let cluster :=
    demo_cluster
      (mkDemo ["default"; "ns-demo"; "ns-demo-jane"; "ns-demos"; "ns-demos-joe"]
         ["read-namespaces-crb-demo-jane"; "read-namespaces-crb-demos-joe"]
         true None no_fault) in
  (NamespacesDelete "ns-demos-joe"
   ∉ issued [] (deleteLab cluster "de-mo" []).1)
  ∧ (ClusterRoleBindingsDelete "read-namespaces-crb-demos-joe"
     ∉ issued [] (deleteLab cluster "de-mo" []).1)
  ∧ issued [] (deleteLab cluster "de-mo" []).1
    = [NamespacesList; NamespacesDelete "ns-demo";
       NamespacesDelete "ns-demo-jane"; ClusterRoleBindingsList;
       ClusterRoleBindingsDelete "read-namespaces-crb-demo-jane"].
Proof.
  cbn zeta. split_and!.
  - apply (deleteLab_spares_other_labs _ "de-mo" "demos" [] "ns-demos-joe");
      [vm_compute; discriminate|vm_compute; reflexivity].
  - apply (deleteLab_spares_other_labs _ "de-mo" "demos" []
             "read-namespaces-crb-demos-joe");
      [vm_compute; discriminate|vm_compute; reflexivity].
  - vm_compute. reflexivity.
Defined.

(** ** The namespace loop on a cluster that keeps its namespaces *)

Section NamespaceLoop.
Variable cluster : Cluster.
Variable init : list string.
Hypothesis listing : lists_namespaces cluster init.
Hypothesis creating :
  ∀ log name,
    name ∉ namespaces_after init log →
    namespaces_create cluster log name = None.

Lemma createNamespaces_loop (namespaces newNamespaces : list string)
    (log : Log) :
  ∃ events new,
    createNamespaces cluster namespaces newNamespaces log
    = (log ++ events, inr (newNamespaces ++ new))
    ∧ NoDup new
    ∧ (∀ name,
         name ∈ new
         ↔ name ∈ namespaces ∧ name ∉ namespaces_after init log)
    ∧ sublist new namespaces
    ∧ namespaces_after init (log ++ events)
      = namespaces_after init log ++ new
    ∧ filter (λ c, is_mutation c = true) (ev_call <$> events)
      = NamespacesCreate <$> new
    ∧ clean events
    ∧ length events = length namespaces + length new.
Proof.
  revert newNamespaces log.
  induction namespaces as [|namespace namespaces IH]; intros newNamespaces log.
  { exists [], []. rewrite !app_nil_r. cbn.
    split_and!; try done; [constructor| |constructor].
    intros name. rewrite elem_of_nil. tauto. }
  destruct (decide (namespace ∈ namespaces_after init log)) as [Hin|Hout].
  - rewrite (createNamespaces_present cluster init listing _ _ _ _ Hin).
    destruct (IH newNamespaces (log ++ [succeeded NamespacesList]))
      as (events & new & Hrun & Hdup & Hnew & Hsub & Hafter & Hcalls
          & Hclean & Hlen).
    rewrite <- app_assoc in Hrun, Hafter.
    rewrite namespaces_after_snoc in Hnew, Hafter. cbn in Hnew, Hafter.
    exists ([succeeded NamespacesList] ++ events), new.
    split_and!; try done.
    + intros name. rewrite Hnew, elem_of_cons. split; [tauto|].
      intros [[->|?] ?]; tauto.
    + by apply sublist_cons.
    + by apply clean_app; [repeat constructor|].
    + rewrite length_app. cbn. lia.
  - assert (namespaces_create cluster (log ++ [succeeded NamespacesList])
              namespace = None) as Hcreate.
    { apply creating. by rewrite namespaces_after_snoc. }
    rewrite (createNamespaces_absent cluster init listing _ _ _ _ Hout
               Hcreate).
    destruct (IH (newNamespaces ++ [namespace])
                (log ++ [succeeded NamespacesList;
                         succeeded (NamespacesCreate namespace)]))
      as (events & new & Hrun & Hdup & Hnew & Hsub & Hafter & Hcalls
          & Hclean & Hlen).
    assert (namespaces_after init
              (log ++ [succeeded NamespacesList;
                       succeeded (NamespacesCreate namespace)])
            = namespaces_after init log ++ [namespace]) as Hstep.
    { replace (log ++ [succeeded NamespacesList;
                       succeeded (NamespacesCreate namespace)])
        with ((log ++ [succeeded NamespacesList])
                ++ [succeeded (NamespacesCreate namespace)])
        by (by rewrite <- app_assoc).
      by rewrite !namespaces_after_snoc. }
    rewrite Hstep in Hnew, Hafter. rewrite <- app_assoc in Hrun, Hafter.
    exists ([succeeded NamespacesList;
             succeeded (NamespacesCreate namespace)] ++ events),
      (namespace :: new).
    split_and!.
    + rewrite Hrun. by rewrite <- app_assoc.
    + apply NoDup_cons. split; [|done].
      intros [_ Hn]%Hnew. apply Hn, elem_of_app. right. by left.
    + intros name. rewrite !elem_of_cons, Hnew, elem_of_app,
        list_elem_of_singleton.
      destruct (decide (name = namespace)) as [->|Hne]; tauto.
    + by apply sublist_skip.
    + rewrite Hafter. by rewrite <- app_assoc.
    + rewrite fmap_app, filter_app, Hcalls. done.
    + by apply clean_app; [repeat constructor|].
    + rewrite length_app. cbn. lia.
Qed.

End NamespaceLoop.

(** X11. The namespace loop of createLabEnvironment on a cluster whose
    listing shows its namespaces and where creating a missing namespace
    succeeds: it creates each requested namespace that is missing, once and in
    the order of the request, and no other; the new namespaces it reports are
    exactly these; a namespace that exists, or that comes a second time in the
    request, is listed but not created again.  Afterwards every requested
    namespace exists, and the loop has listed the namespaces once per
    requested name. *)
Theorem createNamespaces_creates_missing (cluster : Cluster)
    (init namespaces : list string) (log : Log) :
  lists_namespaces cluster init →
  (∀ log name,
     name ∉ namespaces_after init log →
     namespaces_create cluster log name = None) →
  ∃ log' new,
    createNamespaces cluster namespaces [] log = (log', inr new)
    ∧ NoDup new
    ∧ (∀ name,
         name ∈ new
         ↔ name ∈ namespaces ∧ name ∉ namespaces_after init log)
    ∧ sublist new namespaces
    ∧ namespaces_after init log' = namespaces_after init log ++ new
    ∧ (∀ name, name ∈ namespaces → name ∈ namespaces_after init log')
    ∧ filter (λ c, is_mutation c = true) (issued log log')
      = NamespacesCreate <$> new
    ∧ length (issued log log') = length namespaces + length new.
Proof.
  intros Hlist Hcreate.
  destruct (createNamespaces_loop cluster init Hlist Hcreate namespaces [] log)
    as (events & new & Hrun & Hdup & Hnew & Hsub & Hafter & Hcalls & _
        & Hlen).
  exists (log ++ events), new. rewrite issued_app, length_fmap.
  split_and!; try done.
  intros name Hname. rewrite Hafter, elem_of_app.
  destruct (decide (name ∈ namespaces_after init log)); [by left|].
  right. by apply Hnew.
Qed.

Lemma createNamespaces_creates_missing_witness :
  let cluster :=
    demo_cluster (mkDemo ["ns-demo"; "ns-demo-jane"] [] true None no_fault) in
  ∃ log',
    createNamespaces cluster
      ["ns-demo-jane"; "ns-demo-john"; "ns-demo-john"] [] []
    = (log', inr ["ns-demo-john"])
    ∧ namespaces_after ["ns-demo"; "ns-demo-jane"] log'
      = ["ns-demo"; "ns-demo-jane"; "ns-demo-john"]
    ∧ filter (λ c, is_mutation c = true) (issued [] log')
      = [NamespacesCreate "ns-demo-john"]
    ∧ length (issued [] log') = 4.
Proof.
  cbn zeta.
  destruct (createNamespaces_creates_missing
              (demo_cluster
                 (mkDemo ["ns-demo"; "ns-demo-jane"] [] true None no_fault))
              ["ns-demo"; "ns-demo-jane"]
              ["ns-demo-jane"; "ns-demo-john"; "ns-demo-john"] [])
    as (log' & new & Hrun & _ & _ & _ & Hafter & _ & Hcalls & Hlen).
  - intros log. reflexivity.
  - intros log name Hname. cbn. unfold or_fault. cbn.
    by rewrite bool_decide_eq_false_2.
  - assert (new = ["ns-demo-john"]) as ->.
    { vm_compute in Hrun. by injection Hrun as _ <-. }
    exists log'. by split_and!.
Defined.

(** ** Submitting a roster again *)

Section Again.
Variable cluster : Cluster.
Variable init : list string.
Hypothesis listing : lists_namespaces cluster init.

(** The namespace loop on namespaces that all exist only lists. *)
Lemma createNamespaces_all_present (namespaces newNamespaces : list string)
    (log : Log) :
  Forall (λ name, name ∈ namespaces_after init log) namespaces →
  createNamespaces cluster namespaces newNamespaces log
  = (log ++ replicate (length namespaces) (succeeded NamespacesList),
     inr newNamespaces).
Proof.
  revert log. induction namespaces as [|namespace namespaces IH];
    intros log Hall.
  { cbn. by rewrite app_nil_r. }
  apply Forall_cons in Hall as [Hin Hall].
  rewrite (createNamespaces_present cluster init listing _ _ _ _ Hin).
  rewrite IH.
  - cbn [length replicate]. by rewrite <- app_assoc.
  - eapply Forall_impl; [exact Hall|]. intros name Hname. cbn beta.
    by rewrite namespaces_after_snoc.
Qed.

End Again.

(** With no namespace to copy into, the second loop of handleManifest only
    looks up resources: it never returns the error of a creation, and it
    panics only on a document whose flag cannot be read. *)
Lemma createPerNamespace_no_namespaces (cluster : Cluster)
    (decoder : list decoded) (log : Log) :
  ∃ events,
    (createPerNamespace cluster [] decoder log).1 = log ++ events
    ∧ Forall (λ ev, ∃ gvk, ev_call ev = RESTMapping gvk) events
    ∧ match (createPerNamespace cluster [] decoder log).2 with
      | Return _ => False
      | Panic =>
          ∃ object gvk,
            Document object gvk ∈ decoder ∧ singleInstance object = Panicked
      | Break _ => True
      end.
Proof.
  revert log. induction decoder as [|doc decoder IH]; intros log.
  { exists []. rewrite app_nil_r. by split_and!. }
  cbn [createPerNamespace head]. destruct doc as [object gvk|msg].
  2:{ exists []. rewrite app_nil_r. by split_and!. }
  unfold handleManifestHelper, clientset.Discovery_RESTMapping. cbn zeta.
  destruct (rest_mapping cluster log gvk) as [mapping|err]; cbn [result_err].
  2:{ eexists [_]. split_and!; [done| |done]. repeat constructor. by eexists. }
  assert (∀ events,
            Forall (λ ev, ∃ gvk, ev_call ev = RESTMapping gvk) events →
            Forall (λ ev, ∃ gvk, ev_call ev = RESTMapping gvk)
              (mkEvent (RESTMapping gvk) None :: events)) as Hcons.
  { intros events Hev. constructor; [by eexists|done]. }
  destruct (singleInstance object) as [[|]|] eqn:Hflag.
  - destruct (IH (log ++ [mkEvent (RESTMapping gvk) None]))
      as (events & Hlog & Hcalls & Hexit).
    exists (mkEvent (RESTMapping gvk) None :: events). split_and!.
    + rewrite Hlog. by rewrite <- app_assoc.
    + by apply Hcons.
    + destruct (createPerNamespace cluster [] decoder _).2; try done.
      destruct Hexit as (o & g & Hin & Ho). exists o, g. split; [by right|done].
  - cbn [createInNamespaces].
    destruct (IH (log ++ [mkEvent (RESTMapping gvk) None]))
      as (events & Hlog & Hcalls & Hexit).
    exists (mkEvent (RESTMapping gvk) None :: events). split_and!.
    + rewrite Hlog. by rewrite <- app_assoc.
    + by apply Hcons.
    + destruct (createPerNamespace cluster [] decoder _).2; try done.
      destruct Hexit as (o & g & Hin & Ho). exists o, g. split; [by right|done].
  - eexists [_]. split_and!; [done|by apply Hcons|].
    exists object, gvk. split; [by left|done].
Qed.

(** X12. Submitting a roster again creates nothing.  On a cluster whose
    listing shows its namespaces, when the lab namespace and every namespace
    of the roster already exist, createLabEnvironment always returns, for any
    manifest and whatever the other calls answer: it answers with an empty
    credential map (no tenant is new, so no account, role or binding is made
    and no token is handed out again), or it panics on a document of the
    manifest whose flag cannot be read.  It lists the namespaces once for the
    lab and once per roster namespace and looks up resources of the manifest;
    it changes nothing in the cluster. *)
Theorem createLabEnvironment_again (lowerCase : Z → Z)
    (cluster : Cluster) (init : list string)
    (fuel : nat) (students : list Student)
    (form_labName form_isIndividual : string) (file : list decoded)
    (log : Log) :
  let labName := ReplaceAll form_labName "-" "" in
  let namespaces :=
    getNamespaceNames lowerCase students labName
      (negb (String.eqb form_isIndividual "false")) in
  lists_namespaces cluster init →
  "ns-" +:+ labName ∈ namespaces_after init log →
  Forall (λ name, name ∈ namespaces_after init log) namespaces →
  ∃ lookups response,
    createLabEnvironment lowerCase cluster fuel students form_labName form_isIndividual
      (inr file) log
    = Some (log ++ replicate (S (length namespaces)) (succeeded NamespacesList)
                ++ lookups,
            response)
    ∧ Forall (λ ev, ∃ gvk, ev_call ev = RESTMapping gvk) lookups
    ∧ (response = Returned (inr ∅)
       ∨ response = Panicked
         ∧ ∃ object gvk,
             Document object gvk ∈ file ∧ singleInstance object = Panicked).
Proof.
  cbn zeta. set (labName := ReplaceAll form_labName "-" "").
  set (namespaces := getNamespaceNames lowerCase students labName _).
  intros Hlist Hlab Hall. unfold createLabEnvironment. cbn zeta.
  fold labName. fold namespaces.
  rewrite (namespaceExists_listed cluster init Hlist).
  rewrite bool_decide_eq_true_2 by done. cbn [negb].
  rewrite (createNamespaces_all_present cluster init Hlist).
  2:{ eapply Forall_impl; [exact Hall|]. intros name Hname. cbn beta.
      by rewrite namespaces_after_snoc. }
  cbn [createUsers]. unfold handleManifest. cbn zeta. cbn [negb].
  destruct (createPerNamespace_no_namespaces cluster file
              ((log ++ [succeeded NamespacesList])
                 ++ replicate (length namespaces) (succeeded NamespacesList)))
    as (lookups & Hlog & Hcalls & Hexit).
  exists lookups.
  destruct (createPerNamespace cluster [] file _) as [log' [err|err|]];
    cbn [fst snd] in Hlog, Hexit; [|done|]; subst log'; eexists;
    (split_and!; [|exact Hcalls|]).
  - cbn [replicate]. by rewrite <- !app_assoc.
  - by left.
  - cbn [replicate]. by rewrite <- !app_assoc.
  - by right.
Qed.

Lemma createLabEnvironment_again_witness :
  ∃ lookups,
    createLabEnvironment demo_case
      (demo_cluster
         (mkDemo ["default"; "ns-demo"; "ns-demo-group-1"] [] true None
            no_fault))
      0 [mkStudent "1" "Jane Doe" 1; mkStudent "2" "John Roe" 1] "de-mo"
      "false" (inr demo_manifest) []
    = Some ([] ++ replicate 2 (succeeded NamespacesList) ++ lookups,
            Returned (inr ∅))
    ∧ Forall (λ ev, ∃ gvk, ev_call ev = RESTMapping gvk) lookups.
Proof.
  destruct (createLabEnvironment_again demo_case
              (demo_cluster
                 (mkDemo ["default"; "ns-demo"; "ns-demo-group-1"] [] true None
                    no_fault))
              ["default"; "ns-demo"; "ns-demo-group-1"] 0
              [mkStudent "1" "Jane Doe" 1; mkStudent "2" "John Roe" 1]
              "de-mo" "false" demo_manifest [])
    as (lookups & response & Hrun & Hcalls & Hresponse).
  - intros log. reflexivity.
  - vm_compute. apply list_elem_of_In. cbn. tauto.
  - vm_compute. repeat constructor.
  - exists lookups. split; [|exact Hcalls].
    destruct Hresponse as [->|[_ (object & gvk & Hin & Hflag)]]; [exact Hrun|].
    exfalso. vm_compute in Hin.
    apply elem_of_cons in Hin as [Hin|Hin].
    + injection Hin as -> _. vm_compute in Hflag. discriminate.
    + apply list_elem_of_singleton in Hin. injection Hin as -> _.
      vm_compute in Hflag. discriminate.
Defined.

(** ** The roles of a lab *)

Lemma matches_entry_spec (entries : list string) (requested : string) :
  matches_entry entries requested = true
  ↔ "*" ∈ entries ∨ requested ∈ entries.
Proof.
  unfold matches_entry. induction entries as [|entry entries IH].
  - cbn. rewrite !elem_of_nil. intuition congruence.
  - cbn [existsb]. rewrite !orb_true_iff, !String.eqb_eq, IH, !elem_of_cons.
    intuition congruence.
Qed.

(** X14. createRole issues one call, the creation in the given namespace of
    a role with the given name, and returns the error of that call, if any.
    The role allows a verb on a resource of an API group exactly when the verb
    is one of the given verbs or [*] is one of them, whatever the resource and
    the group.  So the role of the lab namespace (list, get, watch) allows no
    change there, and the role of a tenant namespace ([*]) allows
    everything. *)
Theorem createRole_grants (cluster : Cluster) (name namespace : string)
    (verbs : list string) (log : Log) :
  ∃ role,
    createRole cluster name namespace verbs log
    = (log ++ [mkEvent (RolesCreate namespace role)
                 (roles_create cluster log namespace role)],
       roles_create cluster log namespace role)
    ∧ Role.Name role = name
    ∧ Role.Namespace role = namespace
    ∧ (∀ group resource verb,
         RulesAllow (Role.Rules role) group resource verb = true
         ↔ "*" ∈ verbs ∨ verb ∈ verbs).
Proof.
  exists {| Role.APIVersion := "rbac.authorization.k8s.io/v1";
            Role.Kind := "Role";
            Role.Name := name;
            Role.Namespace := namespace;
            Role.Rules :=
              [ {| PolicyRule.APIGroups := ["*"];
                   PolicyRule.Verbs := verbs;
                   PolicyRule.Resources := ["*"] |} ] |}.
  split_and!.
  - unfold createRole, clientset.Roles_Create. cbn zeta.
    by destruct (roles_create cluster log namespace _).
  - done.
  - done.
  - intros group resource verb. unfold RulesAllow, RuleAllows.
    cbn [existsb Role.Rules PolicyRule.Verbs PolicyRule.APIGroups
           PolicyRule.Resources].
    rewrite orb_false_r, !andb_true_iff, !matches_entry_spec.
    rewrite !elem_of_cons, !elem_of_nil. tauto.
Qed.

(** ** The name of a lab *)

Lemma ReplaceAll_hyphen_twice (s : string) :
  ReplaceAll (ReplaceAll s "-" "") "-" "" = ReplaceAll s "-" "".
Proof.
  apply (replace_from_absent "-" "" (-1)), ReplaceAll_hyphen_free.
Qed.

(** X15. The hyphens of a lab name play no role: the lab name that
    createLabEnvironment and deleteLab work with has no hyphen, removing the
    hyphens again changes nothing, and both handlers do for a name exactly
    what they do for the name without its hyphens.  So two names that differ
    only in hyphens are one lab. *)
Theorem lab_name_hyphens_ignored (lowerCase : Z → Z)
    (cluster : Cluster) (fuel : nat)
    (students : list Student) (name other form_isIndividual : string)
    (manifestFile : HttpError + list decoded) (log : Log) :
  let labName := ReplaceAll name "-" "" in
  Contains labName "-" = false
  ∧ createLabEnvironment lowerCase cluster fuel students labName form_isIndividual
      manifestFile log
    = createLabEnvironment lowerCase cluster fuel students name form_isIndividual
        manifestFile log
  ∧ deleteLab cluster labName log = deleteLab cluster name log
  ∧ (ReplaceAll other "-" "" = labName →
     createLabEnvironment lowerCase cluster fuel students other form_isIndividual
       manifestFile log
     = createLabEnvironment lowerCase cluster fuel students name form_isIndividual
         manifestFile log
     ∧ deleteLab cluster other log = deleteLab cluster name log).
Proof.
  cbn zeta. split_and!.
  - apply ReplaceAll_hyphen_free.
  - unfold createLabEnvironment. by rewrite ReplaceAll_hyphen_twice.
  - unfold deleteLab. by rewrite ReplaceAll_hyphen_twice.
  - intros Hother. unfold createLabEnvironment, deleteLab.
    by rewrite Hother.
Qed.

(** ** A request that goes through *)

Lemma namespaces_after_kept (init : list string) (log events : Log)
    (name : string) :
  Forall (λ ev, is_delete (ev_call ev) = false) events →
  name ∈ namespaces_after init log →
  name ∈ namespaces_after init (log ++ events).
Proof.
  induction events as [|ev events IH] using rev_ind; intros Hkept Hname.
  { by rewrite app_nil_r. }
  apply Forall_app in Hkept as [Hkept Hev]. rewrite Forall_singleton in Hev.
  rewrite app_assoc, namespaces_after_snoc. specialize (IH Hkept Hname).
  destruct ev as [[] []]; cbn in Hev; try done.
  apply elem_of_app. by left.
Qed.

Lemma tenant_namespace_not_shared (labName key : string) :
  tenant_namespace labName key ≠ "ns-" +:+ labName.
Proof.
  unfold tenant_namespace. intros E. injection E as E.
  rewrite !sapp_nil_l in E.
  assert (String.length (labName +:+ "-" +:+ key) = String.length labName)
    as Hlen by (by rewrite E).
  rewrite !slength_app in Hlen. cbn in Hlen. lia.
Qed.

Section Obliging.
Variable cluster : Cluster.
Variable init : list string.
Variable resource_of : GroupVersionKind → GroupVersionResource.
Hypothesis obliges : obliging cluster init resource_of.

Lemma createServiceAccount_obliging (fuel : nat) (username namespace : string)
    (log : Log) :
  ∃ log' token,
    createServiceAccount cluster (S fuel) username namespace log
    = Some (log', (token, None)).
Proof.
  destruct obliges as (_ & _ & _ & _ & _ & Hcreate & Hfetch & Hsecret & _).
  unfold createServiceAccount, clientset.ServiceAccounts_Create. cbn zeta.
  destruct (Hcreate log namespace
              {| ServiceAccount.APIVersion := "v1";
                 ServiceAccount.Kind := "ServiceAccount";
                 ServiceAccount.Name := username;
                 ServiceAccount.Namespace := namespace;
                 ServiceAccount.Secrets := [] |}) as [created ->].
  cbn [awaitSecrets result_err]. unfold clientset.ServiceAccounts_Get.
  cbn zeta.
  destruct (Hfetch
              (log ++ [mkEvent
                         (ServiceAccountsCreate namespace
                            {| ServiceAccount.APIVersion := "v1";
                               ServiceAccount.Kind := "ServiceAccount";
                               ServiceAccount.Name := username;
                               ServiceAccount.Namespace := namespace;
                               ServiceAccount.Secrets := [] |}) None])
              namespace (ServiceAccount.Name created))
    as (fetched & -> & Hshown).
  destruct (ServiceAccount.Secrets fetched) as [|secretName others] eqn:Hs;
    [done|].
  cbn [length Nat.ltb Nat.leb hd]. unfold clientset.Secrets_Get. cbn zeta.
  match goal with
  | |- context [secrets_get cluster ?l namespace ?n] =>
      destruct (Hsecret l namespace n) as [secret ->]
  end.
  by eexists _, _.
Qed.

Lemma createUsers_obliging (fuel : nat) (labName : string)
    (newNamespaces : list string) (userConfigs : gmap string string)
    (log : Log) :
  ∃ log' userConfigs',
    createUsers cluster (S fuel) labName newNamespaces userConfigs log
    = Some (log', inr userConfigs').
Proof.
  destruct obliges as (_ & _ & Hrole & Hbinding & Hcluster & _).
  revert userConfigs log.
  induction newNamespaces as [|namespace newNamespaces IH];
    intros userConfigs log; [by eexists _, _|].
  cbn [createUsers].
  destruct (createServiceAccount_obliging fuel
              (Replace namespace ("ns-" +:+ labName +:+ "-") "" (-1))
              namespace log) as (log1 & token & ->).
  unfold createRole, clientset.Roles_Create. cbn zeta. rewrite Hrole.
  unfold createRoleBinding, clientset.RoleBindings_Create. cbn zeta.
  rewrite !Hbinding.
  unfold createReadNamespacesClusterRoleBinding,
    clientset.ClusterRoleBindings_Create.
  cbn zeta. rewrite Hcluster. apply IH.
Qed.

Lemma handleManifest_obliging (file : list decoded) (labName : string)
    (namespaces : list string) (labExists : bool) (log : Log) :
  Forall readable file →
  (handleManifest cluster file labName namespaces labExists log).2
  = Returned None.
Proof.
  destruct obliges as (_ & _ & _ & _ & _ & _ & _ & _ & Hmap & Hcreate).
  intros Hfile. unfold handleManifest.
  pose proof (createSingleInstances_prefix cluster resource_of Hmap Hcreate
                labName file [] log Hfile) as H1.
  rewrite app_nil_r in H1.
  destruct labExists; cbn [negb].
  - pose proof (createPerNamespace_prefix cluster resource_of Hmap Hcreate
                  namespaces file [] log Hfile) as H2.
    rewrite app_nil_r in H2. rewrite H2. cbn [createPerNamespace head
      handleManifestHelper]. by rewrite decide_True by done.
  - rewrite H1. cbn [createSingleInstances head handleManifestHelper].
    rewrite decide_False by (by intros ?).
    pose proof (createPerNamespace_prefix cluster resource_of Hmap Hcreate
                  namespaces file []
                  (log ++ (succeeded
                             <$> (file ≫= single_calls resource_of labName)))
                  Hfile) as H2.
    rewrite app_nil_r in H2. rewrite H2. cbn [createPerNamespace head
      handleManifestHelper].
    by rewrite decide_False by (by intros ?).
Qed.

(** What is left of createLabEnvironment once the lab namespace is there. *)
Lemma createLabEnvironment_rest_succeeds (fuel : nat) (labName : string)
    (namespaces : list string) (labExists : bool) (file : list decoded)
    (log : Log) :
  Forall readable file →
  ∃ log' userConfigs new,
    match createNamespaces cluster namespaces [] log with
    | (log, inl e) => Some (log, Returned (inl e))
    | (log, inr newNamespaces) =>
    match createUsers cluster (S fuel) labName newNamespaces ∅ log with
    | None => None
    | Some (log, inl e) => Some (log, Returned (inl e))
    | Some (log, inr userConfigs) =>
    match handleManifest cluster file labName newNamespaces labExists log with
    | (log, Panicked) => Some (log, Panicked)
    | (log, Returned (Some _)) =>
        Some (log, Returned (inl (http_Error
                "Something went wrong while deploying manifest"
                StatusInternalServerError)))
    | (log, Returned None) => Some (log, Returned (inr userConfigs))
    end end end
    = Some (log', Returned (inr userConfigs))
    ∧ dom userConfigs
      = (list_to_set (usernameOf labName <$> new) : gset string)
    ∧ (∀ name,
         name ∈ new
         ↔ name ∈ namespaces ∧ (name ∉ namespaces_after init log))
    ∧ ∀ name,
        name ∈ namespaces_after init log ∨ name ∈ namespaces →
        name ∈ namespaces_after init log'.
Proof.
  intros Hfile. pose proof obliges as (Hlist & Hcreate & _).
  destruct (createNamespaces_loop cluster init Hlist Hcreate namespaces []
              log)
    as (events & new & Hrun & _ & Hnew & _ & Hafter & _).
  rewrite Hrun. cbn [app].
  destruct (createUsers_obliging fuel labName new ∅ (log ++ events))
    as (log2 & userConfigs & Husers).
  rewrite Husers.
  pose proof (createUsers_keys _ _ _ _ _ _ _ _ Husers) as Hkeys.
  apply (createUsers_run cluster (λ c, is_delete c = false)) in Husers
    as [(events2 & -> & Hkept2 & _) _].
  2:{ intros ns c _. by destruct c. }
  destruct (handleManifest_events cluster (λ c, is_delete c = false)
              ltac:(done) file labName new labExists
              ((log ++ events) ++ events2))
    as (events3 & Hlog3 & Hkept3 & _); [done..|].
  pose proof (handleManifest_obliging file labName new labExists
                ((log ++ events) ++ events2) Hfile) as Hend.
  destruct (handleManifest cluster file labName new labExists _)
    as [log3 response]. cbn [fst snd] in Hlog3, Hend. subst log3 response.
  exists (((log ++ events) ++ events2) ++ events3), userConfigs, new.
  split_and!; [done| |done|].
  - rewrite Hkeys, dom_empty_L. by rewrite (left_id_L ∅ (∪)).
  - intros name Hname. do 2 (apply namespaces_after_kept; [done|]).
    rewrite Hafter, elem_of_app.
    destruct (decide (name ∈ namespaces_after init log)); [by left|].
    right. apply Hnew. by destruct Hname.
Qed.

End Obliging.

(** X16. A request that goes through.  On a cluster that does what it is
    asked (its listing shows its namespaces, it accepts every creation the
    handler asks for, shows the secret of an account at the first fetch and
    knows the resource of every type), for a manifest whose documents can all
    be read and a bound of at least one fetch per account, createLabEnvironment
    answers with the credential map, for any roster and whatever the cluster
    held before.  The map has an entry for each roster namespace that was
    missing, under the key recovered from the namespace name, and for no
    other; afterwards the lab namespace and every roster namespace exist. *)
Theorem createLabEnvironment_succeeds (lowerCase : Z → Z) (cluster : Cluster)
    (init : list string)
    (resource_of : GroupVersionKind → GroupVersionResource) (fuel : nat)
    (students : list Student) (form_labName form_isIndividual : string)
    (file : list decoded) (log : Log) :
  let labName := ReplaceAll form_labName "-" "" in
  let namespaces :=
    getNamespaceNames lowerCase students labName
      (negb (String.eqb form_isIndividual "false")) in
  obliging cluster init resource_of →
  Forall readable file →
  0 < fuel →
  ∃ log' userConfigs,
    createLabEnvironment lowerCase cluster fuel students form_labName form_isIndividual
      (inr file) log
    = Some (log', Returned (inr userConfigs))
    ∧ (∀ key,
         key ∈ dom userConfigs
         ↔ ∃ namespace,
             namespace ∈ namespaces
             ∧ (namespace ∉ namespaces_after init log)
             ∧ key = usernameOf labName namespace)
    ∧ "ns-" +:+ labName ∈ namespaces_after init log'
    ∧ ∀ namespace,
        namespace ∈ namespaces → namespace ∈ namespaces_after init log'.
Proof.
  cbn zeta. set (labName := ReplaceAll form_labName "-" "").
  set (namespaces := getNamespaceNames lowerCase students labName _).
  intros Hobliging Hfile Hfuel. destruct fuel as [|fuel]; [lia|].
  pose proof Hobliging as (Hlist & Hcreate & Hrole & _).
  assert (∀ name, name ∈ namespaces → name ≠ "ns-" +:+ labName) as Hother.
  { intros name. unfold namespaces. rewrite getNamespaceNames_tenants.
    intros (key & -> & _)%list_elem_of_fmap.
    apply tenant_namespace_not_shared. }
  unfold createLabEnvironment. cbn zeta. fold labName. fold namespaces.
  rewrite (namespaceExists_listed cluster init Hlist).
  destruct (decide ("ns-" +:+ labName ∈ namespaces_after init log))
    as [Hin|Hout].
  - rewrite bool_decide_eq_true_2 by done. cbn [negb].
    destruct (createLabEnvironment_rest_succeeds cluster init resource_of
                Hobliging fuel labName namespaces true file
                (log ++ [succeeded NamespacesList]) Hfile)
      as (log' & userConfigs & new & Hrun & Hkeys & Hnew & Hafter).
    exists log', userConfigs. split_and!.
    + exact Hrun.
    + intros key. rewrite Hkeys. split.
      * intros (name & -> & Hname)%elem_of_list_to_set%list_elem_of_fmap.
        exists name. apply Hnew in Hname as [? Hname].
        by rewrite namespaces_after_snoc in Hname.
      * intros (name & Hname & Hmissing & ->).
        apply elem_of_list_to_set, list_elem_of_fmap. exists name.
        split; [done|]. apply Hnew. by rewrite namespaces_after_snoc.
    + apply Hafter. left. by rewrite namespaces_after_snoc.
    + intros name Hname. apply Hafter. by right.
  - rewrite bool_decide_eq_false_2 by done. cbn [negb].
    unfold createNamespace, clientset.Namespaces_Create. cbn zeta.
    rewrite Hcreate by (by rewrite namespaces_after_snoc).
    unfold createRole, clientset.Roles_Create. cbn zeta. rewrite Hrole.
    match goal with
    | |- context [createNamespaces cluster namespaces [] ?l] =>
        set (log1 := l)
    end.
    assert (namespaces_after init log1
            = namespaces_after init log ++ ["ns-" +:+ labName]) as Hlog1.
    { unfold log1. by rewrite !namespaces_after_snoc. }
    destruct (createLabEnvironment_rest_succeeds cluster init resource_of
                Hobliging fuel labName namespaces false file log1 Hfile)
      as (log' & userConfigs & new & Hrun & Hkeys & Hnew & Hafter).
    exists log', userConfigs. split_and!.
    + exact Hrun.
    + intros key. rewrite Hkeys. split.
      * intros (name & -> & Hname)%elem_of_list_to_set%list_elem_of_fmap.
        exists name. apply Hnew in Hname as [Hname Hmissing].
        split_and!; [done| |done].
        intros Hold. apply Hmissing. rewrite Hlog1, elem_of_app. by left.
      * intros (name & Hname & Hmissing & ->).
        apply elem_of_list_to_set, list_elem_of_fmap. exists name.
        split; [done|]. apply Hnew. split; [done|].
        rewrite Hlog1, elem_of_app, list_elem_of_singleton.
        intros [?|?]; [done|]. by apply (Hother name).
    + apply Hafter. left. rewrite Hlog1, elem_of_app. right. by left.
    + intros name Hname. apply Hafter. by right.
Qed.

Lemma createLabEnvironment_succeeds_witness :
  ∃ log' userConfigs,
    createLabEnvironment demo_case
      (demo_cluster (mkDemo ["default"] [] true (Some 0) no_fault)) 1
      [mkStudent "1" "Jane Doe" 1; mkStudent "2" "John Roe" 2] "de-mo"
      "false" (inr demo_manifest) []
    = Some (log', Returned (inr userConfigs))
    ∧ dom userConfigs = ({[ "group-1"; "group-2" ]} : gset string)
    ∧ "ns-demo" ∈ namespaces_after ["default"] log'
    ∧ "ns-demo-group-2" ∈ namespaces_after ["default"] log'.
Proof.
  destruct (createLabEnvironment_succeeds demo_case
              (demo_cluster (mkDemo ["default"] [] true (Some 0) no_fault))
              ["default"] demo_resource_of 1
              [mkStudent "1" "Jane Doe" 1; mkStudent "2" "John Roe" 2]
              "de-mo" "false" demo_manifest [])
    as (log' & userConfigs & Hrun & Hkeys & Hlab & Hall).
  - unfold obliging, lists_namespaces.
    split_and!; try (intros; reflexivity).
    + intros log name Hname. cbn. unfold or_fault. cbn.
      by rewrite bool_decide_eq_false_2.
    + intros log namespace account. by eexists.
    + intros log namespace name. by eexists.
    + intros log namespace name. by eexists.
  - repeat constructor; vm_compute; discriminate.
  - lia.
  - exists log', userConfigs. split_and!; [exact Hrun| |exact Hlab|].
    + vm_compute in Hrun. injection Hrun as _ <-. vm_compute. reflexivity.
    + apply Hall. vm_compute. apply list_elem_of_In. cbn. tauto.
Defined.
